(** * News pipeline (scrap_gameloft.py): article store, collector,
      extraction engine and chunk/embed/upload batcher.

    Shallow embedding of [src/Code/scrap_gameloft.py].

    Conventions of the embedding.
    - A Python [str] is a Rocq [string] (characters are code points below
      256); [len] is [String.length].
    - A value that is either [None] or a [str] (a nullable TEXT column of the
      [articles] table, a value of a JSON object) is a [pytext].
    - The [articles] table is the list of its rows in insertion order, which
      is also the order of [created_at] (CURRENT_TIMESTAMP never decreases);
      the columns [id] and [created_at] are represented by the position.
    - A column written through [json.dumps] holds the value that was dumped.
    - External collaborators (trafilatura, requests, urlparse, the embedding
      model, the vector store, the text splitter) are fields of a [world];
      a call that raises is [Raises].
    - The failures of the SQL engine that are modelled are those of the
      statements inside the [try] blocks of [NewsDatabase] (the INSERT, the
      UPDATE and their commits), and the rejection of a [LIMIT] that is not
      a 64-bit integer by the SELECT of [get_unprocessed_articles];
      [sqlite3.connect] and the SELECT statements are otherwise taken to
      succeed.
    - [logger] calls and [time.sleep] change nothing that the program reads
      and are left out. *)

From Stdlib Require Import String Ascii List ZArith Bool Arith Lia.
Import ListNotations.
Open Scope string_scope.
Open Scope list_scope.

(** ** Python values *)

Module Py.

(** [None] or a [str]. *)
Definition pytext := option string.

(** Truth value of [None] / [str]: only a non-empty string is true. *)
Definition truthy (v : pytext) : bool :=
  match v with
  | Some s => negb (s =? "")
  | None => false
  end.

(** [a or b]. *)
Definition py_or (a b : pytext) : pytext := if truthy a then a else b.

(** The result of a call that may raise. *)
Inductive outcome (A : Type) : Type :=
| Returns (a : A)
| Raises.
Arguments Returns {A} a.
Arguments Raises {A}.

(** [str.isspace] on one character (code points below 256). *)
Definition is_space (c : ascii) : bool :=
  let n := nat_of_ascii c in
  (((9 <=? n) && (n <=? 13)) || ((28 <=? n) && (n <=? 32))
   || (n =? 133) || (n =? 160))%nat.

Fixpoint lstrip (s : string) : string :=
  match s with
  | EmptyString => EmptyString
  | String c s' => if is_space c then lstrip s' else s
  end.

Fixpoint rstrip (s : string) : string :=
  match s with
  | EmptyString => EmptyString
  | String c s' =>
      match rstrip s' with
      | EmptyString => if is_space c then EmptyString else String c EmptyString
      | r => String c r
      end
  end.

(** [s.strip()]. *)
Definition strip (s : string) : string := lstrip (rstrip s).

(** [s[:n]]. *)
Definition slice_to (n : nat) (s : string) : string := substring 0 n s.

(** [s.replace(old, "")] for a four-character [old]: [skip] counts the
    characters of a match still to be dropped. *)
Fixpoint remove4 (old : string) (skip : nat) (s : string) : string :=
  match s with
  | EmptyString => EmptyString
  | String c s' =>
      match skip with
      | S k => remove4 old k s'
      | O =>
          if prefix old s then remove4 old 3 s'
          else String c (remove4 old 0 s')
      end
  end.

End Py.
Import Py.

(** ** Search results (the JSON objects of a SearXNG response) *)

(** The value of a key of a JSON object: missing, [null] or a string. *)
Inductive jfield : Type :=
| JAbsent
| JNull
| JStr (s : string).

(** [d.get(key, default)]. *)
Definition dict_get (f : jfield) (default : pytext) : pytext :=
  match f with
  | JAbsent => default
  | JNull => None
  | JStr s => Some s
  end.

(** The [source] key: missing, an object with a [name] key, [null] or a
    string. *)
Inductive jsource : Type :=
| SrcAbsent
| SrcDict (name : jfield)
| SrcNull
| SrcStr (s : string).

Record searx_result : Type := mk_searx {
  sr_url : jfield;
  sr_title : jfield;
  sr_content : jfield;
  sr_publishedDate : jfield;
  sr_source : jsource;
  sr_img_src : jfield;
  sr_thumbnail : jfield
}.

(** [source.get('name', '') if isinstance(source, dict) else str(source)]
    with [source = searx_article.get('source', {})]. *)
Definition source_name_of (src : jsource) : pytext :=
  match src with
  | SrcAbsent => Some ""
  | SrcDict name => dict_get name (Some "")
  | SrcNull => Some "None"
  | SrcStr s => Some s
  end.

(** ** The [clean_metadata] dictionary of an extracted record *)

Record metadata : Type := mk_metadata {
  md_title : pytext;
  md_date : pytext;
  md_author : pytext;
  md_source : pytext;
  md_url : string;
  md_description : string;
  md_image_url : pytext;
  md_content_source : string;
  md_trafilatura_success : bool
}.

(** ** Rows of the [articles] table *)

Record article : Type := mk_article {
  url : string;
  title : pytext;
  content : pytext;
  published_date : pytext;
  source_name : pytext;
  img_src : pytext;
  thumbnail : pytext;
  searxng_data : searx_result;
  processed : bool;
  trafilatura_success : bool;
  extracted_content : pytext;
  extracted_metadata : option metadata
}.

Definition store := list article.

(** A failure of the SQL engine inside a [try] block of [NewsDatabase]:
    [cursor.execute] raises, or [conn.commit] raises. In both cases the
    connection is closed without a commit, so nothing is written. *)
Inductive sql_fault : Type :=
| NoFault
| ExecuteRaises
| CommitRaises.

(** ** NewsDatabase *)

Module NewsDatabase.

Definition has_url (u : string) (db : store) : bool :=
  existsb (fun a => url a =? u) db.

(** The row written by the INSERT statement; the columns it does not name
    take their defaults. *)
Definition new_row (u : string) (r : searx_result) : article :=
  {| url := u;
     title := dict_get (sr_title r) (Some "");
     content := dict_get (sr_content r) (Some "");
     published_date := dict_get (sr_publishedDate r) (Some "");
     source_name := source_name_of (sr_source r);
     img_src := dict_get (sr_img_src r) (Some "");
     thumbnail := dict_get (sr_thumbnail r) (Some "");
     searxng_data := r;
     processed := false;
     trafilatura_success := false;
     extracted_content := None;
     extracted_metadata := None |}.

(** [insert_searxng_result]: the returned flag and the table afterwards.
    INSERT OR IGNORE skips a row whose [url] is already there
    ([cursor.rowcount] is then 0). *)
Definition insert_searxng_result (f : sql_fault) (r : searx_result) (db : store)
  : bool * store :=
  match dict_get (sr_url r) (Some "") with
  | None => (false, db)
  | Some u =>
      if u =? "" then (false, db)
      else
        match f with
        | NoFault =>
            if has_url u db then (false, db)
            else (true, db ++ [new_row u r])
        | ExecuteRaises | CommitRaises => (false, db)
        end
  end.

(** [LIMIT n] of SQLite: a negative [n] is no bound. *)
Definition sql_limit (n : Z) (rows : list article) : list article :=
  if (n <? 0)%Z then rows else firstn (Z.to_nat n) rows.

(** An integer literal that SQLite reads as an INTEGER (64 bits, signed).
    [LIMIT] followed by any other integer literal makes [cursor.execute]
    raise (datatype mismatch). *)
Definition sql_integer (n : Z) : bool :=
  ((-9223372036854775808 <=? n) && (n <=? 9223372036854775807))%Z.

(** [get_unprocessed_articles]: [limit] is [None] or an integer;
    [if limit:] skips the clause for [None] and for 0, and the limit is
    otherwise written into the text of the query. The SELECT is outside
    every [try]: what it raises reaches the caller. *)
Definition get_unprocessed_articles (limit : option Z) (db : store)
  : outcome (list article) :=
  let rows := filter (fun a => negb (processed a)) db in
  match limit with
  | None => Returns rows
  | Some n =>
      if (n =? 0)%Z then Returns rows
      else if sql_integer n then Returns (sql_limit n rows)
      else Raises
  end.

(** The UPDATE statement on one row. *)
Definition update_row (u : string) (success : bool) (ec : pytext)
  (em : option metadata) (a : article) : article :=
  if url a =? u then
    {| url := url a;
       title := title a;
       content := content a;
       published_date := published_date a;
       source_name := source_name a;
       img_src := img_src a;
       thumbnail := thumbnail a;
       searxng_data := searxng_data a;
       processed := true;
       trafilatura_success := success;
       extracted_content := ec;
       extracted_metadata := em |}
  else a.

(** [mark_as_processed]. *)
Definition mark_as_processed (f : sql_fault) (u : string) (success : bool)
  (ec : pytext) (em : option metadata) (db : store) : store :=
  match f with
  | NoFault => map (update_row u success ec em) db
  | ExecuteRaises | CommitRaises => db
  end.

Record stats : Type := mk_stats {
  total : Z;
  st_processed : Z;
  unprocessed : Z;
  trafilatura_successful : Z;
  trafilatura_failed : Z
}.

Definition count_rows (p : article -> bool) (db : store) : Z :=
  Z.of_nat (length (filter p db)).

(** [get_stats]. *)
Definition get_stats (db : store) : stats :=
  let t := count_rows (fun _ => true) db in
  let p := count_rows processed db in
  let s := count_rows trafilatura_success db in
  {| total := t;
     st_processed := p;
     unprocessed := (t - p)%Z;
     trafilatura_successful := s;
     trafilatura_failed := (p - s)%Z |}.

End NewsDatabase.

(** ** Collaborators *)

(** The fields of a trafilatura metadata document that the program reads
    (the values of [traf_meta.as_dict()]). *)
Record trafilatura_document : Type := mk_document {
  doc_title : pytext;
  doc_date : pytext;
  doc_author : pytext;
  doc_sitename : pytext;
  doc_description : pytext;
  doc_image : pytext
}.

(** A float of an embedding, as (mantissa, exponent). *)
Definition float64 := (Z * Z)%type.
Definition vector := list float64.

(** The [combined_metadata] of a chunk: a copy of the record's metadata
    with the key [source_id]. *)
Record chunk_metadata : Type := mk_chunk_metadata {
  cm_metadata : metadata;
  cm_source_id : string
}.

(** A row sent to the [documents] table of the vector store. *)
Record document_row : Type := mk_document_row {
  dr_content : string;
  dr_metadata : chunk_metadata;
  dr_embedding : vector
}.

Record world : Type := mk_world {
  (** [trafilatura.fetch_url(url, config=TRAF_CONFIG, no_ssl=b)] *)
  fetch_url : string -> bool -> outcome pytext;
  (** [trafilatura.extract(downloaded, ...)] *)
  trafilatura_extract : string -> outcome pytext;
  (** [trafilatura.extract_metadata(downloaded)] *)
  extract_metadata : string -> outcome (option trafilatura_document);
  (** [urlparse(url).netloc] *)
  urlparse_netloc : string -> outcome string;
  (** [requests.get(endpoint, params, timeout=15)], [raise_for_status],
      [response.json().get('results', [])]: endpoint, [q], [time_range]
      (when sent) and [pageno] *)
  searxng_request :
    string -> string -> pytext -> Z -> outcome (list searx_result);
  (** failure of the INSERT issued for a search result *)
  insert_fault : searx_result -> sql_fault;
  (** failure of the UPDATE issued for a url *)
  update_fault : string -> sql_fault;
  (** [create_supabase_client()], [create_bedrock_client()] *)
  create_clients : outcome unit;
  (** [RecursiveCharacterTextSplitter(chunk_size, chunk_overlap,
      length_function=len, is_separator_regex=False).split_text] *)
  split_text : Z -> Z -> string -> list string;
  (** [CustomBedrockEmbeddings.get_embedding] *)
  get_embedding : string -> outcome vector;
  (** [supabase.table("documents").insert(rows).execute()]: one request,
      which stores all the rows or raises and stores none *)
  supabase_insert : list document_row -> outcome unit
}.

(** ** State and control *)

(** What the program changes: the global [db], the [documents] table of the
    vector store, and the texts passed to [get_embedding] so far. *)
Record state : Type := mk_state {
  db : store;
  documents : list document_row;
  embed_calls : list string
}.

Definition set_db (d : store) (s : state) : state :=
  {| db := d; documents := documents s; embed_calls := embed_calls s |}.

(** A statement: it returns or raises, and leaves a state either way. *)
Definition M (A : Type) : Type := state -> outcome A * state.

Definition ret {A} (a : A) : M A := fun s => (Returns a, s).

Definition raise {A} : M A := fun s => (Raises, s).

Definition bind {A B} (m : M A) (k : A -> M B) : M B :=
  fun s =>
    match m s with
    | (Returns a, s') => k a s'
    | (Raises, s') => (Raises, s')
    end.

(** [try: m  except Exception: h]. *)
Definition try_except {A} (m : M A) (h : M A) : M A :=
  fun s =>
    match m s with
    | (Returns a, s') => (Returns a, s')
    | (Raises, s') => h s'
    end.

(** A collaborator call inside a statement. *)
Definition call {A} (o : outcome A) : M A := fun s => (o, s).

Notation "x <- m ;; k" := (bind m (fun x => k))
  (at level 61, m at next level, right associativity).
Notation "m ;;; k" := (bind m (fun _ => k))
  (at level 61, right associativity).

(** ** Helper functions *)

(** [get_domain]. *)
Definition get_domain (w : world) (u : string) : string :=
  match urlparse_netloc w u with
  | Returns n => remove4 "www." 0 n
  | Raises => ""
  end.

(** [fetch_with_strategy]. *)
Definition fetch_with_strategy (w : world) (u : string) : pytext :=
  match fetch_url w u false with
  | Raises => None
  | Returns (Some d) => Some d
  | Returns None =>
      match fetch_url w u true with
      | Raises => None
      | Returns d => d
      end
  end.

(** ** Search component *)

Fixpoint rstrip_slash (s : string) : string :=
  match s with
  | EmptyString => EmptyString
  | String c s' =>
      match rstrip_slash s' with
      | EmptyString =>
          if Ascii.eqb c "/" then EmptyString else String c EmptyString
      | r => String c r
      end
  end.

(** [get_searxng_news]. *)
Definition get_searxng_news (w : world) (query base_url : string)
  (time_range : pytext) (page : Z) : list searx_result :=
  let search_endpoint := (rstrip_slash base_url ++ "/search")%string in
  let sent_range := if truthy time_range then time_range else None in
  match searxng_request w search_endpoint query sent_range page with
  | Returns results => results
  | Raises => []
  end.

(** ** Extraction component *)

(** The dictionary returned by [extract_and_format_enhanced]. *)
Record extracted_record : Type := mk_record {
  rec_id : string;
  page_content : string;
  rec_metadata : metadata
}.

(** [trafilatura_metadata.get(key)] ([default = None]) and
    [trafilatura_metadata.get(key, default)]; the dictionary is [{}] when
    [extract_metadata] gave nothing or was not called. *)
Definition meta_get (tm : option trafilatura_document)
  (key : trafilatura_document -> pytext) (default : pytext) : pytext :=
  match tm with
  | Some d => key d
  | None => default
  end.

(** [db.mark_as_processed(...)] on the global store. *)
Definition db_mark_as_processed (w : world) (u : string) (success : bool)
  (ec : pytext) (em : option metadata) : M unit :=
  fun s =>
    (Returns tt,
     set_db (NewsDatabase.mark_as_processed (update_fault w u) u success ec em
               (db s)) s).

(** Part A of the [try] block: fetch and trafilatura extraction. The result
    is (trafilatura_content, trafilatura_metadata); [trafilatura_success] is
    the truth value of the content. *)
Definition try_trafilatura (w : world) (u : string)
  : M (pytext * option trafilatura_document) :=
  match fetch_with_strategy w u with
  | Some d =>
      if d =? "" then ret (None, None)
      else
        trafilatura_content <- call (trafilatura_extract w d) ;;
        traf_meta <- call (extract_metadata w d) ;;
        ret (trafilatura_content, traf_meta)
  | None => ret (None, None)
  end.

(** Part C: [clean_metadata]. The slice [[:500]] raises a TypeError when
    neither description is a string. *)
Definition build_metadata (w : world) (db_article : article)
  (tm : option trafilatura_document) (content_source : string)
  (success : bool) : M metadata :=
  let u := url db_article in
  match py_or (meta_get tm doc_description None) (content db_article) with
  | None => raise
  | Some description =>
      ret {| md_title := py_or (meta_get tm doc_title None) (title db_article);
             md_date := py_or (meta_get tm doc_date None)
                              (published_date db_article);
             md_author := meta_get tm doc_author (Some "");
             md_source := py_or (py_or (meta_get tm doc_sitename None)
                                       (source_name db_article))
                                (Some (get_domain w u));
             md_url := u;
             md_description := slice_to 500 description;
             md_image_url := py_or (py_or (meta_get tm doc_image None)
                                          (img_src db_article))
                                   (thumbnail db_article);
             md_content_source := content_source;
             md_trafilatura_success := success |}
  end.

(** Parts C to E, once the final content is known. *)
Definition finish_record (w : world) (db_article : article)
  (tm : option trafilatura_document) (content_source final_content : string)
  (success : bool) : M (option extracted_record) :=
  let u := url db_article in
  clean_metadata <- build_metadata w db_article tm content_source success ;;
  let output := {| rec_id := u;
                   page_content := final_content;
                   rec_metadata := clean_metadata |} in
  db_mark_as_processed w u success
    (if success then Some final_content else None) (Some clean_metadata) ;;;
  ret (Some output).

(** Part B, [else] branch: the SearXNG content, or the title. *)
Definition fallback_record (w : world) (db_article : article)
  (tm : option trafilatura_document) : M (option extracted_record) :=
  match py_or (content db_article) (title db_article) with
  | Some final_content =>
      if final_content =? "" then ret None
      else finish_record w db_article tm "searxng_fallback" final_content false
  | None => ret None
  end.

(** The body of the [try] block; the [match] is [if trafilatura_success]. *)
Definition extract_body (w : world) (db_article : article)
  : M (option extracted_record) :=
  r <- try_trafilatura w (url db_article) ;;
  let '(trafilatura_content, tm) := r in
  match trafilatura_content with
  | Some final_content =>
      if final_content =? "" then fallback_record w db_article tm
      else finish_record w db_article tm "trafilatura" final_content true
  | None => fallback_record w db_article tm
  end.

(** [extract_and_format_enhanced]. *)
Definition extract_and_format_enhanced (w : world) (db_article : article)
  : M (option extracted_record) :=
  let u := url db_article in
  if u =? "" then ret None
  else
    try_except (extract_body w db_article)
      (db_mark_as_processed w u false None None ;;; ret None).

(** ** Chunking, embedding and upload *)

Definition CHUNK_SIZE : Z := 500.
Definition CHUNK_OVERLAP : Z := 100.

(** [len(content.strip()) < 50] fails and [content] is not empty. *)
Definition long_enough (body : string) : bool :=
  negb (body =? "") && negb (String.length (strip body) <? 50)%nat.

(** [len(chunk.strip()) > 20]. *)
Definition meaningful (chunk : string) : bool :=
  (20 <? String.length (strip chunk))%nat.

(** The pairs appended to [texts_to_embed] and [metadatas] for one record. *)
Definition chunks_of_record (w : world) (record : extracted_record)
  : list (string * chunk_metadata) :=
  if long_enough (page_content record) then
    let combined_metadata :=
      {| cm_metadata := rec_metadata record; cm_source_id := rec_id record |} in
    map (fun chunk => (chunk, combined_metadata))
        (filter meaningful
                (split_text w CHUNK_SIZE CHUNK_OVERLAP (page_content record)))
  else [].

(** The first loop: [zip(texts_to_embed, metadatas)] after it. *)
Definition batch_of (w : world) (records : list extracted_record)
  : list (string * chunk_metadata) :=
  flat_map (chunks_of_record w) records.

(** [embeddings.embed_documents(texts)]: one [get_embedding] per text, in
    order, stopping at the first that raises. *)
Fixpoint embed_documents (w : world) (texts : list string) : M (list vector) :=
  match texts with
  | [] => ret []
  | text :: rest =>
      v <- (fun s =>
              (get_embedding w text,
               {| db := db s; documents := documents s;
                  embed_calls := embed_calls s ++ [text] |})) ;;
      vs <- embed_documents w rest ;;
      ret (v :: vs)
  end.

(** [zip(texts_to_embed, metadatas, vectors)] as rows. *)
Fixpoint rows_of (batch : list (string * chunk_metadata))
  (vectors : list vector) : list document_row :=
  match batch, vectors with
  | (text, meta) :: batch', v :: vectors' =>
      {| dr_content := text; dr_metadata := meta; dr_embedding := v |}
      :: rows_of batch' vectors'
  | _, _ => []
  end.

(** The insert request. *)
Definition insert_documents (w : world) (rows : list document_row) : M unit :=
  fun s =>
    match supabase_insert w rows with
    | Returns _ =>
        (Returns tt,
         {| db := db s; documents := documents s ++ rows;
            embed_calls := embed_calls s |})
    | Raises => (Raises, s)
    end.

(** [process_and_upload_json_records]. *)
Definition process_and_upload_json_records (w : world)
  (records : list extracted_record) : M unit :=
  match records with
  | [] => ret tt
  | _ =>
      match create_clients w with
      | Raises => ret tt
      | Returns _ =>
          let batch := batch_of w records in
          match batch with
          | [] => ret tt
          | _ =>
              try_except
                (vectors <- embed_documents w (map fst batch) ;;
                 insert_documents w (rows_of batch vectors))
                (ret tt)
          end
      end
  end.

(** ** Pipeline *)

(** [db.insert_searxng_result(item)] on the global store. *)
Definition db_insert_searxng_result (w : world) (item : searx_result)
  : M bool :=
  fun s =>
    let '(is_new, d) :=
      NewsDatabase.insert_searxng_result (insert_fault w item) item (db s) in
    (Returns is_new, set_db d s).

(** The inner loop of [collect_searxng_articles]: [new_items_count]. *)
Fixpoint insert_items (w : world) (items : list searx_result) (count : Z)
  : M Z :=
  match items with
  | [] => ret count
  | item :: rest =>
      is_new <- db_insert_searxng_result w item ;;
      insert_items w rest (if is_new then count + 1 else count)%Z
  end.

(** The page loop, with its [break] on an empty page. *)
Fixpoint collect_pages (w : world) (topic searx_url : string)
  (time_range : pytext) (pages : list Z) (total_new_articles : Z) : M Z :=
  match pages with
  | [] => ret total_new_articles
  | page_num :: rest =>
      match get_searxng_news w topic searx_url time_range page_num with
      | [] => ret total_new_articles
      | items =>
          new_items_count <- insert_items w items 0%Z ;;
          collect_pages w topic searx_url time_range rest
            (total_new_articles + new_items_count)%Z
      end
  end.

(** [range(1, max_pages + 1)]. *)
Definition page_range (max_pages : Z) : list Z :=
  map Z.of_nat (seq 1 (Z.to_nat max_pages)).

(** [collect_searxng_articles]. *)
Definition collect_searxng_articles (w : world) (topic searx_url : string)
  (max_pages : Z) (time_range : pytext) : M Z :=
  collect_pages w topic searx_url time_range (page_range max_pages) 0%Z.

(** The loop of [process_stored_articles]; [article['title'][:50]] in the
    log line raises a TypeError for a NULL title. *)
Fixpoint process_articles (w : world) (articles : list article)
  (processed_records : list extracted_record) : M (list extracted_record) :=
  match articles with
  | [] => ret processed_records
  | article :: rest =>
      match title article with
      | None => raise
      | Some _ =>
          result <- extract_and_format_enhanced w article ;;
          process_articles w rest
            (match result with
             | Some r => processed_records ++ [r]
             | None => processed_records
             end)
      end
  end.

(** [process_stored_articles]. *)
Definition process_stored_articles (w : world) (limit : option Z)
  : M (list extracted_record) :=
  articles <-
    (fun s => (NewsDatabase.get_unprocessed_articles limit (db s), s)) ;;
  process_articles w articles [].

(** [run_complete_pipeline]. *)
Definition run_complete_pipeline (w : world) (topic searx_url : string)
  (max_pages : Z) (time_range : pytext) (process_limit : option Z) : M unit :=
  collect_searxng_articles w topic searx_url max_pages time_range ;;;
  processed_records <- process_stored_articles w process_limit ;;
  match processed_records with
  | [] => ret tt
  | _ => process_and_upload_json_records w processed_records
  end.

(** One run of the pipeline: the collaborators it meets and its arguments. *)
Record run : Type := mk_run {
  run_world : world;
  run_topic : string;
  run_searx_url : string;
  run_max_pages : Z;
  run_time_range : pytext;
  run_process_limit : option Z
}.

(** The topic loop of the main block: an exception of one run is caught and
    the loop goes on. *)
Fixpoint run_topics (runs : list run) : M unit :=
  match runs with
  | [] => ret tt
  | r :: rest =>
      try_except
        (run_complete_pipeline (run_world r) (run_topic r) (run_searx_url r)
           (run_max_pages r) (run_time_range r) (run_process_limit r))
        (ret tt) ;;;
      run_topics rest
  end.

(** ** Properties of the store used in the statements *)

(** The UNIQUE constraint of the column [url]. *)
Definition wf_store (d : store) : Prop := NoDup (map url d).

(** Number of rows with a given url. *)
Definition url_count (u : string) (d : store) : nat :=
  length (filter (fun a => url a =? u) d).

(** The rows that the SELECT of [get_unprocessed_articles] yields when the
    statement executes: the unprocessed rows in insertion order, cut by the
    LIMIT clause when there is one. *)
Definition unprocessed_rows (limit : option Z) (d : store) : list article :=
  let rows := filter (fun a => negb (processed a)) d in
  match limit with
  | None => rows
  | Some n => if (n =? 0)%Z then rows else NewsDatabase.sql_limit n rows
  end.

(** What the UPDATE of [mark_as_processed] does to one row: a row of another
    url is kept; a row of this url gets the four columns and keeps the rest. *)
Definition marked_row (u : string) (success : bool) (ec : pytext)
  (em : option metadata) (a a' : article) : Prop :=
  (url a <> u -> a' = a) /\
  (url a = u ->
     processed a' = true /\ trafilatura_success a' = success /\
     extracted_content a' = ec /\ extracted_metadata a' = em /\
     url a' = url a /\ title a' = title a /\ content a' = content a /\
     published_date a' = published_date a /\ source_name a' = source_name a /\
     img_src a' = img_src a /\ thumbnail a' = thumbnail a /\
     searxng_data a' = searxng_data a).

(** The invariant of the rows written by the pipeline. *)
Definition row_ok (a : article) : Prop :=
  (extracted_content a <> None -> trafilatura_success a = true) /\
  (trafilatura_success a = true -> processed a = true) /\
  (processed a = false ->
     extracted_content a = None /\ extracted_metadata a = None) /\
  (forall md, extracted_metadata a = Some md ->
     md_trafilatura_success md = trafilatura_success a).

(** The state before the first run. *)
Definition initial_state : state :=
  {| db := []; documents := []; embed_calls := [] |}.

(** A world with one collaborator replaced. *)
Definition set_fetch_url (f : string -> bool -> outcome pytext) (w : world)
  : world :=
  {| fetch_url := f;
     trafilatura_extract := trafilatura_extract w;
     extract_metadata := extract_metadata w;
     urlparse_netloc := urlparse_netloc w;
     searxng_request := searxng_request w;
     insert_fault := insert_fault w;
     update_fault := update_fault w;
     create_clients := create_clients w;
     split_text := split_text w;
     get_embedding := get_embedding w;
     supabase_insert := supabase_insert w |}.

Definition set_trafilatura_extract (f : string -> outcome pytext) (w : world)
  : world :=
  {| fetch_url := fetch_url w;
     trafilatura_extract := f;
     extract_metadata := extract_metadata w;
     urlparse_netloc := urlparse_netloc w;
     searxng_request := searxng_request w;
     insert_fault := insert_fault w;
     update_fault := update_fault w;
     create_clients := create_clients w;
     split_text := split_text w;
     get_embedding := get_embedding w;
     supabase_insert := supabase_insert w |}.

Definition set_searxng_request
  (f : string -> string -> pytext -> Z -> outcome (list searx_result))
  (w : world) : world :=
  {| fetch_url := fetch_url w;
     trafilatura_extract := trafilatura_extract w;
     extract_metadata := extract_metadata w;
     urlparse_netloc := urlparse_netloc w;
     searxng_request := f;
     insert_fault := insert_fault w;
     update_fault := update_fault w;
     create_clients := create_clients w;
     split_text := split_text w;
     get_embedding := get_embedding w;
     supabase_insert := supabase_insert w |}.

Definition set_split_text (f : Z -> Z -> string -> list string) (w : world)
  : world :=
  {| fetch_url := fetch_url w;
     trafilatura_extract := trafilatura_extract w;
     extract_metadata := extract_metadata w;
     urlparse_netloc := urlparse_netloc w;
     searxng_request := searxng_request w;
     insert_fault := insert_fault w;
     update_fault := update_fault w;
     create_clients := create_clients w;
     split_text := f;
     get_embedding := get_embedding w;
     supabase_insert := supabase_insert w |}.

Definition set_get_embedding (f : string -> outcome vector) (w : world)
  : world :=
  {| fetch_url := fetch_url w;
     trafilatura_extract := trafilatura_extract w;
     extract_metadata := extract_metadata w;
     urlparse_netloc := urlparse_netloc w;
     searxng_request := searxng_request w;
     insert_fault := insert_fault w;
     update_fault := update_fault w;
     create_clients := create_clients w;
     split_text := split_text w;
     get_embedding := f;
     supabase_insert := supabase_insert w |}.

Definition pytext_eqb (a b : pytext) : bool :=
  match a, b with
  | Some x, Some y => x =? y
  | None, None => true
  | _, _ => false
  end.

(** The world [w] with an empty result list for one request. *)
Definition with_empty_page (w : world) (endpoint query : string)
  (range : pytext) (page : Z) : world :=
  set_searxng_request
    (fun e q r p =>
       if (e =? endpoint) && (q =? query) && pytext_eqb r range && (p =? page)%Z
       then Returns []
       else searxng_request w e q r p)
    w.

(** A world in which no page can be downloaded, the search finds nothing
    and everything else works. *)
Definition nothing_fetched_world : world :=
  {| fetch_url := fun _ _ => Returns None;
     trafilatura_extract := fun _ => Returns None;
     extract_metadata := fun _ => Returns None;
     urlparse_netloc := fun _ => Returns "a.test";
     searxng_request := fun _ _ _ _ => Returns [];
     insert_fault := fun _ => NoFault;
     update_fault := fun _ => NoFault;
     create_clients := Returns tt;
     split_text := fun _ _ text => [text];
     get_embedding := fun _ => Returns [];
     supabase_insert := fun _ => Returns tt |}.

(** ** Vocabulary of the proofs and example data *)

Definition example_result : searx_result :=
  {| sr_url := JStr "https://a.test/1";
     sr_title := JStr "T";
     sr_content := JStr "snippet text";
     sr_publishedDate := JAbsent;
     sr_source := SrcAbsent;
     sr_img_src := JAbsent;
     sr_thumbnail := JAbsent |}.

Definition example_metadata : metadata :=
  {| md_title := Some "T";
     md_date := Some "";
     md_author := Some "";
     md_source := Some "a.test";
     md_url := "https://a.test/1";
     md_description := "snippet text";
     md_image_url := Some "";
     md_content_source := "trafilatura";
     md_trafilatura_success := true |}.

(** A row extracted with success, already processed. *)
Definition processed_example : article :=
  {| url := "https://a.test/1";
     title := Some "T";
     content := Some "snippet text";
     published_date := Some "";
     source_name := Some "";
     img_src := Some "";
     thumbnail := Some "";
     searxng_data := example_result;
     processed := true;
     trafilatura_success := true;
     extracted_content := Some "the full text of the article";
     extracted_metadata := Some example_metadata |}.

(** What the [try] block can do: nothing, raise before any write, or
    produce a record and mark the article. *)
Inductive body_result (w : world) (a : article) (s : state)
  : outcome (option extracted_record) * state -> Prop :=
| BodyNothing : body_result w a s (Returns None, s)
| BodyRaises : body_result w a s (Raises, s)
| BodyRecord (success : bool) (final_content : string) (md : metadata) :
    md_trafilatura_success md = success ->
    body_result w a s
      (Returns (Some {| rec_id := url a; page_content := final_content;
                        rec_metadata := md |}),
       set_db (NewsDatabase.mark_as_processed (update_fault w (url a)) (url a)
                 success (if success then Some final_content else None)
                 (Some md) (db s)) s).

(** What a call of [extract_and_format_enhanced] can do. *)
Inductive extract_result (w : world) (a : article) (s : state)
  : outcome (option extracted_record) * state -> Prop :=
| ExtractNothing : extract_result w a s (Returns None, s)
| ExtractFailed :
    extract_result w a s
      (Returns None,
       set_db (NewsDatabase.mark_as_processed (update_fault w (url a)) (url a)
                 false None None (db s)) s)
| ExtractRecord (success : bool) (final_content : string) (md : metadata) :
    md_trafilatura_success md = success ->
    extract_result w a s
      (Returns (Some {| rec_id := url a; page_content := final_content;
                        rec_metadata := md |}),
       set_db (NewsDatabase.mark_as_processed (update_fault w (url a)) (url a)
                 success (if success then Some final_content else None)
                 (Some md) (db s)) s).

(** From a table that respects the UNIQUE constraint: the constraint still
    holds, every processed row is still there as it was, and the row
    invariant is kept. *)
Definition evolves (d d' : store) : Prop :=
  wf_store d ->
  wf_store d' /\
  (forall b, In b d -> processed b = true -> In b d') /\
  (Forall row_ok d -> Forall row_ok d').

(** The arguments with which the extraction engine calls
    [mark_as_processed]. *)
Definition engine_mark (success : bool) (ec : pytext) (em : option metadata)
  : Prop :=
  (ec <> None -> success = true) /\
  (forall md, em = Some md -> md_trafilatura_success md = success).

(** The scenario of a search that returns one article whose page cannot be
    fetched. *)
Definition scenario_world : world :=
  set_searxng_request
    (fun _ _ _ page =>
       if (page =? 1)%Z then Returns [example_result] else Returns [])
    nothing_fetched_world.

Definition scenario_run : run :=
  {| run_world := scenario_world;
     run_topic := "Gameloft official press release news";
     run_searx_url := "http://searx.test:8080";
     run_max_pages := 10;
     run_time_range := None;
     run_process_limit := None |}.

Definition fallback_metadata : metadata :=
  {| md_title := Some "T";
     md_date := Some "";
     md_author := Some "";
     md_source := Some "a.test";
     md_url := "https://a.test/1";
     md_description := "snippet text";
     md_image_url := Some "";
     md_content_source := "searxng_fallback";
     md_trafilatura_success := false |}.

(** The row of the scenario after the run. *)
Definition fallback_row : article :=
  {| url := "https://a.test/1";
     title := Some "T";
     content := Some "snippet text";
     published_date := Some "";
     source_name := Some "";
     img_src := Some "";
     thumbnail := Some "";
     searxng_data := example_result;
     processed := true;
     trafilatura_success := false;
     extracted_content := None;
     extracted_metadata := Some fallback_metadata |}.

(** A stored article with an empty snippet and an empty title. *)
Definition empty_article : article :=
  NewsDatabase.new_row "https://a.test/2"
    {| sr_url := JStr "https://a.test/2";
       sr_title := JStr "";
       sr_content := JAbsent;
       sr_publishedDate := JAbsent;
       sr_source := SrcAbsent;
       sr_img_src := JAbsent;
       sr_thumbnail := JAbsent |}.

Definition empty_article_state : state :=
  {| db := [empty_article]; documents := []; embed_calls := [] |}.

(** The article of the scenario as stored by the collector. *)
Definition stored_example : article :=
  NewsDatabase.new_row "https://a.test/1" example_result.

Definition stored_example_state : state :=
  {| db := [stored_example]; documents := []; embed_calls := [] |}.

(** A world whose download raises. *)
Definition fetch_raises_world : world :=
  set_fetch_url (fun _ _ => Raises) nothing_fetched_world.

(** A world whose download works and whose text extraction raises. *)
Definition parse_raises_world : world :=
  set_trafilatura_extract (fun _ => Raises)
    (set_fetch_url (fun _ _ => Returns (Some "<html>page</html>"))
       nothing_fetched_world).

Definition parse_raises (w : world) (u : string) : Prop :=
  exists d, fetch_with_strategy w u = Some d /\ d <> "" /\
            (trafilatura_extract w d = Raises \/ extract_metadata w d = Raises).

Fixpoint string_repeat (c : ascii) (n : nat) : string :=
  match n with
  | O => EmptyString
  | S k => String c (string_repeat c k)
  end.

(** A paragraph of 20 characters followed by one of 500. *)
Definition two_paragraphs : string :=
  (string_repeat "A" 20 ++ String "010" (String "010" EmptyString)
   ++ string_repeat "B" 500)%string.

(** A world whose splitter gives the first paragraph of [two_paragraphs] as
    a chunk of its own: the two paragraphs together exceed the chunk size. *)
Definition paragraph_world : world :=
  set_split_text
    (fun _ _ text =>
       if text =? two_paragraphs
       then [string_repeat "A" 20; string_repeat "B" 500]
       else [text])
    nothing_fetched_world.

Definition two_paragraphs_record : extracted_record :=
  {| rec_id := "https://a.test/1";
     page_content := two_paragraphs;
     rec_metadata := example_metadata |}.

Definition add_embed_calls (calls : list string) (s : state) : state :=
  {| db := db s; documents := documents s;
     embed_calls := embed_calls s ++ calls |}.

(** A world whose embedding model fails on the second chunk. *)
Definition embedding_fails_world : world :=
  set_get_embedding
    (fun text =>
       if text =? string_repeat "B" 30 then Raises else Returns [(1, 0)%Z])
    (set_split_text
       (fun _ _ _ =>
          [string_repeat "A" 30; string_repeat "B" 30; string_repeat "C" 30])
       nothing_fetched_world).

(** A world whose search answers page 1 and fails on page 2. *)
Definition page_two_fails_world : world :=
  set_searxng_request
    (fun _ _ _ page =>
       if (page =? 1)%Z then Returns [example_result]
       else if (page =? 2)%Z then Raises
       else Returns [example_result])
    nothing_fetched_world.

(** A world whose download and extraction work. *)
Definition page_extracted_world : world :=
  set_trafilatura_extract (fun _ => Returns (Some "the full text of the article"))
    (set_fetch_url (fun _ _ => Returns (Some "<html>page</html>"))
       nothing_fetched_world).

(** A stored article whose snippet is NULL and whose title is not empty. *)
Definition null_snippet_article : article :=
  NewsDatabase.new_row "https://a.test/3"
    {| sr_url := JStr "https://a.test/3";
       sr_title := JStr "T";
       sr_content := JNull;
       sr_publishedDate := JNull;
       sr_source := SrcNull;
       sr_img_src := JAbsent;
       sr_thumbnail := JAbsent |}.

(** ** Vocabulary of the further properties *)

(** One write to the [articles] table: an [insert_searxng_result] or a
    [mark_as_processed], with whatever arguments and failures. *)
Inductive store_step : store -> store -> Prop :=
| StepInsert (f : sql_fault) (r : searx_result) (d : store) :
    store_step d (snd (NewsDatabase.insert_searxng_result f r d))
| StepMark (f : sql_fault) (u : string) (success : bool) (ec : pytext)
    (em : option metadata) (d : store) :
    store_step d (NewsDatabase.mark_as_processed f u success ec em d).

(** Any number of writes. *)
Inductive store_steps : store -> store -> Prop :=
| StepsNone (d : store) : store_steps d d
| StepsMore (d1 d2 d3 : store) :
    store_steps d1 d2 -> store_step d2 d3 -> store_steps d1 d3.

(** A table built from the empty one by the methods of [NewsDatabase]. *)
Definition reachable_store (d : store) : Prop := store_steps [] d.

(** Two rows with the same discovery columns. *)
Definition same_discovery (a b : article) : Prop :=
  url a = url b /\ title a = title b /\ content a = content b /\
  published_date a = published_date b /\ source_name a = source_name b /\
  img_src a = img_src b /\ thumbnail a = thumbnail b /\
  searxng_data a = searxng_data b.

(** A row as the table can hold it: its url is the non-empty url of the
    search result kept in [searxng_data], its discovery columns are those
    the INSERT computed from that result, it is still exactly the inserted
    row while it is unprocessed, and a success flag implies processed. *)
Definition as_discovered (a : article) : Prop :=
  url a <> "" /\
  sr_url (searxng_data a) = JStr (url a) /\
  same_discovery a (NewsDatabase.new_row (url a) (searxng_data a)) /\
  (processed a = false -> a = NewsDatabase.new_row (url a) (searxng_data a)) /\
  (trafilatura_success a = true -> processed a = true).

(** The url under which a search result is stored: its [url] key when that
    is a string. *)
Definition result_url (r : searx_result) : string :=
  match sr_url r with
  | JStr u => u
  | JAbsent | JNull => ""
  end.

(** The search results that the page loop of [collect_searxng_articles]
    passes to [insert_searxng_result]: those of the pages up to the first
    empty one. *)
Fixpoint visited_items (w : world) (topic searx_url : string)
  (time_range : pytext) (pages : list Z) : list searx_result :=
  match pages with
  | [] => []
  | page_num :: rest =>
      match get_searxng_news w topic searx_url time_range page_num with
      | [] => []
      | items => items ++ visited_items w topic searx_url time_range rest
      end
  end.

(** Search results that would all be ignored by an insert into [d]. *)
Definition settled (w : world) (items : list searx_result) (d : store) : Prop :=
  Forall (fun item =>
            NewsDatabase.insert_searxng_result (insert_fault w item) item d
            = (false, d)) items.

(** A row is the one inserted for one of the given search results, whose
    [url] key is a non-empty string. *)
Definition inserted_from (items : list searx_result) (a : article) : Prop :=
  exists item, In item items /\
               sr_url item = JStr (url a) /\ url a <> "" /\
               a = NewsDatabase.new_row (url a) item.

(** The metadata of a record are merged from the extracted document [tm]
    (when there is one) and the stored article: for each key the first
    non-empty value wins, and the description is cut to 500 characters. *)
Definition merged_metadata (w : world) (a : article)
  (tm : option trafilatura_document) (md : metadata) : Prop :=
  md_url md = url a /\
  md_title md = py_or (meta_get tm doc_title None) (title a) /\
  md_date md = py_or (meta_get tm doc_date None) (published_date a) /\
  md_author md = meta_get tm doc_author (Some "") /\
  md_source md = py_or (py_or (meta_get tm doc_sitename None) (source_name a))
                       (Some (get_domain w (url a))) /\
  md_image_url md = py_or (py_or (meta_get tm doc_image None) (img_src a))
                          (thumbnail a) /\
  Some (md_description md) =
    option_map (slice_to 500)
      (py_or (meta_get tm doc_description None) (content a)) /\
  (String.length (md_description md) <= 500)%nat.


(** A stored article whose title is NULL (the search result had
    ["title": null]). *)
Definition null_title_article : article :=
  NewsDatabase.new_row "https://a.test/4"
    {| sr_url := JStr "https://a.test/4";
       sr_title := JNull;
       sr_content := JStr "snippet text";
       sr_publishedDate := JAbsent;
       sr_source := SrcAbsent;
       sr_img_src := JAbsent;
       sr_thumbnail := JAbsent |}.

(** The row of the table that a returned record describes. *)
Definition row_of_record (r : extracted_record) (a : article) : Prop :=
  url a = rec_id r /\
  processed a = true /\
  trafilatura_success a = md_trafilatura_success (rec_metadata r) /\
  extracted_metadata a = Some (rec_metadata r) /\
  extracted_content a =
    (if md_trafilatura_success (rec_metadata r)
     then Some (page_content r) else None).

(** The vector that the embedding model returns for a text. *)
Definition embedding_of (w : world) (text : string) : vector :=
  match get_embedding w text with
  | Returns v => v
  | Raises => []
  end.

(** The rows of a batch: each chunk with its metadata and its embedding. *)
Definition expected_rows (w : world) (batch : list (string * chunk_metadata))
  : list document_row :=
  map (fun p => {| dr_content := fst p; dr_metadata := snd p;
                   dr_embedding := embedding_of w (fst p) |}) batch.

(** The embedding model answers for a text. *)
Definition embeds (w : world) (text : string) : Prop :=
  get_embedding w text <> Raises.

(** [s'] extends [s]: the urls of the article table, the [documents] table
    and the texts sent to the embedding model are those of [s] followed by
    new ones. *)
Definition grows (s s' : state) : Prop :=
  (exists urls, map url (db s') = map url (db s) ++ urls) /\
  (exists rows, documents s' = documents s ++ rows) /\
  (exists calls, embed_calls s' = embed_calls s ++ calls).

(** A row of the [documents] table that belongs to a stored article. *)
Definition document_of_store (d : store) (row : document_row) : Prop :=
  In (cm_source_id (dr_metadata row)) (map url d) /\
  md_url (cm_metadata (dr_metadata row)) = cm_source_id (dr_metadata row) /\
  (20 < String.length (strip (dr_content row)))%nat.

(** A world whose search finds the example article and whose extraction
    gives a text of 60 characters. *)
Definition long_text_world : world :=
  set_searxng_request
    (fun _ _ _ page =>
       if (page =? 1)%Z then Returns [example_result] else Returns [])
    (set_trafilatura_extract (fun _ => Returns (Some (string_repeat "t" 60)))
       (set_fetch_url (fun _ _ => Returns (Some "<html>page</html>"))
          nothing_fetched_world)).

Definition long_text_run : run :=
  {| run_world := long_text_world;
     run_topic := "Gameloft official press release news";
     run_searx_url := "http://searx.test:8080";
     run_max_pages := 10;
     run_time_range := None;
     run_process_limit := None |}.

(** [old in s] for a four-character [old]. *)
Fixpoint occurs (old s : string) : bool :=
  match s with
  | EmptyString => false
  | String _ s' => prefix old s || occurs old s'
  end.

(** The segments [pre] joined with [www.] after each, followed by [z]. *)
Definition join_www (pre : list string) (z : string) : string :=
  fold_right (fun a r => a ++ "www." ++ r)%string z pre.

(** The same segments joined with nothing between them. *)
Definition join_plain (pre : list string) (z : string) : string :=
  fold_right append z pre.

(** The segments cut a string at the occurrences of [www.] that
    [str.replace] finds, from left to right and without overlap: no
    [www.] starts inside a segment of [pre], not even one that runs into
    the [www.] after it, and there is none in [z]. *)
Definition leftmost (pre : list string) (z : string) : Prop :=
  Forall (fun a => occurs "www." (a ++ "www") = false) pre /\
  occurs "www." z = false.

(** A world whose url parser finds the host [www.a.test]. *)
Definition www_world : world :=
  {| fetch_url := fun _ _ => Returns None;
     trafilatura_extract := fun _ => Returns None;
     extract_metadata := fun _ => Returns None;
     urlparse_netloc := fun _ => Returns "www.a.test";
     searxng_request := fun _ _ _ _ => Returns [];
     insert_fault := fun _ => NoFault;
     update_fault := fun _ => NoFault;
     create_clients := Returns tt;
     split_text := fun _ _ text => [text];
     get_embedding := fun _ => Returns [];
     supabase_insert := fun _ => Returns tt |}.

(** A world whose url parser finds the host [news.www.a.test]. *)
Definition inner_www_world : world :=
  {| fetch_url := fun _ _ => Returns None;
     trafilatura_extract := fun _ => Returns None;
     extract_metadata := fun _ => Returns None;
     urlparse_netloc := fun _ => Returns "news.www.a.test";
     searxng_request := fun _ _ _ _ => Returns [];
     insert_fault := fun _ => NoFault;
     update_fault := fun _ => NoFault;
     create_clients := Returns tt;
     split_text := fun _ _ text => [text];
     get_embedding := fun _ => Returns [];
     supabase_insert := fun _ => Returns tt |}.

(** * Proofs *)

(** ** The functions on concrete inputs *)

Example strip_example :
  strip (String "009" " a b  " ++ String "010" EmptyString)%string = "a b".
Proof. reflexivity. Qed.

Example get_domain_example :
  get_domain
    (set_fetch_url (fun _ _ => Raises) nothing_fetched_world)
    "https://www.a.test/1" = "a.test" /\
  remove4 "www." 0 "www.news.www.a.test" = "news.a.test".
Proof. split; reflexivity. Qed.

Example source_name_examples :
  map source_name_of [SrcAbsent; SrcDict (JStr "IGN"); SrcDict JAbsent;
                      SrcNull; SrcStr "IGN"] =
  [Some ""; Some "IGN"; Some ""; Some "None"; Some "IGN"].
Proof. reflexivity. Qed.

Example insert_examples :
  NewsDatabase.insert_searxng_result NoFault example_result [] =
    (true, [stored_example]) /\
  NewsDatabase.insert_searxng_result NoFault example_result [stored_example] =
    (false, [stored_example]) /\
  NewsDatabase.insert_searxng_result CommitRaises example_result [] =
    (false, []) /\
  NewsDatabase.insert_searxng_result NoFault
    (mk_searx JAbsent (JStr "T") JAbsent JAbsent SrcAbsent JAbsent JAbsent) [] =
    (false, []).
Proof. repeat split. Qed.

Example unprocessed_examples :
  let d := [stored_example; processed_example; empty_article] in
  NewsDatabase.get_unprocessed_articles None d =
    Returns [stored_example; empty_article] /\
  NewsDatabase.get_unprocessed_articles (Some 0%Z) d =
    Returns [stored_example; empty_article] /\
  NewsDatabase.get_unprocessed_articles (Some 1%Z) d =
    Returns [stored_example] /\
  NewsDatabase.get_unprocessed_articles (Some (-1)%Z) d =
    Returns [stored_example; empty_article] /\
  NewsDatabase.get_unprocessed_articles (Some 9223372036854775807%Z) d =
    Returns [stored_example; empty_article] /\
  NewsDatabase.get_unprocessed_articles (Some 9223372036854775808%Z) d =
    Raises /\
  NewsDatabase.get_unprocessed_articles (Some (-9223372036854775809)%Z) d =
    Raises.
Proof. repeat split. Qed.

Example stats_example :
  NewsDatabase.get_stats [stored_example; processed_example; fallback_row] =
  {| NewsDatabase.total := 3; NewsDatabase.st_processed := 2;
     NewsDatabase.unprocessed := 1; NewsDatabase.trafilatura_successful := 1;
     NewsDatabase.trafilatura_failed := 1 |}.
Proof. reflexivity. Qed.

Example extraction_success_example :
  let r := extract_and_format_enhanced page_extracted_world stored_example
             stored_example_state in
  option_map page_content
    (match fst r with Returns o => o | Raises => None end) =
    Some "the full text of the article" /\
  map (fun a => (processed a, trafilatura_success a, extracted_content a))
    (db (snd r)) = [(true, true, Some "the full text of the article")].
Proof. vm_compute. split; reflexivity. Qed.

(** A NULL snippet with a title: the slice of the description raises, the
    handler marks the article as failed, and nothing is returned. *)
Example null_snippet_example :
  let s := {| db := [null_snippet_article]; documents := []; embed_calls := [] |} in
  let r := extract_and_format_enhanced nothing_fetched_world
             null_snippet_article s in
  fst r = Returns None /\
  map (fun a => (processed a, trafilatura_success a, extracted_metadata a))
    (db (snd r)) = [(true, false, None)].
Proof. vm_compute. split; reflexivity. Qed.

Example upload_example :
  let s := snd (process_and_upload_json_records paragraph_world
                  [two_paragraphs_record] initial_state) in
  map dr_content (documents s) = [string_repeat "B" 500] /\
  embed_calls s = [string_repeat "B" 500].
Proof. vm_compute. split; reflexivity. Qed.

Example upload_failure_example :
  process_and_upload_json_records embedding_fails_world
    [two_paragraphs_record] initial_state =
  (Returns tt,
   {| db := []; documents := [];
      embed_calls := [string_repeat "A" 30; string_repeat "B" 30] |}).
Proof. vm_compute. reflexivity. Qed.

(** ** Strings *)

Lemma lstrip_length (s : string) : (String.length (lstrip s) <= String.length s)%nat.
Proof.
  induction s as [|c s IH]; simpl; [lia|].
  destruct (is_space c); simpl; lia.
Qed.

Lemma rstrip_length (s : string) : (String.length (rstrip s) <= String.length s)%nat.
Proof.
  induction s as [|c s IH]; simpl; [lia|].
  destruct (rstrip s) as [|c' r].
  - destruct (is_space c); simpl; lia.
  - simpl in *. lia.
Qed.

Lemma strip_length (s : string) : (String.length (strip s) <= String.length s)%nat.
Proof.
  unfold strip.
  pose proof (lstrip_length (rstrip s)).
  pose proof (rstrip_length s).
  lia.
Qed.

Lemma string_eqb_false (a b : string) : a <> b -> (a =? b) = false.
Proof. intro H. now apply String.eqb_neq. Qed.

(** ** The article store *)

Section StoreFacts.

Import NewsDatabase.

Lemma listing_cases (limit : option Z) (d : store) :
  get_unprocessed_articles limit d = Raises \/
  get_unprocessed_articles limit d = Returns (unprocessed_rows limit d).
Proof.
  unfold get_unprocessed_articles, unprocessed_rows.
  destruct limit as [n|]; [|now right].
  destruct (n =? 0)%Z; [now right|].
  destruct (sql_integer n); [now right|now left].
Qed.

Lemma listing_returns (limit : option Z) (d : store) (rows : list article) :
  get_unprocessed_articles limit d = Returns rows ->
  rows = unprocessed_rows limit d.
Proof.
  intro E. destruct (listing_cases limit d) as [H|H]; congruence.
Qed.

Lemma listing_unlimited (d : store) :
  get_unprocessed_articles None d = Returns (unprocessed_rows None d).
Proof. reflexivity. Qed.

Lemma listing_accepted (n : Z) (d : store) :
  sql_integer n = true ->
  get_unprocessed_articles (Some n) d = Returns (unprocessed_rows (Some n) d).
Proof.
  intro H. unfold get_unprocessed_articles, unprocessed_rows.
  rewrite H. now destruct (n =? 0)%Z.
Qed.

Lemma listing_rejected (n : Z) (d : store) :
  sql_integer n = false -> get_unprocessed_articles (Some n) d = Raises.
Proof.
  intro H. unfold get_unprocessed_articles. rewrite H.
  destruct (n =? 0)%Z eqn:E; [|reflexivity].
  apply Z.eqb_eq in E. subst n. discriminate H.
Qed.

Lemma process_stored_cases (w : world) (limit : option Z) (s : state) :
  (get_unprocessed_articles limit (db s) = Raises /\
   process_stored_articles w limit s = (Raises, s)) \/
  (get_unprocessed_articles limit (db s) =
     Returns (unprocessed_rows limit (db s)) /\
   process_stored_articles w limit s =
     process_articles w (unprocessed_rows limit (db s)) [] s).
Proof.
  unfold process_stored_articles, bind.
  destruct (listing_cases limit (db s)) as [H|H]; rewrite H; [left|right];
    now split.
Qed.

Lemma has_url_true (u : string) (d : store) :
  has_url u d = true <-> In u (map url d).
Proof.
  unfold has_url. rewrite existsb_exists, in_map_iff.
  split; intros [a [H1 H2]]; exists a.
  - apply String.eqb_eq in H2. tauto.
  - split; [tauto|]. now apply String.eqb_eq.
Qed.

Lemma has_url_false (u : string) (d : store) :
  has_url u d = false <-> ~ In u (map url d).
Proof.
  rewrite <- has_url_true. destruct (has_url u d); split; congruence.
Qed.

Lemma url_count_app (u : string) (d1 d2 : store) :
  url_count u (d1 ++ d2) = (url_count u d1 + url_count u d2)%nat.
Proof. unfold url_count. now rewrite filter_app, length_app. Qed.

Lemma url_count_absent (u : string) (d : store) :
  ~ In u (map url d) -> url_count u d = 0%nat.
Proof.
  unfold url_count. induction d as [|a d IH]; simpl; intro H; [reflexivity|].
  destruct (url a =? u) eqn:E.
  - apply String.eqb_eq in E. tauto.
  - apply IH. tauto.
Qed.

Lemma url_count_unique (u : string) (d : store) :
  wf_store d -> In u (map url d) -> url_count u d = 1%nat.
Proof.
  unfold wf_store. induction d as [|a d IH]; simpl; intros Hnd Hin; [tauto|].
  inversion Hnd as [|x l Hnot Hnd']; subst.
  change (url_count u (a :: d)) with (url_count u ([a] ++ d)).
  rewrite url_count_app. unfold url_count at 1. simpl.
  destruct (url a =? u) eqn:E.
  - apply String.eqb_eq in E. subst u.
    now rewrite (url_count_absent _ _ Hnot).
  - apply String.eqb_neq in E. destruct Hin as [Hin|Hin]; [tauto|].
    simpl. now apply IH.
Qed.

Lemma insert_cases (f : sql_fault) (r : searx_result) (d : store) :
  insert_searxng_result f r d = (false, d) \/
  exists u, sr_url r = JStr u /\ u <> "" /\ f = NoFault /\
            has_url u d = false /\
            insert_searxng_result f r d = (true, d ++ [new_row u r]).
Proof.
  unfold insert_searxng_result.
  destruct (sr_url r) as [| |u]; simpl; auto.
  destruct (u =? "") eqn:E; auto.
  destruct f; auto.
  destruct (has_url u d) eqn:H; auto.
  right. exists u. apply String.eqb_neq in E. auto.
Qed.

Lemma insert_wf (f : sql_fault) (r : searx_result) (d : store) :
  wf_store d -> wf_store (snd (insert_searxng_result f r d)).
Proof.
  intro Hwf.
  destruct (insert_cases f r d) as [H|[u [_ [_ [_ [Hno H]]]]]]; rewrite H; simpl; auto.
  unfold wf_store. rewrite map_app. simpl.
  apply has_url_false in Hno.
  apply NoDup_app; auto.
  - repeat constructor. simpl. tauto.
  - intros x Hx [Hy|[]]. subst. tauto.
Qed.

Lemma insert_keeps (f : sql_fault) (r : searx_result) (d : store) (a : article) :
  In a d -> In a (snd (insert_searxng_result f r d)).
Proof.
  intro Hin.
  destruct (insert_cases f r d) as [H|[u [_ [_ [_ [_ H]]]]]]; rewrite H; simpl; auto.
  apply in_or_app. auto.
Qed.

Lemma update_row_url u success ec em a : url (update_row u success ec em a) = url a.
Proof. unfold update_row. now destruct (url a =? u). Qed.

Lemma mark_urls f u success ec em d :
  map url (mark_as_processed f u success ec em d) = map url d.
Proof.
  destruct f; simpl; auto.
  rewrite map_map. apply map_ext. intro a. apply update_row_url.
Qed.

Lemma mark_wf f u success ec em d :
  wf_store d -> wf_store (mark_as_processed f u success ec em d).
Proof. unfold wf_store. now rewrite mark_urls. Qed.

Lemma mark_keeps_other f u success ec em d a :
  In a d -> url a <> u -> In a (mark_as_processed f u success ec em d).
Proof.
  intros Hin Hne. destruct f; simpl; auto.
  apply in_map_iff. exists a. split; auto.
  unfold update_row. now rewrite string_eqb_false.
Qed.

Lemma update_row_marked u success ec em a :
  marked_row u success ec em a (update_row u success ec em a).
Proof.
  unfold marked_row, update_row. split; intro H.
  - now rewrite string_eqb_false.
  - rewrite H, String.eqb_refl. simpl. tauto.
Qed.

End StoreFacts.

(** ** Idempotent discovery *)

Section Discovery.

Import NewsDatabase.

Lemma insert_valid_url (f : sql_fault) (r : searx_result) (u : string) (d : store) :
  sr_url r = JStr u -> u <> "" ->
  insert_searxng_result f r d =
  match f with
  | NoFault => if has_url u d then (false, d) else (true, d ++ [new_row u r])
  | _ => (false, d)
  end.
Proof.
  intros Hr Hu. unfold insert_searxng_result. rewrite Hr. simpl.
  now rewrite (string_eqb_false _ _ Hu).
Qed.

Lemma has_url_new_row (u : string) (r : searx_result) (d : store) :
  has_url u (d ++ [new_row u r]) = true.
Proof.
  apply has_url_true. rewrite map_app. apply in_or_app. right. simpl. auto.
Qed.

(** C1. Inserting a search result whose url is [u]: the call returns true
    exactly when it appended a new row, and false exactly when it left the
    table as it was; a later insert of any result with the same url, once
    the url is stored, returns false and leaves every row as it is; and when
    the first INSERT does not fail the table holds exactly one row of that
    url after the first call and after the second. *)
Theorem insert_same_url_twice (r r' : searx_result) (u : string) (d : store)
  (f f' : sql_fault) :
  wf_store d -> sr_url r = JStr u -> sr_url r' = JStr u -> u <> "" ->
  let first := insert_searxng_result f r d in
  let second := insert_searxng_result f' r' (snd first) in
  (fst first = true <-> snd first = d ++ [new_row u r]) /\
  (fst first = false <-> snd first = d) /\
  (has_url u (snd first) = true -> second = (false, snd first)) /\
  (f = NoFault ->
     url_count u (snd first) = 1%nat /\ second = (false, snd first) /\
     url_count u (snd second) = 1%nat).
Proof.
  intros Hwf Hr Hr' Hu first second.
  assert (Hgrow : d ++ [new_row u r] <> d).
  { intro E. apply (f_equal (@length _)) in E.
    rewrite length_app in E. simpl in E. lia. }
  assert (Hstored : has_url u (snd first) = true -> second = (false, snd first)).
  { intro Hhas. subst second.
    rewrite (insert_valid_url f' r' u _ Hr' Hu), Hhas. now destruct f'. }
  assert (Hone : f = NoFault -> url_count u (snd first) = 1%nat /\
                                has_url u (snd first) = true).
  { intro Hf. subst first. rewrite (insert_valid_url f r u d Hr Hu), Hf.
    destruct (has_url u d) eqn:Hhas; simpl.
    - split; auto. apply url_count_unique; auto. now apply has_url_true.
    - split; [|apply has_url_new_row].
      rewrite url_count_app, url_count_absent by now apply has_url_false.
      unfold url_count. simpl. now rewrite String.eqb_refl. }
  assert (Hfirst : first = (false, d) \/ first = (true, d ++ [new_row u r])).
  { subst first. rewrite (insert_valid_url f r u d Hr Hu).
    destruct f; auto. destruct (has_url u d); auto. }
  split; [|split; [|split]].
  - destruct Hfirst as [E|E]; rewrite E; simpl; split; congruence.
  - destruct Hfirst as [E|E]; rewrite E; simpl; split; congruence.
  - exact Hstored.
  - intro Hf. destruct (Hone Hf) as [Hc Hh].
    rewrite (Hstored Hh). simpl. auto.
Qed.

Lemma insert_same_url_twice_witness :
  let u := "https://a.test/1" in
  let first := insert_searxng_result NoFault example_result [] in
  let second := insert_searxng_result NoFault example_result (snd first) in
  (fst first = true <-> snd first = [] ++ [new_row u example_result]) /\
  (fst first = false <-> snd first = []) /\
  (has_url u (snd first) = true -> second = (false, snd first)) /\
  (NoFault = NoFault ->
     url_count u (snd first) = 1%nat /\ second = (false, snd first) /\
     url_count u (snd second) = 1%nat).
Proof.
  apply (insert_same_url_twice example_result example_result
           "https://a.test/1" [] NoFault NoFault).
  - constructor.
  - reflexivity.
  - reflexivity.
  - discriminate.
Defined.

End Discovery.

(** ** Marking an article as processed *)

Section Marking.

Import NewsDatabase.

Lemma update_row_twice u success ec em a :
  update_row u success ec em (update_row u success ec em a) =
  update_row u success ec em a.
Proof.
  unfold update_row. destruct (url a =? u) eqn:E; simpl; now rewrite E.
Qed.

Lemma mark_twice f u success ec em d :
  mark_as_processed f u success ec em (mark_as_processed f u success ec em d) =
  mark_as_processed f u success ec em d.
Proof.
  destruct f; simpl; auto.
  rewrite map_map. apply map_ext. intro a. apply update_row_twice.
Qed.

Lemma Forall2_map_self {A : Type} (R : A -> A -> Prop) (g : A -> A) (l : list A) :
  (forall a, R a (g a)) -> Forall2 R l (map g l).
Proof. intro H. induction l; simpl; constructor; auto. Qed.

(** C2 fails as stated: on a row that is already processed the UPDATE runs
    again and replaces the success flag and the extracted content. *)
Lemma mark_processed_again_counterexample :
  let d := [processed_example] in
  let d' := mark_as_processed NoFault "https://a.test/1" false None None d in
  map processed d = [true] /\
  d' <> d /\
  map trafilatura_success d = [true] /\
  map trafilatura_success d' = [false] /\
  map extracted_content d = [Some "the full text of the article"] /\
  map extracted_content d' = [None].
Proof.
  simpl. repeat split; auto. discriminate.
Qed.

(** C2, amended. [mark_as_processed] always returns normally. When neither
    the UPDATE nor the commit raises, every row of the url gets
    [processed = true] and the given success flag, content and metadata,
    whatever it held before (an already processed row is overwritten), and
    the other columns and the rows of other urls are kept. When the UPDATE
    or the commit raises, the error is caught and the table is as before.
    A second call with the same arguments changes nothing more. *)
Theorem mark_as_processed_overwrites (w : world) (u : string) (success : bool)
  (ec : pytext) (em : option metadata) (s : state) :
  exists d',
    db_mark_as_processed w u success ec em s = (Returns tt, set_db d' s) /\
    match update_fault w u with
    | NoFault => Forall2 (marked_row u success ec em) (db s) d'
    | ExecuteRaises | CommitRaises => d' = db s
    end /\
    db_mark_as_processed w u success ec em (set_db d' s) =
    (Returns tt, set_db d' s).
Proof.
  exists (mark_as_processed (update_fault w u) u success ec em (db s)).
  split; [reflexivity|]. split.
  - destruct (update_fault w u); simpl; auto.
    apply Forall2_map_self. intro a. apply update_row_marked.
  - unfold db_mark_as_processed. simpl. now rewrite mark_twice.
Qed.

End Marking.

(** ** The extraction engine *)

Section Extraction.

Import NewsDatabase.

Variable w : world.

Lemma try_trafilatura_state (u : string) (s : state) :
  snd (try_trafilatura w u s) = s.
Proof.
  unfold try_trafilatura, bind, call, ret.
  destruct (fetch_with_strategy w u) as [d|]; auto.
  destruct (d =? ""); auto.
  destruct (trafilatura_extract w d); auto.
  destruct (extract_metadata w d); auto.
Qed.

Lemma build_metadata_cases (a : article) (tm : option trafilatura_document)
  (cs : string) (success : bool) (s : state) :
  build_metadata w a tm cs success s = (Raises, s) \/
  exists md, build_metadata w a tm cs success s = (Returns md, s) /\
             md_trafilatura_success md = success.
Proof.
  unfold build_metadata, raise, ret.
  destruct (py_or (meta_get tm doc_description None) (content a)); eauto.
Qed.

Lemma finish_record_result (a : article) (tm : option trafilatura_document)
  (cs fc : string) (success : bool) (s : state) :
  body_result w a s (finish_record w a tm cs fc success s).
Proof.
  unfold finish_record, bind.
  destruct (build_metadata_cases a tm cs success s) as [E|[md [E Hmd]]];
    rewrite E.
  - constructor.
  - unfold db_mark_as_processed, ret. now constructor.
Qed.

Lemma fallback_record_result (a : article) (tm : option trafilatura_document)
  (s : state) :
  body_result w a s (fallback_record w a tm s).
Proof.
  unfold fallback_record.
  destruct (py_or (content a) (title a)) as [fc|]; [|constructor].
  destruct (fc =? ""); [constructor|]. apply finish_record_result.
Qed.

Lemma extract_body_result (a : article) (s : state) :
  body_result w a s (extract_body w a s).
Proof.
  unfold extract_body, bind.
  pose proof (try_trafilatura_state (url a) s) as Hs.
  destruct (try_trafilatura w (url a) s) as [[[tc tm]|] s']; simpl in Hs; subst s'.
  - destruct tc as [fc|]; [|apply fallback_record_result].
    destruct (fc =? ""); [apply fallback_record_result|apply finish_record_result].
  - constructor.
Qed.

Lemma extract_cases (a : article) (s : state) :
  extract_result w a s (extract_and_format_enhanced w a s).
Proof.
  unfold extract_and_format_enhanced.
  destruct (url a =? ""); [constructor|].
  unfold try_except.
  destruct (extract_body_result a s); try (now constructor).
Qed.

End Extraction.

(** ** How the table changes over a run *)

Section Evolution.

Import NewsDatabase.

Lemma evolves_refl (d : store) : evolves d d.
Proof. unfold evolves. auto. Qed.

Lemma evolves_trans (d1 d2 d3 : store) :
  evolves d1 d2 -> evolves d2 d3 -> evolves d1 d3.
Proof.
  unfold evolves. intros H12 H23 Hwf.
  destruct (H12 Hwf) as [Hwf2 [Hk2 Hr2]].
  destruct (H23 Hwf2) as [Hwf3 [Hk3 Hr3]].
  repeat split; auto.
Qed.

Lemma new_row_ok (u : string) (r : searx_result) : row_ok (new_row u r).
Proof. unfold row_ok. simpl. repeat split; try discriminate; tauto. Qed.

Lemma evolves_insert (f : sql_fault) (r : searx_result) (d : store) :
  evolves d (snd (insert_searxng_result f r d)).
Proof.
  intro Hwf. split; [now apply insert_wf|]. split.
  - intros b Hb _. now apply insert_keeps.
  - intro Hok.
    destruct (insert_cases f r d) as [H|[u [_ [_ [_ [_ H]]]]]]; rewrite H; simpl; auto.
    apply Forall_app. split; auto. constructor; auto. apply new_row_ok.
Qed.

Lemma update_row_ok u success ec em a :
  engine_mark success ec em -> row_ok a -> row_ok (update_row u success ec em a).
Proof.
  intros [H1 H2] Ha. unfold update_row.
  destruct (url a =? u); auto.
  unfold row_ok. simpl. repeat split; auto; discriminate.
Qed.

Lemma evolves_mark f u success ec em d :
  engine_mark success ec em ->
  (forall b, In b d -> url b = u -> processed b = false) ->
  evolves d (mark_as_processed f u success ec em d).
Proof.
  intros Hm Hun Hwf. split; [now apply mark_wf|]. split.
  - intros b Hb Hp. apply mark_keeps_other; auto.
    intro E. specialize (Hun b Hb E). congruence.
  - intro Hok. destruct f; simpl; auto.
    rewrite Forall_forall in *. intros x Hx.
    apply in_map_iff in Hx. destruct Hx as [a [<- Ha]].
    apply update_row_ok; auto.
Qed.

Lemma wf_same_url (d : store) (a b : article) :
  wf_store d -> In a d -> In b d -> url a = url b -> a = b.
Proof.
  unfold wf_store. induction d as [|x d IH]; simpl; [tauto|].
  intros Hnd Ha Hb E. inversion Hnd as [|y l Hnot Hnd']; subst.
  destruct Ha as [Ha|Ha], Hb as [Hb|Hb]; subst; auto.
  - exfalso. apply Hnot. rewrite E. now apply in_map.
  - exfalso. apply Hnot. rewrite <- E. now apply in_map.
Qed.

Lemma unprocessed_in (limit : option Z) (d : store) (a : article) :
  In a (unprocessed_rows limit d) -> In a d /\ processed a = false.
Proof.
  assert (Hf : forall x, In x (filter (fun a => negb (processed a)) d) ->
                         In x d /\ processed x = false).
  { intros x Hx. apply filter_In in Hx. destruct Hx as [Hx Hp].
    split; auto. now destruct (processed x). }
  unfold unprocessed_rows, sql_limit.
  destruct limit as [n|]; auto.
  destruct (n =? 0)%Z; auto.
  destruct (n <? 0)%Z; auto.
  intro H. apply Hf.
  rewrite <- (firstn_skipn (Z.to_nat n)). apply in_or_app. now left.
Qed.

Lemma NoDup_urls_filter (p : article -> bool) (d : store) :
  NoDup (map url d) -> NoDup (map url (filter p d)).
Proof.
  induction d as [|a d IH]; simpl; auto.
  intro Hnd. inversion Hnd as [|x l Hnot Hnd']; subst.
  destruct (p a); simpl; auto.
  constructor; auto.
  intro Hin. apply Hnot.
  apply in_map_iff in Hin. destruct Hin as [b [E Hb]].
  apply filter_In in Hb. rewrite <- E. apply in_map. tauto.
Qed.

Lemma NoDup_urls_firstn (n : nat) (d : store) :
  NoDup (map url d) -> NoDup (map url (firstn n d)).
Proof.
  intro Hnd. rewrite <- (firstn_skipn n d), map_app in Hnd.
  now apply NoDup_app_remove_r in Hnd.
Qed.

Lemma unprocessed_NoDup (limit : option Z) (d : store) :
  wf_store d -> NoDup (map url (unprocessed_rows limit d)).
Proof.
  unfold wf_store, unprocessed_rows, sql_limit. intro Hwf.
  pose proof (NoDup_urls_filter (fun a => negb (processed a)) d Hwf) as Hf.
  destruct limit as [n|]; auto.
  destruct (n =? 0)%Z; auto.
  destruct (n <? 0)%Z; auto.
  now apply NoDup_urls_firstn.
Qed.

End Evolution.

(** ** The phases of a run *)

Section Phases.

Import NewsDatabase.

Variable w : world.

Lemma extract_evolves (a : article) (s : state) :
  (forall b, In b (db s) -> url b = url a -> processed b = false) ->
  evolves (db s) (db (snd (extract_and_format_enhanced w a s))).
Proof.
  intro Hun.
  destruct (extract_cases w a s) as [| |success fc md Hmd]; simpl.
  - apply evolves_refl.
  - apply evolves_mark; auto. split; [tauto|discriminate].
  - apply evolves_mark; auto. split.
    + destruct success; tauto.
    + intros md' E. injection E as <-. exact Hmd.
Qed.

Lemma extract_keeps_other (a b : article) (s : state) :
  In b (db s) -> url b <> url a ->
  In b (db (snd (extract_and_format_enhanced w a s))).
Proof.
  intros Hb Hne.
  destruct (extract_cases w a s); simpl; auto using mark_keeps_other.
Qed.

Lemma extract_returns (a : article) (s : state) :
  exists r, fst (extract_and_format_enhanced w a s) = Returns r.
Proof. destruct (extract_cases w a s); simpl; eauto. Qed.

Lemma process_articles_evolves (articles : list article) :
  forall (recs : list extracted_record) (s : state),
    wf_store (db s) ->
    NoDup (map url articles) ->
    (forall a, In a articles -> In a (db s) /\ processed a = false) ->
    evolves (db s) (db (snd (process_articles w articles recs s))).
Proof.
  induction articles as [|a rest IH]; intros recs s Hwf Hnd Hin; simpl.
  - apply evolves_refl.
  - destruct (title a); [|apply evolves_refl].
    inversion Hnd as [|x l Hnot Hnd']; subst.
    assert (Hev : evolves (db s) (db (snd (extract_and_format_enhanced w a s)))).
    { apply extract_evolves. intros b Hb E.
      destruct (Hin a (or_introl eq_refl)) as [Ha Hp].
      now rewrite (wf_same_url (db s) b a Hwf Hb Ha E). }
    assert (Hrest : forall a', In a' rest ->
              In a' (db (snd (extract_and_format_enhanced w a s))) /\
              processed a' = false).
    { intros a' Ha'. destruct (Hin a' (or_intror Ha')) as [Hd Hp].
      split; auto. apply extract_keeps_other; auto.
      intro E. apply Hnot. rewrite <- E. now apply in_map. }
    unfold bind.
    destruct (extract_and_format_enhanced w a s) as [[r|] s1]; simpl in *; auto.
    eapply evolves_trans; [exact Hev|].
    apply IH; auto. now apply Hev.
Qed.

Lemma process_stored_articles_evolves (limit : option Z) (s : state) :
  evolves (db s) (db (snd (process_stored_articles w limit s))).
Proof.
  destruct (process_stored_cases w limit s) as [[_ E]|[_ E]]; rewrite E.
  - apply evolves_refl.
  - intro Hwf. apply process_articles_evolves; auto.
    + now apply unprocessed_NoDup.
    + intros a. apply unprocessed_in.
Qed.

Lemma insert_items_result (items : list searx_result) :
  forall (count : Z) (s : state),
    exists n d', insert_items w items count s = (Returns n, set_db d' s) /\
                 evolves (db s) d'.
Proof.
  induction items as [|item rest IH]; intros count s; simpl.
  - exists count, (db s). split; [now destruct s|apply evolves_refl].
  - unfold bind, db_insert_searxng_result.
    pose proof (evolves_insert (insert_fault w item) item (db s)) as Hev.
    destruct (insert_searxng_result (insert_fault w item) item (db s))
      as [is_new d1]; simpl in Hev.
    destruct (IH (if is_new then count + 1 else count)%Z (set_db d1 s))
      as [n [d' [E Hev']]].
    exists n, d'. rewrite E. split; auto.
    simpl in Hev'. eapply evolves_trans; eauto.
Qed.

Lemma collect_pages_result (topic searx_url : string) (time_range : pytext)
  (pages : list Z) :
  forall (total : Z) (s : state),
    exists n d',
      collect_pages w topic searx_url time_range pages total s
      = (Returns n, set_db d' s) /\
      evolves (db s) d'.
Proof.
  assert (Hid : forall (total : Z) (s : state),
            exists n d', (Returns total, s) = (Returns n, set_db d' s) /\
                         evolves (db s) d').
  { intros total s. exists total, (db s). split; [now destruct s|apply evolves_refl]. }
  induction pages as [|page rest IH]; intros total s; cbn [collect_pages];
    [apply Hid|].
  destruct (get_searxng_news w topic searx_url time_range page) as [|i items];
    [apply Hid|].
  unfold bind.
  destruct (insert_items_result (i :: items) 0%Z s) as [n1 [d1 [E1 Hev1]]].
  rewrite E1.
  destruct (IH (total + n1)%Z (set_db d1 s)) as [n [d' [E Hev]]].
  exists n, d'. rewrite E. split; auto.
  simpl in Hev. eapply evolves_trans; eauto.
Qed.

Lemma embed_documents_db (texts : list string) :
  forall s, db (snd (embed_documents w texts s)) = db s /\
            documents (snd (embed_documents w texts s)) = documents s.
Proof.
  induction texts as [|t rest IH]; intro s; simpl; auto.
  unfold bind. destruct (get_embedding w t); simpl; auto.
  match goal with
  | |- context [embed_documents w rest ?s1] =>
      destruct (IH s1) as [H1 H2];
      destruct (embed_documents w rest s1) as [[vs|] s2]; simpl in *; auto
  end.
Qed.

Lemma insert_documents_db (rows : list document_row) (s : state) :
  db (snd (insert_documents w rows s)) = db s.
Proof. unfold insert_documents. now destruct (supabase_insert w rows). Qed.

Lemma upload_db (records : list extracted_record) (s : state) :
  db (snd (process_and_upload_json_records w records s)) = db s.
Proof.
  unfold process_and_upload_json_records.
  destruct records; auto.
  destruct (create_clients w); auto.
  destruct (batch_of w (e :: records)) as [|p batch]; auto.
  unfold try_except, bind.
  destruct (embed_documents_db (map fst (p :: batch)) s) as [H1 _].
  destruct (embed_documents w (map fst (p :: batch)) s) as [[vs|] s1];
    cbn [fst snd] in *; auto.
  pose proof (insert_documents_db (rows_of (p :: batch) vs) s1) as H2.
  destruct (insert_documents w (rows_of (p :: batch) vs) s1) as [[[]|] s2];
    cbn [fst snd ret] in *; congruence.
Qed.

Lemma run_complete_pipeline_evolves (topic searx_url : string) (max_pages : Z)
  (time_range : pytext) (process_limit : option Z) (s : state) :
  evolves (db s)
    (db (snd (run_complete_pipeline w topic searx_url max_pages time_range
                process_limit s))).
Proof.
  unfold run_complete_pipeline, collect_searxng_articles, bind.
  destruct (collect_pages_result topic searx_url time_range
              (page_range max_pages) 0%Z s) as [n [d1 [E1 Hev1]]].
  rewrite E1.
  pose proof (process_stored_articles_evolves process_limit (set_db d1 s)) as Hev2.
  simpl in Hev2.
  destruct (process_stored_articles w process_limit (set_db d1 s))
    as [[recs|] s2]; cbn [fst snd] in *.
  - eapply evolves_trans; [exact Hev1|].
    eapply evolves_trans; [exact Hev2|].
    destruct recs as [|r recs]; [apply evolves_refl|].
    rewrite upload_db. apply evolves_refl.
  - eapply evolves_trans; eauto.
Qed.

End Phases.

Lemma run_topics_evolves (runs : list run) :
  forall s, evolves (db s) (db (snd (run_topics runs s))).
Proof.
  induction runs as [|r rest IH]; intro s; simpl.
  - apply evolves_refl.
  - unfold bind, try_except.
    pose proof (run_complete_pipeline_evolves (run_world r) (run_topic r)
                  (run_searx_url r) (run_max_pages r) (run_time_range r)
                  (run_process_limit r) s) as Hev.
    destruct (run_complete_pipeline (run_world r) (run_topic r)
                (run_searx_url r) (run_max_pages r) (run_time_range r)
                (run_process_limit r) s) as [[[]|] s1]; simpl in *;
      (eapply evolves_trans; [exact Hev|apply IH]).
Qed.

(** ** Invariants of the stored rows *)

Section Invariants.

Import NewsDatabase.

Lemma scenario_run_result :
  run_topics [scenario_run] initial_state =
  (Returns tt, {| db := [fallback_row]; documents := []; embed_calls := [] |}).
Proof. vm_compute. reflexivity. Qed.

(** C3 fails as stated: after the snippet fallback the row has
    [trafilatura_success = 0] and its [extracted_metadata] is populated. *)
Lemma fallback_metadata_counterexample :
  let s := snd (run_topics [scenario_run] initial_state) in
  map (fun a => (processed a, trafilatura_success a)) (db s) = [(true, false)] /\
  map extracted_content (db s) = [None] /\
  map extracted_metadata (db s) = [Some fallback_metadata].
Proof. vm_compute. repeat split. Qed.

Lemma record_marks_row (w : world) (a : article) (s : state)
  (r : extracted_record) :
  In a (db s) ->
  update_fault w (url a) = NoFault ->
  fst (extract_and_format_enhanced w a s) = Returns (Some r) ->
  let success := md_trafilatura_success (rec_metadata r) in
  exists a',
    In a' (db (snd (extract_and_format_enhanced w a s))) /\
    marked_row (url a) success
      (if success then Some (page_content r) else None)
      (Some (rec_metadata r)) a a'.
Proof.
  intros Hin Hfault Hr.
  destruct (extract_cases w a s) as [| |success fc md Hmd];
    simpl in Hr; try discriminate.
  injection Hr as <-. simpl. rewrite Hmd, Hfault. simpl.
  exists (update_row (url a) success (if success then Some fc else None)
            (Some md) a).
  split; [now apply in_map|apply update_row_marked].
Qed.

(** C3, amended. In every table reached from the empty one by pipeline runs:
    [extracted_content] is populated only in a row whose extraction
    succeeded; a row whose extraction succeeded is processed; an unprocessed
    row has [extracted_content] and [extracted_metadata] unset; and a
    populated [extracted_metadata] records the row's success flag. Whenever
    the extraction of a stored article returns a record (and the UPDATE does
    not fail), the article's row gets the record's metadata as
    [extracted_metadata], on success and on the snippet fallback alike, and
    gets the record's content as [extracted_content] on success only. *)
Theorem extracted_fields_invariant :
  (forall (runs : list run) (a : article),
     In a (db (snd (run_topics runs initial_state))) ->
     (extracted_content a <> None -> trafilatura_success a = true) /\
     (trafilatura_success a = true -> processed a = true) /\
     (processed a = false ->
        extracted_content a = None /\ extracted_metadata a = None) /\
     (forall md, extracted_metadata a = Some md ->
        md_trafilatura_success md = trafilatura_success a)) /\
  (forall (w : world) (a : article) (s : state) (r : extracted_record),
     In a (db s) ->
     update_fault w (url a) = NoFault ->
     fst (extract_and_format_enhanced w a s) = Returns (Some r) ->
     let success := md_trafilatura_success (rec_metadata r) in
     exists a',
       In a' (db (snd (extract_and_format_enhanced w a s))) /\
       marked_row (url a) success
         (if success then Some (page_content r) else None)
         (Some (rec_metadata r)) a a').
Proof.
  split.
  - intros runs a Hin.
    destruct (run_topics_evolves runs initial_state) as [_ [_ Hok]].
    { constructor. }
    specialize (Hok (Forall_nil _)).
    rewrite Forall_forall in Hok. exact (Hok a Hin).
  - exact record_marks_row.
Qed.

Lemma extracted_fields_invariant_witness :
  ((extracted_content fallback_row <> None ->
      trafilatura_success fallback_row = true) /\
   (trafilatura_success fallback_row = true -> processed fallback_row = true) /\
   (processed fallback_row = false ->
      extracted_content fallback_row = None /\
      extracted_metadata fallback_row = None) /\
   (forall md, extracted_metadata fallback_row = Some md ->
      md_trafilatura_success md = trafilatura_success fallback_row)) /\
  (exists a',
     In a' (db (snd (extract_and_format_enhanced scenario_world stored_example
                       stored_example_state))) /\
     marked_row (url stored_example) false None (Some fallback_metadata)
       stored_example a').
Proof.
  split.
  - apply (proj1 extracted_fields_invariant [scenario_run] fallback_row).
    vm_compute. left. reflexivity.
  - apply (proj2 extracted_fields_invariant scenario_world stored_example
             stored_example_state
             {| rec_id := "https://a.test/1";
                page_content := "snippet text";
                rec_metadata := fallback_metadata |}).
    + simpl. left. reflexivity.
    + reflexivity.
    + reflexivity.
Defined.

(** C5. A row that is processed is not among the rows the extraction phase
    reads, and after a pipeline run, or any sequence of runs with whatever
    collaborators, it is still in the table exactly as it was, and it is the
    only row of its url. *)
Theorem processed_rows_never_altered (s : state) (a : article) :
  wf_store (db s) -> In a (db s) -> processed a = true ->
  (forall limit rows,
     get_unprocessed_articles limit (db s) = Returns rows -> ~ In a rows) /\
  (forall w topic searx_url max_pages time_range process_limit,
     let s' := snd (run_complete_pipeline w topic searx_url max_pages
                      time_range process_limit s) in
     In a (db s') /\ url_count (url a) (db s') = 1%nat) /\
  (forall runs,
     let s' := snd (run_topics runs s) in
     In a (db s') /\ url_count (url a) (db s') = 1%nat).
Proof.
  intros Hwf Hin Hp. split; [|split].
  - intros limit rows E H. apply listing_returns in E. subst rows.
    apply unprocessed_in in H. destruct H as [_ H]. congruence.
  - intros w topic searx_url max_pages time_range process_limit s'.
    destruct (run_complete_pipeline_evolves w topic searx_url max_pages
                time_range process_limit s Hwf) as [Hwf' [Hkeep _]].
    split; [now apply Hkeep|].
    apply url_count_unique; auto. apply in_map. now apply Hkeep.
  - intros runs s'.
    destruct (run_topics_evolves runs s Hwf) as [Hwf' [Hkeep _]].
    split; [now apply Hkeep|].
    apply url_count_unique; auto. apply in_map. now apply Hkeep.
Qed.

Lemma processed_rows_never_altered_witness :
  let s := {| db := [processed_example]; documents := []; embed_calls := [] |} in
  let a := processed_example in
  (forall limit rows,
     NewsDatabase.get_unprocessed_articles limit (db s) = Returns rows ->
     ~ In a rows) /\
  (forall w topic searx_url max_pages time_range process_limit,
     let s' := snd (run_complete_pipeline w topic searx_url max_pages
                      time_range process_limit s) in
     In a (db s') /\ url_count (url a) (db s') = 1%nat) /\
  (forall runs,
     let s' := snd (run_topics runs s) in
     In a (db s') /\ url_count (url a) (db s') = 1%nat).
Proof.
  apply (processed_rows_never_altered
           {| db := [processed_example]; documents := []; embed_calls := [] |}
           processed_example).
  - repeat constructor. simpl. tauto.
  - simpl. left. reflexivity.
  - reflexivity.
Defined.

End Invariants.

(** ** Fallback and failure of the extraction *)

Section Fallback.

Import NewsDatabase.

Variable w : world.

Lemma fetch_fails_both (u : string) :
  fetch_url w u false = Returns None -> fetch_url w u true = Returns None ->
  fetch_with_strategy w u = None.
Proof. unfold fetch_with_strategy. now intros -> ->. Qed.

Lemma fetch_exception_absorbed (u : string) :
  fetch_url w u false = Raises -> fetch_with_strategy w u = None.
Proof. unfold fetch_with_strategy. now intros ->. Qed.

Lemma try_trafilatura_fetch_failed (u : string) (s : state) :
  truthy (fetch_with_strategy w u) = false ->
  try_trafilatura w u s = (Returns (None, None), s).
Proof.
  unfold try_trafilatura, truthy.
  destruct (fetch_with_strategy w u) as [d|]; auto.
  destruct (d =? ""); simpl; auto. discriminate.
Qed.

Lemma truthy_false_cases (v : pytext) :
  truthy v = false -> v = None \/ v = Some "".
Proof.
  destruct v as [x|]; simpl; auto.
  destruct (x =? "") eqn:E; [|discriminate].
  apply String.eqb_eq in E. subst. auto.
Qed.

Lemma truthy_true_cases (v : pytext) :
  truthy v = true -> exists x, v = Some x /\ (x =? "") = false.
Proof.
  destruct v as [x|]; simpl; [|discriminate].
  destruct (x =? "") eqn:E; [discriminate|].
  intros _. exists x. auto.
Qed.

(** C8. When the fetch gives nothing usable and the stored snippet and title
    are both empty (or NULL), [extract_and_format_enhanced] returns [None]
    and writes nothing; an unprocessed article is then still among the
    unprocessed articles read by the next run. *)
Theorem empty_fallback_returns_none (a : article) (s : state) :
  truthy (fetch_with_strategy w (url a)) = false ->
  truthy (content a) = false ->
  truthy (title a) = false ->
  extract_and_format_enhanced w a s = (Returns None, s) /\
  (In a (db s) -> processed a = false ->
   exists rows,
     get_unprocessed_articles None
       (db (snd (extract_and_format_enhanced w a s))) = Returns rows /\
     In a rows).
Proof.
  intros Hfetch Hcontent Htitle.
  assert (E : extract_and_format_enhanced w a s = (Returns None, s)).
  { unfold extract_and_format_enhanced.
    destruct (url a =? ""); [reflexivity|].
    unfold try_except, extract_body, bind.
    rewrite (try_trafilatura_fetch_failed _ _ Hfetch).
    unfold fallback_record, py_or. rewrite Hcontent.
    destruct (truthy_false_cases _ Htitle) as [-> | ->]; reflexivity. }
  split; [exact E|].
  intros Hin Hp. rewrite E. simpl.
  eexists. split; [reflexivity|].
  apply filter_In. split; auto. now rewrite Hp.
Qed.

End Fallback.

Lemma empty_fallback_returns_none_witness :
  extract_and_format_enhanced nothing_fetched_world empty_article
    empty_article_state = (Returns None, empty_article_state) /\
  (In empty_article (db empty_article_state) ->
   processed empty_article = false ->
   exists rows,
     NewsDatabase.get_unprocessed_articles None
       (db (snd (extract_and_format_enhanced nothing_fetched_world
                   empty_article empty_article_state))) = Returns rows /\
     In empty_article rows).
Proof.
  apply (empty_fallback_returns_none nothing_fetched_world empty_article
           empty_article_state); reflexivity.
Defined.

Section FallbackRecord.

Import NewsDatabase.

Variable w : world.

(** C4 fails as stated: with an empty snippet and an empty title no record
    is returned and the article is not marked. *)
Lemma fallback_without_content_counterexample :
  fetch_url nothing_fetched_world (url empty_article) false = Returns None /\
  fetch_url nothing_fetched_world (url empty_article) true = Returns None /\
  content empty_article = Some "" /\
  title empty_article = Some "" /\
  extract_and_format_enhanced nothing_fetched_world empty_article
    empty_article_state = (Returns None, empty_article_state) /\
  map processed (db empty_article_state) = [false].
Proof. vm_compute. repeat split. Qed.

(** C4, amended. For a stored article whose download returns [None] on the
    standard and on the no-SSL attempt, whose snippet is a string, and whose
    snippet or title is not empty: [extract_and_format_enhanced] returns a
    record whose content is the snippet, or the title when the snippet is
    empty, and (when the UPDATE does not fail) the article's row becomes
    processed with [trafilatura_success = 0], no [extracted_content], and
    the record's metadata as [extracted_metadata]. *)
Theorem fallback_uses_snippet_or_title (a : article) (s : state)
  (snippet : string) :
  fetch_url w (url a) false = Returns None ->
  fetch_url w (url a) true = Returns None ->
  url a <> "" ->
  In a (db s) ->
  update_fault w (url a) = NoFault ->
  content a = Some snippet ->
  truthy (py_or (content a) (title a)) = true ->
  exists r a',
    fst (extract_and_format_enhanced w a s) = Returns (Some r) /\
    rec_id r = url a /\
    Some (page_content r) = (if snippet =? "" then title a else Some snippet) /\
    md_content_source (rec_metadata r) = "searxng_fallback" /\
    md_trafilatura_success (rec_metadata r) = false /\
    In a' (db (snd (extract_and_format_enhanced w a s))) /\
    marked_row (url a) false None (Some (rec_metadata r)) a a'.
Proof.
  intros Hf1 Hf2 Hu Hin Hfault Hc Hsome.
  pose proof (fetch_fails_both w _ Hf1 Hf2) as Hfetch.
  destruct (truthy_true_cases _ Hsome) as [fc [Hfc Hne]].
  unfold extract_and_format_enhanced.
  rewrite (string_eqb_false _ _ Hu).
  unfold try_except, extract_body, bind.
  rewrite try_trafilatura_fetch_failed by now rewrite Hfetch.
  unfold fallback_record. rewrite Hfc, Hne.
  unfold finish_record, bind, build_metadata. simpl meta_get.
  unfold py_or at 1. simpl truthy. rewrite Hc.
  unfold ret, db_mark_as_processed. rewrite Hfault.
  do 2 eexists.
  cbn [fst snd rec_id page_content rec_metadata md_content_source
       md_trafilatura_success db set_db].
  split; [reflexivity|]. split; [reflexivity|]. split.
  { revert Hfc. unfold py_or. rewrite Hc. simpl.
    destruct (snippet =? ""); simpl; congruence. }
  split; [reflexivity|]. split; [reflexivity|]. split.
  { simpl. apply in_map. exact Hin. }
  apply update_row_marked.
Qed.

End FallbackRecord.

Lemma fallback_uses_snippet_or_title_witness :
  exists r a',
    fst (extract_and_format_enhanced scenario_world stored_example
           stored_example_state) = Returns (Some r) /\
    rec_id r = url stored_example /\
    Some (page_content r) =
      (if "snippet text" =? "" then title stored_example
       else Some "snippet text") /\
    md_content_source (rec_metadata r) = "searxng_fallback" /\
    md_trafilatura_success (rec_metadata r) = false /\
    In a' (db (snd (extract_and_format_enhanced scenario_world stored_example
                      stored_example_state))) /\
    marked_row (url stored_example) false None (Some (rec_metadata r))
      stored_example a'.
Proof.
  apply (fallback_uses_snippet_or_title scenario_world stored_example
           stored_example_state "snippet text").
  - reflexivity.
  - reflexivity.
  - discriminate.
  - simpl. left. reflexivity.
  - reflexivity.
  - reflexivity.
  - reflexivity.
Defined.

(** ** Exceptions inside the extraction *)

Section TryBlock.

Import NewsDatabase.

(** C10 fails as stated for an exception during the fetch: it is caught
    inside [fetch_with_strategy], the snippet fallback runs, a record is
    returned and [extracted_metadata] is written. *)
Lemma fetch_exception_counterexample :
  fetch_url fetch_raises_world (url stored_example) false = Raises /\
  extract_and_format_enhanced fetch_raises_world stored_example
    stored_example_state =
  (Returns (Some {| rec_id := "https://a.test/1";
                    page_content := "snippet text";
                    rec_metadata := fallback_metadata |}),
   {| db := [fallback_row]; documents := []; embed_calls := [] |}) /\
  extracted_metadata fallback_row <> None.
Proof. vm_compute. repeat split. discriminate. Qed.

Variable w : world.

Lemma try_trafilatura_cases (u : string) (s : state) :
  (parse_raises w u /\ try_trafilatura w u s = (Raises, s)) \/
  (~ parse_raises w u /\
   exists tc tm, try_trafilatura w u s = (Returns (tc, tm), s)).
Proof.
  unfold parse_raises, try_trafilatura.
  destruct (fetch_with_strategy w u) as [d|].
  2:{ right. split; [intros [d [H _]]; discriminate|]. eexists _, _. reflexivity. }
  destruct (d =? "") eqn:Hempty.
  { right. apply String.eqb_eq in Hempty. split.
    - intros [d' [H [Hne _]]]. inversion H; subst. tauto.
    - eexists _, _. reflexivity. }
  apply String.eqb_neq in Hempty.
  unfold bind, call, ret.
  destruct (trafilatura_extract w d) as [tc|] eqn:Htc.
  2:{ left. split; auto. exists d. auto. }
  destruct (extract_metadata w d) as [tm|] eqn:Htm.
  2:{ left. split; auto. exists d. auto. }
  right. split.
  - intros [d' [H [_ [H1|H1]]]]; inversion H; subst; congruence.
  - eexists _, _. reflexivity.
Qed.

(** The exceptions that reach the handler: the text extraction or the
    metadata extraction raises on a downloaded page, or no description is a
    string when the metadata are built. *)
Lemma extract_body_raises (a : article) (s : state) :
  fst (extract_body w a s) = Raises <->
  parse_raises w (url a) \/
  (exists tc tm, try_trafilatura w (url a) s = (Returns (tc, tm), s) /\
                 (truthy tc = true \/
                  truthy (py_or (content a) (title a)) = true) /\
                 py_or (meta_get tm doc_description None) (content a) = None).
Proof.
  assert (Hfin : forall tm cs fc b,
            fst (finish_record w a tm cs fc b s) = Raises <->
            py_or (meta_get tm doc_description None) (content a) = None).
  { intros tm cs fc b. unfold finish_record, bind, build_metadata.
    destruct (py_or (meta_get tm doc_description None) (content a));
      simpl; split; congruence. }
  assert (Hfb : forall tm,
            fst (fallback_record w a tm s) = Raises <->
            truthy (py_or (content a) (title a)) = true /\
            py_or (meta_get tm doc_description None) (content a) = None).
  { intro tm. unfold fallback_record.
    destruct (py_or (content a) (title a)) as [fc|]; simpl;
      [|split; [discriminate|intros [? _]; discriminate]].
    destruct (fc =? ""); simpl.
    - split; [discriminate|intros [? _]; discriminate].
    - rewrite Hfin. tauto. }
  unfold extract_body, bind.
  destruct (try_trafilatura_cases (url a) s) as [[Hp E]|[Hnp [tc [tm E]]]];
    rewrite E.
  - simpl. split; auto.
  - assert (Hcase :
              fst (match tc with
                   | Some final_content =>
                       if final_content =? ""
                       then fallback_record w a tm
                       else finish_record w a tm "trafilatura" final_content true
                   | None => fallback_record w a tm
                   end s) = Raises <->
              (truthy tc = true \/
               truthy (py_or (content a) (title a)) = true) /\
              py_or (meta_get tm doc_description None) (content a) = None).
    { destruct tc as [fc|]; simpl.
      - destruct (fc =? ""); simpl.
        + rewrite Hfb. intuition discriminate.
        + rewrite Hfin. intuition.
      - rewrite Hfb. intuition discriminate. }
    rewrite Hcase. split.
    + intros [H1 H2]. right. exists tc, tm. auto.
    + intros [H|[tc' [tm' [E' [H1 H2]]]]]; [tauto|].
      inversion E'; subst. auto.
Qed.

(** C10, amended. When an exception is raised inside the [try] block of
    [extract_and_format_enhanced] for a stored article (by the text or
    metadata extraction, or while the metadata are built; an exception of
    the download never gets there), the function returns [None] and, when
    the UPDATE does not fail, the article's row becomes processed with
    [trafilatura_success = 0] and with [extracted_content] and
    [extracted_metadata] unset; no later run reads the article again. *)
Theorem exception_in_try_marks_failed (a : article) (s : state) :
  url a <> "" ->
  In a (db s) ->
  update_fault w (url a) = NoFault ->
  fst (extract_body w a s) = Raises ->
  let s' := snd (extract_and_format_enhanced w a s) in
  fst (extract_and_format_enhanced w a s) = Returns None /\
  Forall2 (marked_row (url a) false None None) (db s) (db s') /\
  (exists a', In a' (db s') /\ marked_row (url a) false None None a a') /\
  (forall limit rows b,
     get_unprocessed_articles limit (db s') = Returns rows ->
     In b rows -> url b <> url a).
Proof.
  intros Hu Hin Hfault Hraise s'.
  assert (E : extract_and_format_enhanced w a s =
              (Returns None,
               set_db (map (update_row (url a) false None None) (db s)) s)).
  { unfold extract_and_format_enhanced.
    rewrite (string_eqb_false _ _ Hu). unfold try_except.
    pose proof (extract_body_result w a s) as Hb.
    destruct (extract_body w a s) as [o sb]. simpl in Hraise. subst o.
    inversion Hb; subst.
    unfold bind, db_mark_as_processed, ret. now rewrite Hfault. }
  subst s'. rewrite E. cbn [fst snd db set_db].
  split; [reflexivity|]. split; [|split].
  - apply Forall2_map_self. intro x. apply update_row_marked.
  - exists (update_row (url a) false None None a).
    split; [now apply in_map|apply update_row_marked].
  - intros limit rows b El Hb Eurl.
    apply listing_returns in El. subst rows.
    apply unprocessed_in in Hb. destruct Hb as [Hb Hp].
    apply in_map_iff in Hb. destruct Hb as [x [Hx _]].
    subst b. rewrite update_row_url in Eurl.
    unfold update_row in Hp. apply String.eqb_eq in Eurl.
    rewrite Eurl in Hp. simpl in Hp. discriminate.
Qed.

End TryBlock.

Lemma exception_in_try_marks_failed_witness :
  let s' := snd (extract_and_format_enhanced parse_raises_world stored_example
                   stored_example_state) in
  fst (extract_and_format_enhanced parse_raises_world stored_example
         stored_example_state) = Returns None /\
  Forall2 (marked_row (url stored_example) false None None)
    (db stored_example_state) (db s') /\
  (exists a', In a' (db s') /\
              marked_row (url stored_example) false None None stored_example a') /\
  (forall limit rows b,
     NewsDatabase.get_unprocessed_articles limit (db s') = Returns rows ->
     In b rows -> url b <> url stored_example).
Proof.
  apply (exception_in_try_marks_failed parse_raises_world stored_example
           stored_example_state).
  - discriminate.
  - simpl. left. reflexivity.
  - reflexivity.
  - reflexivity.
Defined.

(** ** The batcher *)

Section Batcher.

Variable w : world.

(** C7 fails as stated: a chunk of exactly 20 characters is not under 20
    characters and is discarded all the same. *)
Lemma chunk_of_twenty_counterexample :
  let chunk := string_repeat "A" 20 in
  long_enough (page_content two_paragraphs_record) = true /\
  In chunk (split_text paragraph_world CHUNK_SIZE CHUNK_OVERLAP
              (page_content two_paragraphs_record)) /\
  String.length (strip chunk) = 20%nat /\
  map fst (chunks_of_record paragraph_world two_paragraphs_record) =
  [string_repeat "B" 500].
Proof. vm_compute. repeat split. left. reflexivity. Qed.

(** C7, amended. A record whose body is empty, or under 50 characters once
    trimmed, yields no chunk; so does every body of exactly 49 characters.
    For any other record, the chunks kept for embedding are, in the order
    of the splitter, those of more than 20 characters once trimmed: a chunk
    of 20 characters or fewer is discarded. *)
Theorem chunk_filtering (record : extracted_record) :
  let body := page_content record in
  let pieces := split_text w CHUNK_SIZE CHUNK_OVERLAP body in
  (body = "" \/ (String.length (strip body) < 50)%nat ->
   chunks_of_record w record = []) /\
  (String.length body = 49%nat -> chunks_of_record w record = []) /\
  (body <> "" -> (50 <= String.length (strip body))%nat ->
   map fst (chunks_of_record w record) =
   filter (fun chunk => (20 <? String.length (strip chunk))%nat) pieces /\
   forall chunk,
     In chunk (map fst (chunks_of_record w record)) <->
     In chunk pieces /\ (20 < String.length (strip chunk))%nat).
Proof.
  intros body pieces.
  assert (Hshort : body = "" \/ (String.length (strip body) < 50)%nat ->
                   chunks_of_record w record = []).
  { intro H. unfold chunks_of_record, long_enough. fold body.
    destruct H as [-> | H]; [reflexivity|].
    apply Nat.ltb_lt in H. rewrite H.
    now rewrite andb_false_r. }
  split; [exact Hshort|]. split.
  - intro H. apply Hshort. right.
    pose proof (strip_length body). lia.
  - intros Hne Hlong.
    assert (E : map fst (chunks_of_record w record) =
                filter (fun chunk => (20 <? String.length (strip chunk))%nat)
                  pieces).
    { unfold chunks_of_record, long_enough. fold body.
      rewrite (string_eqb_false _ _ Hne).
      apply Nat.ltb_ge in Hlong. rewrite Hlong. simpl.
      rewrite map_map. simpl. now rewrite map_id. }
    split; [exact E|].
    intro chunk. rewrite E, filter_In, Nat.ltb_lt. tauto.
Qed.

Lemma embed_documents_failure (texts : list string) :
  forall s chunk,
    In chunk texts -> get_embedding w chunk = Raises ->
    exists calls rest,
      texts = calls ++ rest /\
      embed_documents w texts s = (Raises, add_embed_calls calls s).
Proof.
  induction texts as [|t texts IH]; intros s chunk Hin Hfail; [destruct Hin|].
  simpl. unfold bind.
  destruct (get_embedding w t) as [v|] eqn:Ht.
  - destruct Hin as [->|Hin]; [congruence|].
    destruct (IH (add_embed_calls [t] s) chunk Hin Hfail)
      as [calls [rest [E1 E2]]].
    exists (t :: calls), rest. split; [simpl; congruence|].
    fold (add_embed_calls [t] s). rewrite E2.
    unfold add_embed_calls. simpl. now rewrite <- app_assoc.
  - exists [t], texts. split; reflexivity.
Qed.

(** C6. When the embedding of some chunk of the batch raises, the upload
    returns normally, the [documents] table and the article table are as
    before, and the texts sent to the embedding model are an initial part
    of the batch, each sent once, in order: nothing is sent again. *)
Theorem embedding_failure_aborts_batch (records : list extracted_record)
  (s : state) (chunk : string) :
  In chunk (map fst (batch_of w records)) ->
  get_embedding w chunk = Raises ->
  exists calls rest,
    map fst (batch_of w records) = calls ++ rest /\
    process_and_upload_json_records w records s =
    (Returns tt,
     {| db := db s; documents := documents s;
        embed_calls := embed_calls s ++ calls |}).
Proof.
  intros Hin Hfail. unfold process_and_upload_json_records.
  destruct records as [|r records]; [destruct Hin|].
  destruct (create_clients w).
  2:{ exists [], (map fst (batch_of w (r :: records))).
      split; [reflexivity|]. unfold ret. rewrite app_nil_r. now destruct s. }
  destruct (batch_of w (r :: records)) as [|p batch] eqn:Hbatch;
    [destruct Hin|].
  destruct (embed_documents_failure _ s chunk Hin Hfail)
    as [calls [rest [E1 E2]]].
  exists calls, rest. split; [exact E1|].
  unfold try_except, bind. rewrite E2. reflexivity.
Qed.

End Batcher.

Lemma chunk_filtering_witness :
  let record := two_paragraphs_record in
  let pieces :=
    split_text paragraph_world CHUNK_SIZE CHUNK_OVERLAP (page_content record) in
  map fst (chunks_of_record paragraph_world record) =
  filter (fun chunk => (20 <? String.length (strip chunk))%nat) pieces /\
  forall chunk,
    In chunk (map fst (chunks_of_record paragraph_world record)) <->
    In chunk pieces /\ (20 < String.length (strip chunk))%nat.
Proof.
  apply (proj2 (proj2 (chunk_filtering paragraph_world two_paragraphs_record))).
  - discriminate.
  - apply Nat.leb_le. vm_compute. reflexivity.
Defined.

Lemma embedding_failure_aborts_batch_witness :
  exists calls rest,
    map fst (batch_of embedding_fails_world [two_paragraphs_record]) =
    calls ++ rest /\
    process_and_upload_json_records embedding_fails_world
      [two_paragraphs_record] initial_state =
    (Returns tt,
     {| db := db initial_state; documents := documents initial_state;
        embed_calls := embed_calls initial_state ++ calls |}).
Proof.
  apply (embedding_failure_aborts_batch embedding_fails_world
           [two_paragraphs_record] initial_state (string_repeat "B" 30)).
  - vm_compute. right. left. reflexivity.
  - reflexivity.
Defined.

(** ** The collector *)

Section Collector.

Import NewsDatabase.

Variable w : world.

Lemma insert_items_same_faults (w' : world) (items : list searx_result) :
  insert_fault w' = insert_fault w ->
  forall count s, insert_items w' items count s = insert_items w items count s.
Proof.
  intro Hf. induction items as [|item rest IH]; intros count s; simpl; auto.
  unfold bind, db_insert_searxng_result. rewrite Hf.
  destruct (insert_searxng_result (insert_fault w item) item (db s)); auto.
Qed.

Lemma collect_pages_same_news (w' : world) (topic searx_url : string)
  (time_range : pytext) (pages : list Z) :
  insert_fault w' = insert_fault w ->
  (forall page, get_searxng_news w' topic searx_url time_range page =
                get_searxng_news w topic searx_url time_range page) ->
  forall total s,
    collect_pages w' topic searx_url time_range pages total s =
    collect_pages w topic searx_url time_range pages total s.
Proof.
  intros Hf Hnews.
  induction pages as [|page rest IH]; intros total s; cbn [collect_pages]; auto.
  rewrite Hnews.
  destruct (get_searxng_news w topic searx_url time_range page) as [|i items];
    auto.
  unfold bind. rewrite (insert_items_same_faults w' (i :: items) Hf).
  destruct (insert_items w (i :: items) 0%Z s) as [[n|] s1]; auto.
Qed.

Lemma collect_pages_stops (topic searx_url : string) (time_range : pytext)
  (before : list Z) (page : Z) (after : list Z) :
  get_searxng_news w topic searx_url time_range page = [] ->
  forall total s,
    collect_pages w topic searx_url time_range (before ++ page :: after) total s =
    collect_pages w topic searx_url time_range before total s.
Proof.
  intro Hempty.
  induction before as [|p rest IH]; intros total s; cbn [collect_pages app].
  - now rewrite Hempty.
  - destruct (get_searxng_news w topic searx_url time_range p) as [|i items];
      auto.
    unfold bind.
    destruct (insert_items w (i :: items) 0%Z s) as [[n|] s1]; auto.
Qed.

Lemma page_range_split (k max_pages : Z) :
  (1 <= k <= max_pages)%Z ->
  exists after, page_range max_pages = page_range (k - 1) ++ k :: after.
Proof.
  intros [H1 H2]. unfold page_range.
  replace (Z.to_nat max_pages)
    with (Z.to_nat (k - 1) + S (Z.to_nat (max_pages - k)))%nat by lia.
  rewrite seq_app, map_app. simpl.
  exists (map Z.of_nat (seq (S (1 + Z.to_nat (k - 1))) (Z.to_nat (max_pages - k)))).
  f_equal. f_equal. lia.
Qed.

Lemma insert_appends (f : sql_fault) (r : searx_result) (d : store) :
  snd (insert_searxng_result f r d) =
  d ++ (if fst (insert_searxng_result f r d)
        then [new_row (result_url r) r] else []).
Proof.
  destruct (insert_cases f r d) as [H|[u [Hr [_ [_ [_ H]]]]]]; rewrite H; simpl.
  - now rewrite app_nil_r.
  - unfold result_url. now rewrite Hr.
Qed.

Lemma insert_false_mono (f : sql_fault) (r : searx_result) (d e : store) :
  insert_searxng_result f r d = (false, d) ->
  insert_searxng_result f r (d ++ e) = (false, d ++ e).
Proof.
  unfold insert_searxng_result.
  destruct (dict_get (sr_url r) (Some "")) as [u|]; auto.
  destruct (u =? ""); auto.
  destruct f; auto.
  destruct (has_url u d) eqn:H; [|discriminate].
  intros _. unfold has_url in *. now rewrite existsb_app, H.
Qed.

Lemma insert_settles (f : sql_fault) (r : searx_result) (d : store) :
  insert_searxng_result f r (snd (insert_searxng_result f r d)) =
  (false, snd (insert_searxng_result f r d)).
Proof.
  destruct (insert_cases f r d) as [H|[u [Hr [Hu [Hf [_ H]]]]]]; rewrite H; simpl.
  - exact H.
  - rewrite (insert_valid_url f r u _ Hr Hu), Hf.
    now rewrite has_url_new_row.
Qed.

Lemma settled_mono (items : list searx_result) (d e : store) :
  settled w items d -> settled w items (d ++ e).
Proof.
  unfold settled. rewrite !Forall_forall. intros H item Hin.
  apply insert_false_mono. auto.
Qed.

Lemma inserted_from_more (items items' : list searx_result) (a : article) :
  (forall item, In item items -> In item items') ->
  inserted_from items a -> inserted_from items' a.
Proof. intros Hsub [item [Hin E]]. exists item. auto. Qed.

Lemma insert_new_valid (f : sql_fault) (r : searx_result) (d : store) :
  fst (insert_searxng_result f r d) = true ->
  sr_url r = JStr (result_url r) /\ result_url r <> "".
Proof.
  destruct (insert_cases f r d) as [H|[u [Hr [Hu _]]]].
  - rewrite H. discriminate.
  - intros _. unfold result_url. rewrite Hr. auto.
Qed.

Lemma set_db_set_db (d1 d2 : store) (s : state) :
  set_db d2 (set_db d1 s) = set_db d2 s.
Proof. reflexivity. Qed.

Lemma set_db_same (s : state) : set_db (db s) s = s.
Proof. now destruct s. Qed.

Lemma insert_items_extends (items : list searx_result) :
  forall (count : Z) (s : state),
    exists added,
      insert_items w items count s =
      (Returns (count + Z.of_nat (length added))%Z, set_db (db s ++ added) s) /\
      settled w items (db s ++ added) /\
      Forall (inserted_from items) added.
Proof.
  induction items as [|item rest IH]; intros count s.
  - exists []. simpl. unfold ret. rewrite app_nil_r, set_db_same, Z.add_0_r.
    repeat split; constructor.
  - cbn [insert_items]. unfold bind, db_insert_searxng_result.
    pose proof (insert_appends (insert_fault w item) item (db s)) as Happ.
    pose proof (insert_settles (insert_fault w item) item (db s)) as Hset.
    pose proof (insert_new_valid (insert_fault w item) item (db s)) as Hval.
    destruct (insert_searxng_result (insert_fault w item) item (db s))
      as [is_new d1]. cbn [fst snd] in Happ, Hset, Hval.
    destruct (IH (if is_new then count + 1 else count)%Z (set_db d1 s))
      as [added2 [E [Hs Hfrom]]].
    cbn [db set_db] in E, Hs. rewrite set_db_set_db in E.
    exists ((if is_new then [new_row (result_url item) item] else []) ++ added2).
    rewrite E, Happ, <- app_assoc. split; [|split].
    + f_equal. f_equal. rewrite length_app.
      destruct is_new; simpl length; lia.
    + rewrite Happ, <- app_assoc in Hs.
      constructor; auto.
      rewrite app_assoc, <- Happ. now apply insert_false_mono.
    + apply Forall_app. split.
      * destruct is_new; constructor; [|constructor].
        destruct (Hval eq_refl) as [Hv1 Hv2].
        exists item. simpl. repeat split; auto.
      * eapply Forall_impl; [|exact Hfrom].
        intros a. apply inserted_from_more. intros x Hx. now right.
Qed.

Lemma insert_items_settled (items : list searx_result) :
  forall (count : Z) (s : state),
    settled w items (db s) ->
    insert_items w items count s = (Returns count, s).
Proof.
  induction items as [|item rest IH]; intros count s Hs; [reflexivity|].
  inversion Hs as [|x l Hitem Hrest]; subst.
  cbn [insert_items]. unfold bind, db_insert_searxng_result.
  rewrite Hitem, set_db_same. now apply IH.
Qed.

Lemma collect_pages_extends (topic searx_url : string) (time_range : pytext)
  (pages : list Z) :
  forall (total : Z) (s : state),
    exists added,
      collect_pages w topic searx_url time_range pages total s =
      (Returns (total + Z.of_nat (length added))%Z, set_db (db s ++ added) s) /\
      settled w (visited_items w topic searx_url time_range pages)
        (db s ++ added) /\
      Forall (inserted_from (visited_items w topic searx_url time_range pages))
        added.
Proof.
  assert (Hnone : forall (total : Z) (s : state),
            exists added,
              (Returns total, s) =
              (Returns (total + Z.of_nat (length added))%Z,
               set_db (db s ++ added) s) /\
              settled w [] (db s ++ added) /\
              Forall (inserted_from []) added).
  { intros total s. exists []. simpl.
    rewrite app_nil_r, set_db_same, Z.add_0_r. repeat split; constructor. }
  induction pages as [|page rest IH]; intros total s;
    cbn [collect_pages visited_items]; [apply Hnone|].
  destruct (get_searxng_news w topic searx_url time_range page) as [|i items];
    [apply Hnone|].
  unfold bind.
  destruct (insert_items_extends (i :: items) 0%Z s) as [added1 [E1 [Hs1 Hf1]]].
  rewrite E1.
  destruct (IH (total + (0 + Z.of_nat (length added1)))%Z
              (set_db (db s ++ added1) s)) as [added2 [E2 [Hs2 Hf2]]].
  cbn [db set_db] in E2, Hs2. rewrite set_db_set_db in E2.
  exists (added1 ++ added2).
  rewrite E2, <- app_assoc. rewrite <- app_assoc in Hs2. split; [|split].
  - f_equal. f_equal. rewrite length_app. lia.
  - unfold settled in *. apply Forall_app. split; auto.
    rewrite app_assoc. now apply settled_mono.
  - apply Forall_app. split.
    + eapply Forall_impl; [|exact Hf1]. intro a. apply inserted_from_more.
      intros x Hx. apply in_or_app. now left.
    + eapply Forall_impl; [|exact Hf2]. intro a. apply inserted_from_more.
      intros x Hx. apply in_or_app. now right.
Qed.

Lemma collect_pages_settled (topic searx_url : string) (time_range : pytext)
  (pages : list Z) :
  forall (total : Z) (s : state),
    settled w (visited_items w topic searx_url time_range pages) (db s) ->
    collect_pages w topic searx_url time_range pages total s =
    (Returns total, s).
Proof.
  induction pages as [|page rest IH]; intros total s;
    cbn [collect_pages visited_items]; auto.
  destruct (get_searxng_news w topic searx_url time_range page) as [|i items];
    auto.
  intro Hs. unfold settled in Hs. apply Forall_app in Hs. destruct Hs as [H1 H2].
  unfold bind. rewrite (insert_items_settled (i :: items) 0%Z s H1).
  rewrite Z.add_0_r. now apply IH.
Qed.

Lemma insert_new_fresh (f : sql_fault) (r : searx_result) (d : store) :
  fst (insert_searxng_result f r d) = true ->
  has_url (result_url r) d = false.
Proof.
  destruct (insert_cases f r d) as [H|[u [Hr [_ [_ [Hnew _]]]]]].
  - rewrite H. discriminate.
  - intros _. unfold result_url. now rewrite Hr.
Qed.

Lemma has_url_app (u : string) (d e : store) :
  has_url u (d ++ e) = has_url u d || has_url u e.
Proof. unfold has_url. apply existsb_app. Qed.

Lemma fresh_rows_app (d a1 a2 : store) :
  NoDup (map url a1) ->
  Forall (fun a => has_url (url a) d = false) a1 ->
  NoDup (map url a2) ->
  Forall (fun a => has_url (url a) (d ++ a1) = false) a2 ->
  NoDup (map url (a1 ++ a2)) /\
  Forall (fun a => has_url (url a) d = false) (a1 ++ a2).
Proof.
  intros N1 F1 N2 F2. rewrite Forall_forall in F2. split.
  - rewrite map_app. induction a1 as [|x a1 IH]; simpl; auto.
    inversion N1 as [|y l Hx N1']; subst.
    inversion F1 as [|y l Fx F1']; subst.
    constructor.
    + intro Hin. apply in_app_or in Hin. destruct Hin as [Hin|Hin]; auto.
      apply in_map_iff in Hin. destruct Hin as [b [Eb Hb]].
      specialize (F2 b Hb). rewrite has_url_app in F2.
      apply orb_false_iff in F2. destruct F2 as [_ F2].
      simpl in F2. rewrite Eb, String.eqb_refl in F2. discriminate.
    + apply IH; auto. intros b Hb. specialize (F2 b Hb).
      rewrite !has_url_app in *. simpl in F2.
      destruct (has_url (url b) d); [discriminate|].
      destruct (url x =? url b); [discriminate|]. exact F2.
  - apply Forall_app. split; auto. rewrite Forall_forall. intros b Hb.
    specialize (F2 b Hb). rewrite has_url_app in F2.
    now apply orb_false_iff in F2.
Qed.

Lemma insert_items_fresh (items : list searx_result) :
  forall (count : Z) (s : state),
    exists added,
      snd (insert_items w items count s) = set_db (db s ++ added) s /\
      NoDup (map url added) /\
      Forall (fun a => has_url (url a) (db s) = false) added.
Proof.
  induction items as [|item rest IH]; intros count s.
  - exists []. simpl. rewrite app_nil_r, set_db_same.
    repeat split; constructor.
  - cbn [insert_items]. unfold bind, db_insert_searxng_result.
    pose proof (insert_appends (insert_fault w item) item (db s)) as Happ.
    pose proof (insert_new_fresh (insert_fault w item) item (db s)) as Hnew.
    destruct (insert_searxng_result (insert_fault w item) item (db s))
      as [is_new d1]. cbn [fst snd] in Happ, Hnew.
    destruct (IH (if is_new then count + 1 else count)%Z (set_db d1 s))
      as [added2 [E [N2 F2]]].
    cbn [db set_db] in E, F2. rewrite set_db_set_db in E.
    exists ((if is_new then [new_row (result_url item) item] else []) ++ added2).
    rewrite E, Happ, <- app_assoc. split; [reflexivity|].
    rewrite Happ in F2. apply fresh_rows_app; auto.
    + destruct is_new; repeat constructor. simpl. tauto.
    + destruct is_new; repeat constructor. simpl. now apply Hnew.
Qed.

Lemma collect_pages_fresh (topic searx_url : string) (time_range : pytext)
  (pages : list Z) :
  forall (total : Z) (s : state),
    exists added,
      snd (collect_pages w topic searx_url time_range pages total s) =
        set_db (db s ++ added) s /\
      NoDup (map url added) /\
      Forall (fun a => has_url (url a) (db s) = false) added.
Proof.
  assert (Hnone : forall s : state, exists added,
            s = set_db (db s ++ added) s /\
            NoDup (map url added) /\
            Forall (fun a => has_url (url a) (db s) = false) added).
  { intro s. exists []. rewrite app_nil_r, set_db_same.
    repeat split; constructor. }
  induction pages as [|page rest IH]; intros total s;
    cbn [collect_pages]; [apply Hnone|].
  destruct (get_searxng_news w topic searx_url time_range page) as [|i items];
    [apply Hnone|].
  unfold bind.
  destruct (insert_items_fresh (i :: items) 0%Z s) as [added1 [E1 [N1 F1]]].
  destruct (insert_items_extends (i :: items) 0%Z s) as [x [Ex _]].
  rewrite Ex in *. cbn [snd] in E1. rewrite E1.
  destruct (IH (total + (0 + Z.of_nat (length x)))%Z
              (set_db (db s ++ added1) s)) as [added2 [E2 [N2 F2]]].
  cbn [db set_db] in E2, F2. rewrite set_db_set_db in E2.
  exists (added1 ++ added2). rewrite E2, <- app_assoc.
  split; [reflexivity|]. now apply fresh_rows_app.
Qed.

Lemma page_range_in (n p : Z) : In p (page_range n) <-> (1 <= p <= n)%Z.
Proof.
  unfold page_range. rewrite in_map_iff. split.
  - intros [i [<- Hi]]. apply in_seq in Hi. lia.
  - intro H. exists (Z.to_nat p). split; [lia|]. apply in_seq. lia.
Qed.

Lemma visited_items_in (topic searx_url : string) (time_range : pytext)
  (pages : list Z) (item : searx_result) :
  In item (visited_items w topic searx_url time_range pages) ->
  exists p, In p pages /\
            In item (get_searxng_news w topic searx_url time_range p).
Proof.
  induction pages as [|page rest IH]; cbn [visited_items]; [intros []|].
  destruct (get_searxng_news w topic searx_url time_range page)
    as [|i items] eqn:E; [intros []|].
  intro H. apply in_app_or in H. destruct H as [H|H].
  - exists page. rewrite E. split; [now left|exact H].
  - destruct (IH H) as [p [Hp Hi]]. exists p. split; [now right|exact Hi].
Qed.

Lemma visited_items_reached (topic searx_url : string) (time_range : pytext)
  (before : list Z) (p : Z) (after : list Z) (item : searx_result) :
  (forall q, In q before ->
     get_searxng_news w topic searx_url time_range q <> []) ->
  In item (get_searxng_news w topic searx_url time_range p) ->
  In item (visited_items w topic searx_url time_range (before ++ p :: after)).
Proof.
  intros Hfull Hitem.
  induction before as [|q rest IH]; cbn [visited_items app].
  - destruct (get_searxng_news w topic searx_url time_range p) as [|i items];
      [destruct Hitem|].
    apply (in_or_app (i :: items) _ item). now left.
  - pose proof (Hfull q (or_introl eq_refl)) as Hq.
    destruct (get_searxng_news w topic searx_url time_range q) as [|i items];
      [congruence|].
    apply (in_or_app (i :: items) _ item). right. apply IH.
    intros q' Hq'. apply Hfull. now right.
Qed.

Lemma settled_stored (items : list searx_result) (d : store)
  (item : searx_result) (u : string) :
  settled w items d -> In item items ->
  sr_url item = JStr u -> u <> "" -> insert_fault w item = NoFault ->
  has_url u d = true.
Proof.
  unfold settled. rewrite Forall_forall. intros Hs Hin Hr Hu Hf.
  specialize (Hs item Hin).
  rewrite (insert_valid_url _ item u d Hr Hu), Hf in Hs.
  destruct (has_url u d); [reflexivity|]. discriminate Hs.
Qed.

(** C9. When the request for page [k] of a topic raises,
    [get_searxng_news] returns no result for that page (and the results of
    the response for a page whose request returns), and the collector
    behaves exactly as if that page had been empty and exactly as if it had
    been asked for the pages before [k] only: the loop stops there and the
    call returns without raising. The rows of the table are kept and new
    rows are appended after them; the number returned is the number of rows
    appended; these rows have distinct urls that the table did not hold,
    and each is the row inserted for a search result of a page before [k];
    and every search result of a page before [k] that the loop reaches
    (no page before it being empty), with a non-empty url and its INSERT
    not failing, has its url in the table afterwards. *)
Theorem page_error_stops_collection (topic searx_url : string)
  (max_pages : Z) (time_range : pytext) (k : Z) (s : state) :
  let endpoint := (rstrip_slash searx_url ++ "/search")%string in
  let range := if truthy time_range then time_range else None in
  let news := get_searxng_news w topic searx_url time_range in
  (1 <= k <= max_pages)%Z ->
  searxng_request w endpoint topic range k = Raises ->
  news k = [] /\
  (forall p results,
     searxng_request w endpoint topic range p = Returns results ->
     news p = results) /\
  collect_searxng_articles w topic searx_url max_pages time_range s =
  collect_searxng_articles (with_empty_page w endpoint topic range k)
    topic searx_url max_pages time_range s /\
  collect_searxng_articles w topic searx_url max_pages time_range s =
  collect_searxng_articles w topic searx_url (k - 1) time_range s /\
  exists added,
    collect_searxng_articles w topic searx_url max_pages time_range s =
    (Returns (Z.of_nat (length added)), set_db (db s ++ added) s) /\
    NoDup (map url added) /\
    (forall a, In a added ->
       has_url (url a) (db s) = false /\
       exists p item,
         (1 <= p < k)%Z /\ In item (news p) /\
         sr_url item = JStr (url a) /\ url a <> "" /\
         a = new_row (url a) item) /\
    (forall p item u,
       (1 <= p < k)%Z ->
       (forall q, (1 <= q < p)%Z -> news q <> []) ->
       In item (news p) ->
       sr_url item = JStr u -> u <> "" -> insert_fault w item = NoFault ->
       has_url u (db s ++ added) = true).
Proof.
  intros endpoint range news Hk Hraise.
  assert (Hnews : get_searxng_news w topic searx_url time_range k = []).
  { unfold get_searxng_news. fold endpoint. fold range. now rewrite Hraise. }
  assert (Hstop : collect_searxng_articles w topic searx_url max_pages
                    time_range s =
                  collect_searxng_articles w topic searx_url (k - 1)
                    time_range s).
  { unfold collect_searxng_articles.
    destruct (page_range_split k max_pages Hk) as [after ->].
    now apply collect_pages_stops. }
  split; [exact Hnews|]. split.
  { intros p results Hp. subst news. unfold get_searxng_news.
    fold endpoint. fold range. now rewrite Hp. }
  split; [|split; [exact Hstop|]].
  - unfold collect_searxng_articles.
    symmetry. apply collect_pages_same_news; [reflexivity|].
    intro page. unfold get_searxng_news. fold endpoint. fold range.
    cbn [with_empty_page set_searxng_request searxng_request].
    destruct ((endpoint =? endpoint) && (topic =? topic) &&
              pytext_eqb range range && (page =? k)%Z) eqn:E; auto.
    apply andb_true_iff in E. destruct E as [_ E].
    apply Z.eqb_eq in E. subst page. now rewrite Hraise.
  - rewrite Hstop. unfold collect_searxng_articles.
    destruct (collect_pages_extends topic searx_url time_range
                (page_range (k - 1)) 0%Z s) as [added [E [Hs Hf]]].
    destruct (collect_pages_fresh topic searx_url time_range
                (page_range (k - 1)) 0%Z s) as [added' [E' [Hnd Hfresh]]].
    rewrite E in E'. cbn [snd] in E'.
    assert (Eadded : added' = added).
    { apply (f_equal db) in E'. cbn [db set_db] in E'.
      now apply app_inv_head in E'. }
    subst added'. clear E'.
    exists added. rewrite E. split; [reflexivity|]. split; [exact Hnd|]. split.
    + intros a Ha. rewrite Forall_forall in Hfresh, Hf.
      split; [now apply Hfresh|].
      destruct (Hf a Ha) as [item [Hin [Hr [Hu Ea]]]].
      apply visited_items_in in Hin. destruct Hin as [p [Hp Hin]].
      apply page_range_in in Hp.
      exists p, item. repeat split; auto; lia.
    + intros p item u Hp Hfull Hin Hr Hu Hfault.
      apply (settled_stored _ _ item u Hs); auto.
      destruct (page_range_split p (k - 1)) as [after ->]; [lia|].
      apply visited_items_reached; auto.
      intros q Hq. apply page_range_in in Hq. apply Hfull. lia.
Qed.

End Collector.

Lemma page_error_stops_collection_witness :
  let w := page_two_fails_world in
  let topic := "Minion Rush special mission rewards" in
  let searx_url := "http://searx.test:8080/" in
  let s := initial_state in
  let news := get_searxng_news w topic searx_url None in
  news 2%Z = [] /\
  (forall p results,
     searxng_request w "http://searx.test:8080/search" topic None p =
       Returns results ->
     news p = results) /\
  collect_searxng_articles w topic searx_url 10 None s =
  collect_searxng_articles
    (with_empty_page w "http://searx.test:8080/search" topic None 2)
    topic searx_url 10 None s /\
  collect_searxng_articles w topic searx_url 10 None s =
  collect_searxng_articles w topic searx_url (2 - 1) None s /\
  exists added,
    collect_searxng_articles w topic searx_url 10 None s =
    (Returns (Z.of_nat (length added)), set_db (db s ++ added) s) /\
    NoDup (map url added) /\
    (forall a, In a added ->
       NewsDatabase.has_url (url a) (db s) = false /\
       exists p item,
         (1 <= p < 2)%Z /\ In item (news p) /\
         sr_url item = JStr (url a) /\ url a <> "" /\
         a = NewsDatabase.new_row (url a) item) /\
    (forall p item u,
       (1 <= p < 2)%Z ->
       (forall q, (1 <= q < p)%Z -> news q <> []) ->
       In item (news p) ->
       sr_url item = JStr u -> u <> "" ->
       insert_fault w item = NoFault ->
       NewsDatabase.has_url u (db s ++ added) = true).
Proof.
  apply (page_error_stops_collection page_two_fails_world
           "Minion Rush special mission rewards" "http://searx.test:8080/"
           10 None 2 initial_state).
  - lia.
  - reflexivity.
Defined.

Example page_error_run :
  collect_searxng_articles page_two_fails_world
    "Minion Rush special mission rewards" "http://searx.test:8080/" 10 None
    initial_state =
  (Returns 1%Z,
   {| db := [stored_example]; documents := []; embed_calls := [] |}).
Proof. vm_compute. reflexivity. Qed.

(** * Further properties *)

(** ** The article table under any sequence of writes *)

Section ReachableStore.

Import NewsDatabase.

Lemma new_row_as_discovered (u : string) (r : searx_result) :
  u <> "" -> sr_url r = JStr u -> as_discovered (new_row u r).
Proof.
  intros Hu Hr. unfold as_discovered, same_discovery. simpl.
  repeat split; auto.
Qed.

Lemma update_row_as_discovered u success ec em a :
  as_discovered a -> as_discovered (update_row u success ec em a).
Proof.
  intros Ha. unfold update_row. destruct (url a =? u); auto.
  destruct Ha as [H1 [H2 [H3 _]]].
  unfold as_discovered, same_discovery in *. simpl.
  repeat split; try tauto. discriminate.
Qed.

Lemma store_step_invariant (d d' : store) :
  store_step d d' ->
  wf_store d /\ Forall as_discovered d ->
  wf_store d' /\ Forall as_discovered d'.
Proof.
  intros Hstep [Hwf Hall]. destruct Hstep as [f r d|f u success ec em d].
  - split; [now apply insert_wf|].
    destruct (insert_cases f r d) as [H|[u [Hr [Hu [_ [_ H]]]]]];
      rewrite H; simpl; auto.
    apply Forall_app. split; auto.
    constructor; auto. now apply new_row_as_discovered.
  - split; [now apply mark_wf|].
    destruct f; simpl; auto.
    rewrite Forall_forall in *. intros x Hx.
    apply in_map_iff in Hx. destruct Hx as [a [<- Ha]].
    apply update_row_as_discovered. auto.
Qed.

Lemma store_steps_invariant (d d' : store) :
  store_steps d d' ->
  wf_store d /\ Forall as_discovered d ->
  wf_store d' /\ Forall as_discovered d'.
Proof.
  induction 1 as [d|d1 d2 d3 _ IH Hstep]; auto.
  intro H. eapply store_step_invariant; eauto.
Qed.

Lemma store_steps_trans (d1 d2 d3 : store) :
  store_steps d1 d2 -> store_steps d2 d3 -> store_steps d1 d3.
Proof.
  intros H12 H23. revert H12.
  induction H23 as [d|d2 d3 d4 _ IH Hstep]; intro H12; auto.
  apply (StepsMore d1 d3 d4); auto.
Qed.

Lemma store_steps_one (d d' : store) : store_step d d' -> store_steps d d'.
Proof. intro H. apply (StepsMore d d d'); [constructor|exact H]. Qed.

Lemma extract_steps (w : world) (a : article) (s : state) :
  store_steps (db s) (db (snd (extract_and_format_enhanced w a s))).
Proof.
  destruct (extract_cases w a s); simpl;
    [constructor|apply store_steps_one; constructor..].
Qed.

Lemma process_articles_steps (w : world) (articles : list article) :
  forall (recs : list extracted_record) (s : state),
    store_steps (db s) (db (snd (process_articles w articles recs s))).
Proof.
  induction articles as [|a rest IH]; intros recs s; simpl; [constructor|].
  destruct (title a); [|constructor].
  unfold bind. pose proof (extract_steps w a s) as Hstep.
  destruct (extract_and_format_enhanced w a s) as [[o|] s1]; simpl in *; auto.
  eapply store_steps_trans; [exact Hstep|apply IH].
Qed.

Lemma insert_items_steps (w : world) (items : list searx_result) :
  forall (count : Z) (s : state),
    store_steps (db s) (db (snd (insert_items w items count s))).
Proof.
  induction items as [|item rest IH]; intros count s; simpl; [constructor|].
  unfold bind, db_insert_searxng_result.
  pose proof (StepInsert (insert_fault w item) item (db s)) as Hstep.
  destruct (insert_searxng_result (insert_fault w item) item (db s))
    as [is_new d1]. simpl in Hstep.
  eapply store_steps_trans; [apply store_steps_one; exact Hstep|].
  match goal with |- context [insert_items w rest ?c ?s1] =>
    exact (IH c s1) end.
Qed.

Lemma collect_pages_steps (w : world) (topic searx_url : string)
  (time_range : pytext) (pages : list Z) :
  forall (total : Z) (s : state),
    store_steps (db s)
      (db (snd (collect_pages w topic searx_url time_range pages total s))).
Proof.
  induction pages as [|page rest IH]; intros total s; cbn [collect_pages];
    [constructor|].
  destruct (get_searxng_news w topic searx_url time_range page) as [|i items];
    [constructor|].
  unfold bind. pose proof (insert_items_steps w (i :: items) 0%Z s) as Hstep.
  destruct (insert_items w (i :: items) 0%Z s) as [[n|] s1];
    cbn [snd] in *; auto.
  eapply store_steps_trans; [exact Hstep|apply IH].
Qed.

Lemma process_stored_articles_steps (w : world) (limit : option Z)
  (s : state) :
  store_steps (db s) (db (snd (process_stored_articles w limit s))).
Proof.
  destruct (process_stored_cases w limit s) as [[_ E]|[_ E]]; rewrite E.
  - constructor.
  - apply process_articles_steps.
Qed.

Lemma run_complete_pipeline_steps (w : world) (topic searx_url : string)
  (max_pages : Z) (time_range : pytext) (process_limit : option Z) (s : state) :
  store_steps (db s)
    (db (snd (run_complete_pipeline w topic searx_url max_pages time_range
                process_limit s))).
Proof.
  unfold run_complete_pipeline, collect_searxng_articles, bind.
  pose proof (collect_pages_steps w topic searx_url time_range
                (page_range max_pages) 0%Z s) as H1.
  destruct (collect_pages w topic searx_url time_range (page_range max_pages)
              0%Z s) as [[n|] s1]; cbn [snd] in *; auto.
  pose proof (process_stored_articles_steps w process_limit s1) as H2.
  destruct (process_stored_articles w process_limit s1)
    as [[recs|] s2]; cbn [snd] in *.
  - destruct recs as [|r recs]; cbn [snd ret].
    + eapply store_steps_trans; eauto.
    + rewrite upload_db. eapply store_steps_trans; eauto.
  - eapply store_steps_trans; eauto.
Qed.

Lemma run_topics_steps (runs : list run) :
  forall s, store_steps (db s) (db (snd (run_topics runs s))).
Proof.
  induction runs as [|r rest IH]; intro s; simpl; [constructor|].
  unfold bind, try_except.
  pose proof (run_complete_pipeline_steps (run_world r) (run_topic r)
                (run_searx_url r) (run_max_pages r) (run_time_range r)
                (run_process_limit r) s) as H.
  destruct (run_complete_pipeline (run_world r) (run_topic r)
              (run_searx_url r) (run_max_pages r) (run_time_range r)
              (run_process_limit r) s) as [[[]|] s1]; cbn [snd ret] in *;
    (eapply store_steps_trans; [exact H|apply IH]).
Qed.

(** X1. The pipeline changes the article table through
    [insert_searxng_result] and [mark_as_processed] only, so the table after
    any sequence of runs is built from the empty one by inserts and marks.
    In every table built that way, with whatever arguments and failures: no
    two rows share a url, and every row has a non-empty url, which is the
    url of the search result kept with it, has the discovery columns that
    the insert computed from that result, is still exactly the inserted row
    while it is unprocessed, and is processed when its success flag is
    set. *)
Theorem reachable_rows_as_discovered :
  (forall runs, reachable_store (db (snd (run_topics runs initial_state)))) /\
  (forall (d : store) (a : article),
     reachable_store d -> In a d ->
     wf_store d /\
     url a <> "" /\
     sr_url (searxng_data a) = JStr (url a) /\
     same_discovery a (new_row (url a) (searxng_data a)) /\
     (processed a = false -> a = new_row (url a) (searxng_data a)) /\
     (trafilatura_success a = true -> processed a = true)).
Proof.
  split.
  - intro runs. apply (run_topics_steps runs initial_state).
  - intros d a Hreach Hin.
    destruct (store_steps_invariant [] d Hreach) as [Hwf Hall].
    { split; constructor. }
    split; auto.
    rewrite Forall_forall in Hall. exact (Hall a Hin).
Qed.

Lemma reachable_row (d : store) (a : article) :
  reachable_store d -> In a d -> wf_store d /\ as_discovered a.
Proof.
  intros Hreach Hin.
  destruct (store_steps_invariant [] d Hreach) as [Hwf Hall].
  { split; constructor. }
  split; auto. rewrite Forall_forall in Hall. exact (Hall a Hin).
Qed.

Lemma fallback_row_reachable : reachable_store [fallback_row].
Proof.
  unfold reachable_store.
  apply (StepsMore [] [stored_example] [fallback_row]).
  - apply (StepsMore [] [] [stored_example]); [constructor|].
    exact (StepInsert NoFault example_result []).
  - exact (StepMark NoFault "https://a.test/1" false None
             (Some fallback_metadata) [stored_example]).
Qed.

End ReachableStore.

Lemma reachable_rows_as_discovered_witness :
  reachable_store (db (snd (run_topics [scenario_run] initial_state))) /\
  (wf_store [fallback_row] /\
   url fallback_row <> "" /\
   sr_url (searxng_data fallback_row) = JStr (url fallback_row) /\
   same_discovery fallback_row
     (NewsDatabase.new_row (url fallback_row) (searxng_data fallback_row)) /\
   (processed fallback_row = false ->
    fallback_row =
    NewsDatabase.new_row (url fallback_row) (searxng_data fallback_row)) /\
   (trafilatura_success fallback_row = true -> processed fallback_row = true)).
Proof.
  split.
  - apply (proj1 reachable_rows_as_discovered [scenario_run]).
  - apply (proj2 reachable_rows_as_discovered [fallback_row] fallback_row).
    + exact fallback_row_reachable.
    + simpl. left. reflexivity.
Defined.

(** ** Statistics *)

Section Statistics.

Import NewsDatabase.

Lemma filter_partition_length {A : Type} (p : A -> bool) (l : list A) :
  (length (filter p l) + length (filter (fun x => negb (p x)) l))%nat = length l.
Proof.
  induction l as [|x l IH]; simpl; auto.
  destruct (p x); simpl; lia.
Qed.

Lemma filter_all {A : Type} (l : list A) : filter (fun _ => true) l = l.
Proof. induction l; simpl; congruence. Qed.

Lemma filter_length_le {A : Type} (p : A -> bool) (l : list A) :
  (length (filter p l) <= length l)%nat.
Proof. induction l as [|x l IH]; simpl; auto. destruct (p x); simpl; lia. Qed.

(** X2. For every table, the statistics agree with the rows: [total] is
    the number of rows, [unprocessed] is the number of rows that
    [get_unprocessed_articles] returns when given no limit, [total] is
    [processed] plus [unprocessed], [processed] is [trafilatura_successful]
    plus [trafilatura_failed], and [processed], [unprocessed] and
    [trafilatura_successful] lie between 0 and [total]. *)
Theorem stats_agree_with_rows (d : store) :
  let st := get_stats d in
  total st = Z.of_nat (length d) /\
  (exists rows,
     get_unprocessed_articles None d = Returns rows /\
     unprocessed st = Z.of_nat (length rows)) /\
  total st = (st_processed st + unprocessed st)%Z /\
  st_processed st = (trafilatura_successful st + trafilatura_failed st)%Z /\
  (0 <= st_processed st <= total st)%Z /\
  (0 <= unprocessed st <= total st)%Z /\
  (0 <= trafilatura_successful st <= total st)%Z.
Proof.
  unfold get_stats, count_rows, get_unprocessed_articles. simpl.
  rewrite filter_all.
  pose proof (filter_partition_length processed d) as Hp.
  pose proof (filter_length_le trafilatura_success d) as Hs.
  split; [reflexivity|]. split; [eexists; split; [reflexivity|lia]|].
  repeat split; lia.
Qed.

Lemma filter_ext_in_length {A : Type} (p q : A -> bool) (l : list A) :
  (forall x, In x l -> p x = q x) ->
  length (filter p l) = length (filter q l).
Proof.
  intro H. induction l as [|x l IH]; simpl; auto.
  rewrite (H x (or_introl eq_refl)).
  destruct (q x); simpl; rewrite IH; auto; intros y Hy; apply H; now right.
Qed.

Lemma filter_split_length {A : Type} (p q : A -> bool) (l : list A) :
  length (filter p l) =
  (length (filter (fun x => p x && q x) l) +
   length (filter (fun x => p x && negb (q x)) l))%nat.
Proof.
  induction l as [|x l IH]; simpl; auto.
  destruct (p x), (q x); simpl; lia.
Qed.

(** X3. In a table built from the empty one by inserts and marks,
    [trafilatura_failed] is exactly the number of rows that are processed
    without success; it is never negative, and [trafilatura_successful]
    never exceeds [processed]. *)
Theorem failed_counts_processed_failures (d : store) :
  reachable_store d ->
  let st := get_stats d in
  trafilatura_failed st =
    count_rows (fun a => processed a && negb (trafilatura_success a)) d /\
  (0 <= trafilatura_failed st)%Z /\
  (trafilatura_successful st <= st_processed st)%Z.
Proof.
  intros Hreach st.
  assert (Hinv : forall a, In a d ->
            trafilatura_success a = processed a && trafilatura_success a).
  { intros a Ha.
    destruct (reachable_row d a Hreach Ha) as [_ [_ [_ [_ [_ H]]]]].
    destruct (trafilatura_success a); [now rewrite H|now rewrite andb_false_r]. }
  subst st. unfold get_stats, count_rows. simpl.
  rewrite (filter_ext_in_length trafilatura_success _ d Hinv).
  rewrite (filter_split_length processed trafilatura_success d).
  split; [|split]; lia.
Qed.

End Statistics.

Lemma failed_counts_processed_failures_witness :
  let st := NewsDatabase.get_stats [fallback_row] in
  NewsDatabase.trafilatura_failed st =
    NewsDatabase.count_rows
      (fun a => processed a && negb (trafilatura_success a)) [fallback_row] /\
  (0 <= NewsDatabase.trafilatura_failed st)%Z /\
  (NewsDatabase.trafilatura_successful st <= NewsDatabase.st_processed st)%Z.
Proof.
  apply (failed_counts_processed_failures [fallback_row]).
  exact fallback_row_reachable.
Defined.

(** ** Listing, inserting and marking *)

Section Listing.

Import NewsDatabase.

Lemma unprocessed_all (d : store) (a : article) :
  In a (unprocessed_rows None d) <-> In a d /\ processed a = false.
Proof.
  unfold unprocessed_rows. rewrite filter_In.
  destruct (processed a); simpl; intuition congruence.
Qed.

(** X4. [get_unprocessed_articles] returns, in insertion order, an
    initial part of the stored unprocessed rows, or raises: with no limit
    it returns them all; with a limit that is a 64-bit integer it returns
    them all when the limit is 0 or negative and the first [n] of them (all
    of them when there are fewer) when the limit is a positive [n]; with any
    other integer as limit it raises. *)
Theorem unprocessed_limit (limit : option Z) (d : store) :
  exists all,
    get_unprocessed_articles None d = Returns all /\
    (forall a, In a all <-> In a d /\ processed a = false) /\
    (forall d1 d2, d = d1 ++ d2 ->
       exists l1 l2,
         all = l1 ++ l2 /\
         (forall a, In a l1 <-> In a d1 /\ processed a = false) /\
         (forall a, In a l2 <-> In a d2 /\ processed a = false)) /\
    (forall rows, get_unprocessed_articles limit d = Returns rows ->
       exists rest, all = rows ++ rest) /\
    match limit with
    | Some n =>
        ((n < -9223372036854775808 \/ 9223372036854775807 < n)%Z ->
         get_unprocessed_articles limit d = Raises) /\
        ((-9223372036854775808 <= n <= 0)%Z ->
         get_unprocessed_articles limit d = Returns all) /\
        ((0 < n <= 9223372036854775807)%Z ->
         get_unprocessed_articles limit d =
           Returns (firstn (Z.to_nat n) all) /\
         length (firstn (Z.to_nat n) all) =
           Nat.min (Z.to_nat n) (length all))
    | None => get_unprocessed_articles limit d = Returns all
    end.
Proof.
  exists (unprocessed_rows None d).
  split; [reflexivity|]. split; [intro a; apply unprocessed_all|]. split.
  { intros d1 d2 ->.
    exists (unprocessed_rows None d1), (unprocessed_rows None d2).
    split; [apply filter_app|]. split; intro a; apply unprocessed_all. }
  split.
  - intros rows E. apply listing_returns in E. subst rows.
    unfold unprocessed_rows, sql_limit.
    destruct limit as [n|]; [|exists []; now rewrite app_nil_r].
    destruct (n =? 0)%Z; [exists []; now rewrite app_nil_r|].
    destruct (n <? 0)%Z; [exists []; now rewrite app_nil_r|].
    eexists. symmetry. apply firstn_skipn.
  - destruct limit as [n|]; [|reflexivity]. split; [|split].
    + intro H. apply listing_rejected. unfold sql_integer.
      apply andb_false_iff. destruct H as [H|H]; [left|right].
      * apply Z.leb_gt. exact H.
      * apply Z.leb_gt. exact H.
    + intro H. rewrite listing_accepted.
      * unfold unprocessed_rows, sql_limit.
        destruct (n =? 0)%Z eqn:Hz; [reflexivity|].
        apply Z.eqb_neq in Hz.
        replace (n <? 0)%Z with true by (symmetry; apply Z.ltb_lt; lia).
        reflexivity.
      * unfold sql_integer. apply andb_true_iff.
        split; apply Z.leb_le; lia.
    + intro H. split; [|apply length_firstn].
      rewrite listing_accepted.
      * unfold unprocessed_rows, sql_limit.
        replace (n =? 0)%Z with false by (symmetry; apply Z.eqb_neq; lia).
        replace (n <? 0)%Z with false by (symmetry; apply Z.ltb_ge; lia).
        reflexivity.
      * unfold sql_integer. apply andb_true_iff.
        split; apply Z.leb_le; lia.
Qed.

(** X5. After [insert_searxng_result] the unprocessed listing is the one
    before, followed by the new row when the call returned true; [total]
    and [unprocessed] of the statistics grow by one in that case and
    [processed] stays; when the call returned false the table is as
    before. *)
Theorem inserted_article_is_listed_last (f : sql_fault) (r : searx_result)
  (d : store) :
  let res := insert_searxng_result f r d in
  let added := if fst res then [new_row (result_url r) r] else [] in
  snd res = d ++ added /\
  (exists rows,
     get_unprocessed_articles None d = Returns rows /\
     get_unprocessed_articles None (snd res) = Returns (rows ++ added)) /\
  total (get_stats (snd res)) =
    (total (get_stats d) + Z.of_nat (length added))%Z /\
  unprocessed (get_stats (snd res)) =
    (unprocessed (get_stats d) + Z.of_nat (length added))%Z /\
  st_processed (get_stats (snd res)) = st_processed (get_stats d).
Proof.
  intros res added.
  assert (E : snd res = d ++ added).
  { subst res added.
    destruct (insert_cases f r d) as [H|[u [Hr [_ [_ [_ H]]]]]]; rewrite H; simpl.
    - now rewrite app_nil_r.
    - unfold result_url. now rewrite Hr. }
  assert (Hadded : filter (fun a => negb (processed a)) added = added /\
                   filter processed added = []).
  { subst added. destruct (fst res); simpl; auto. }
  destruct Hadded as [Ha1 Ha2].
  rewrite E. unfold get_stats, count_rows, get_unprocessed_articles. simpl.
  rewrite !filter_app, !length_app, Ha1, Ha2, !filter_all. simpl.
  split; [reflexivity|]. split; [eexists; split; reflexivity|].
  repeat split; auto; lia.
Qed.

Lemma map_update_absent u success ec em (d : store) :
  ~ In u (map url d) -> map (update_row u success ec em) d = d.
Proof.
  induction d as [|x d IH]; simpl; auto.
  intro H. rewrite IH by tauto.
  unfold update_row. rewrite string_eqb_false by tauto. reflexivity.
Qed.

Lemma count_after_update (p : article -> bool) u success ec em (d : store)
  (a : article) :
  wf_store d -> In a d -> url a = u ->
  (length (filter p (map (update_row u success ec em) d))
   + (if p a then 1 else 0) =
   length (filter p d) + (if p (update_row u success ec em a) then 1 else 0))%nat.
Proof.
  unfold wf_store. intros Hwf Hin Hu.
  induction d as [|x d IH]; [destruct Hin|].
  simpl in Hwf. inversion Hwf as [|y l Hnot Hnd]; subst y l.
  destruct Hin as [->|Hin].
  - simpl. rewrite map_update_absent by now rewrite <- Hu.
    destruct (p a), (p (update_row u success ec em a)); simpl; lia.
  - assert (Hx : url x <> u).
    { intro E. apply Hnot. rewrite E, <- Hu. now apply in_map. }
    simpl. unfold update_row at 1. rewrite (string_eqb_false _ _ Hx).
    specialize (IH Hnd Hin).
    destruct (p x); simpl; lia.
Qed.

Lemma update_row_unprocessed u success ec em (x : article) :
  negb (processed (update_row u success ec em x)) =
  negb (processed x) && negb (url x =? u).
Proof.
  unfold update_row. destruct (url x =? u); simpl.
  - now rewrite andb_false_r.
  - now rewrite andb_true_r.
Qed.

Lemma listing_after_update u success ec em (d : store) :
  filter (fun b => negb (processed b)) (map (update_row u success ec em) d) =
  filter (fun b => negb (url b =? u)) (filter (fun b => negb (processed b)) d).
Proof.
  induction d as [|x d IH]; simpl; auto.
  rewrite update_row_unprocessed, IH.
  destruct (processed x); simpl; auto.
  destruct (url x =? u) eqn:E; simpl; auto.
  unfold update_row. now rewrite E.
Qed.

(** X6. Marking a stored, unprocessed article in a table built by inserts
    and marks (the UPDATE not failing): the article leaves the unprocessed
    listing and the rest of the listing is kept in order; [processed] grows
    by one, [unprocessed] shrinks by one, [total] stays, and
    [trafilatura_successful] grows by one exactly when the call reports
    success. *)
Theorem mark_moves_article_to_processed (d : store) (a : article)
  (success : bool) (ec : pytext) (em : option metadata) :
  reachable_store d -> In a d -> processed a = false ->
  let d' := mark_as_processed NoFault (url a) success ec em d in
  (exists rows,
     get_unprocessed_articles None d = Returns rows /\
     get_unprocessed_articles None d' =
       Returns (filter (fun b => negb (url b =? url a)) rows)) /\
  (forall limit rows b,
     get_unprocessed_articles limit d' = Returns rows ->
     In b rows -> url b <> url a) /\
  total (get_stats d') = total (get_stats d) /\
  st_processed (get_stats d') = (st_processed (get_stats d) + 1)%Z /\
  unprocessed (get_stats d') = (unprocessed (get_stats d) - 1)%Z /\
  trafilatura_successful (get_stats d') =
    (trafilatura_successful (get_stats d) + (if success then 1 else 0))%Z.
Proof.
  intros Hreach Hin Hp d'.
  destruct (reachable_row d a Hreach Hin) as [Hwf [_ [_ [_ [Hnew _]]]]].
  assert (Hs : trafilatura_success a = false).
  { rewrite (Hnew Hp). reflexivity. }
  assert (Hl : unprocessed_rows None d' =
               filter (fun b => negb (url b =? url a))
                 (unprocessed_rows None d)).
  { subst d'. unfold unprocessed_rows. simpl.
    apply listing_after_update. }
  split.
  { exists (unprocessed_rows None d). split; [reflexivity|].
    now rewrite listing_unlimited, Hl. }
  split.
  { intros limit rows b El Hb. apply listing_returns in El. subst rows.
    apply unprocessed_in in Hb. apply unprocessed_all in Hb.
    rewrite Hl in Hb. apply filter_In in Hb.
    destruct Hb as [_ Hb]. apply negb_true_iff in Hb.
    now apply String.eqb_neq. }
  pose proof (count_after_update processed (url a) success ec em d a
                Hwf Hin eq_refl) as Hcp.
  pose proof (count_after_update trafilatura_success (url a) success ec em d a
                Hwf Hin eq_refl) as Hcs.
  destruct (update_row_marked (url a) success ec em a) as [_ Hm].
  destruct (Hm eq_refl) as [Hm1 [Hm2 _]].
  rewrite Hp, Hm1 in Hcp. rewrite Hs, Hm2 in Hcs.
  subst d'. unfold get_stats, count_rows. simpl.
  rewrite !filter_all, length_map.
  destruct success; repeat split; lia.
Qed.

(** X7. Marking a url that no row has changes nothing, whatever the other
    arguments; and a mark never changes the number of rows, their order or
    their urls. *)
Theorem mark_unknown_url_changes_nothing (f : sql_fault) (u : string)
  (success : bool) (ec : pytext) (em : option metadata) (d : store) :
  map url (mark_as_processed f u success ec em d) = map url d /\
  (has_url u d = false -> mark_as_processed f u success ec em d = d).
Proof.
  split; [apply mark_urls|].
  intro H. apply has_url_false in H.
  destruct f; simpl; auto. now apply map_update_absent.
Qed.

End Listing.

Lemma mark_moves_article_to_processed_witness :
  let d := [stored_example] in
  let a := stored_example in
  let d' := NewsDatabase.mark_as_processed NoFault (url a) false None
              (Some fallback_metadata) d in
  (exists rows,
     NewsDatabase.get_unprocessed_articles None d = Returns rows /\
     NewsDatabase.get_unprocessed_articles None d' =
       Returns (filter (fun b => negb (url b =? url a)) rows)) /\
  (forall limit rows b,
     NewsDatabase.get_unprocessed_articles limit d' = Returns rows ->
     In b rows -> url b <> url a) /\
  NewsDatabase.total (NewsDatabase.get_stats d') =
    NewsDatabase.total (NewsDatabase.get_stats d) /\
  NewsDatabase.st_processed (NewsDatabase.get_stats d') =
    (NewsDatabase.st_processed (NewsDatabase.get_stats d) + 1)%Z /\
  NewsDatabase.unprocessed (NewsDatabase.get_stats d') =
    (NewsDatabase.unprocessed (NewsDatabase.get_stats d) - 1)%Z /\
  NewsDatabase.trafilatura_successful (NewsDatabase.get_stats d') =
    (NewsDatabase.trafilatura_successful (NewsDatabase.get_stats d) + 0)%Z.
Proof.
  apply (mark_moves_article_to_processed [stored_example] stored_example
           false None (Some fallback_metadata)).
  - apply (StepsMore [] [] [stored_example]); [constructor|].
    exact (StepInsert NoFault example_result []).
  - simpl. left. reflexivity.
  - reflexivity.
Defined.

Lemma mark_unknown_url_changes_nothing_witness :
  map url (NewsDatabase.mark_as_processed NoFault "https://b.test/9" true
             (Some "text") None [stored_example]) = map url [stored_example] /\
  NewsDatabase.mark_as_processed NoFault "https://b.test/9" true
    (Some "text") None [stored_example] = [stored_example].
Proof.
  split.
  - apply (proj1 (mark_unknown_url_changes_nothing NoFault "https://b.test/9"
                    true (Some "text") None [stored_example])).
  - apply (proj2 (mark_unknown_url_changes_nothing NoFault "https://b.test/9"
                    true (Some "text") None [stored_example])).
    reflexivity.
Defined.

(** ** The search request and the collector *)

Section Search.

Variable w : world.

Lemma rstrip_slash_slash (s : string) :
  rstrip_slash (s ++ "/")%string = rstrip_slash s.
Proof.
  induction s as [|c s IH]; simpl; auto.
  now rewrite IH.
Qed.

Lemma rstrip_slash_slashes (s : string) (n : nat) :
  rstrip_slash (s ++ string_repeat "/" n)%string = rstrip_slash s.
Proof.
  revert s. induction n as [|n IH]; intro s; simpl.
  - f_equal. induction s; simpl; congruence.
  - change (String "/" (string_repeat "/" n))
      with ("/" ++ string_repeat "/" n)%string.
    assert (E : forall a b c : string,
              (a ++ (b ++ c))%string = ((a ++ b) ++ c)%string).
    { intros a b c. induction a; simpl; congruence. }
    now rewrite E, IH, rstrip_slash_slash.
Qed.

(** X8. The search request does not depend on trailing slashes of the base
    url, and an empty time range is the same as none: in both cases
    [get_searxng_news] gives the same results. *)
Theorem search_request_normalised (query base_url : string)
  (time_range : pytext) (page : Z) (n : nat) :
  get_searxng_news w query (base_url ++ string_repeat "/" n)%string
    time_range page =
  get_searxng_news w query base_url time_range page /\
  get_searxng_news w query base_url (Some "") page =
  get_searxng_news w query base_url None page.
Proof.
  split.
  - unfold get_searxng_news. now rewrite rstrip_slash_slashes.
  - reflexivity.
Qed.

End Search.

Section CollectorGrowth.

Import NewsDatabase.

Variable w : world.

(** X9. [collect_searxng_articles] never raises; it leaves the rows of the
    table as they are and appends rows after them; each appended row is the
    unprocessed row of one of the search results of the pages it read, with
    that result's non-empty url, and the number it returns is the number of
    rows it appended. *)
Theorem collect_counts_appended_rows (topic searx_url : string)
  (max_pages : Z) (time_range : pytext) (s : state) :
  exists added,
    collect_searxng_articles w topic searx_url max_pages time_range s =
    (Returns (Z.of_nat (length added)), set_db (db s ++ added) s) /\
    Forall (inserted_from
              (visited_items w topic searx_url time_range
                 (page_range max_pages))) added.
Proof.
  unfold collect_searxng_articles.
  destruct (collect_pages_extends w topic searx_url time_range
              (page_range max_pages) 0%Z s) as [added [E [Hs Hf]]].
  exists added. rewrite E. split; [reflexivity|auto].
Qed.

(** X10. Collecting again with the same collaborators adds nothing: a
    second [collect_searxng_articles] with the same arguments, right after
    the first, returns 0 and leaves the state as the first left it. *)
Theorem collect_twice_adds_nothing (topic searx_url : string)
  (max_pages : Z) (time_range : pytext) (s : state) :
  let s1 := snd (collect_searxng_articles w topic searx_url max_pages
                   time_range s) in
  collect_searxng_articles w topic searx_url max_pages time_range s1 =
  (Returns 0%Z, s1).
Proof.
  unfold collect_searxng_articles.
  destruct (collect_pages_extends w topic searx_url time_range
              (page_range max_pages) 0%Z s) as [added [E [Hs Hf]]].
  rewrite E. cbn [snd].
  apply (collect_pages_settled w). exact Hs.
Qed.

End CollectorGrowth.

(** ** The records of the extraction engine *)

Section Records.

Import NewsDatabase.

Variable w : world.

Lemma substring_length_le (s : string) :
  forall n m, (String.length (substring n m s) <= m)%nat.
Proof.
  induction s as [|c s IH]; intros n m.
  - destruct n, m; simpl; lia.
  - destruct n as [|n].
    + destruct m as [|m]; simpl; [lia|]. specialize (IH 0%nat m). lia.
    + simpl. apply IH.
Qed.

(** What [try_trafilatura] returns: nothing when no page was downloaded,
    else what the two extractions returned. *)
Lemma try_trafilatura_returns (u : string) (s s' : state) (tc : pytext)
  (tm : option trafilatura_document) :
  try_trafilatura w u s = (Returns (tc, tm), s') ->
  s' = s /\
  ((truthy (fetch_with_strategy w u) = false /\ tc = None /\ tm = None) \/
   (exists d, fetch_with_strategy w u = Some d /\ d <> "" /\
              trafilatura_extract w d = Returns tc /\
              extract_metadata w d = Returns tm)).
Proof.
  unfold try_trafilatura.
  destruct (fetch_with_strategy w u) as [d|] eqn:Hd.
  2:{ unfold ret. intro E. inversion E; subst.
      split; [reflexivity|]. left. simpl. auto. }
  destruct (d =? "") eqn:Hempty.
  { unfold ret. intro E. inversion E; subst. split; [reflexivity|]. left.
    simpl. rewrite Hempty. auto. }
  apply String.eqb_neq in Hempty.
  unfold bind, call, ret.
  destruct (trafilatura_extract w d) as [tc'|] eqn:Htc; [|discriminate].
  destruct (extract_metadata w d) as [tm'|] eqn:Htm; [|discriminate].
  intro E. inversion E; subst. split; auto. right. exists d. auto.
Qed.

Lemma finish_record_returns (a : article) (tm : option trafilatura_document)
  (cs fc : string) (success : bool) (s s' : state)
  (o : option extracted_record) :
  finish_record w a tm cs fc success s = (Returns o, s') ->
  exists md,
    o = Some {| rec_id := url a; page_content := fc; rec_metadata := md |} /\
    s' = set_db (mark_as_processed (update_fault w (url a)) (url a) success
                   (if success then Some fc else None) (Some md) (db s)) s /\
    md_content_source md = cs /\ md_trafilatura_success md = success /\
    merged_metadata w a tm md.
Proof.
  unfold finish_record, bind, build_metadata.
  destruct (py_or (meta_get tm doc_description None) (content a)) as [desc|] eqn:Hd;
    [|discriminate].
  unfold ret, db_mark_as_processed. intro E. inversion E; subst.
  eexists. split; [reflexivity|]. split; [reflexivity|].
  unfold merged_metadata. simpl. rewrite Hd. simpl.
  repeat split; auto.
  unfold slice_to. apply substring_length_le.
Qed.

Lemma fallback_record_returns (a : article) (tm : option trafilatura_document)
  (s s' : state) (r : extracted_record) :
  fallback_record w a tm s = (Returns (Some r), s') ->
  exists md,
    r = {| rec_id := url a; page_content := page_content r; rec_metadata := md |} /\
    py_or (content a) (title a) = Some (page_content r) /\
    page_content r <> "" /\
    s' = set_db (mark_as_processed (update_fault w (url a)) (url a) false
                   None (Some md) (db s)) s /\
    md_content_source md = "searxng_fallback" /\
    md_trafilatura_success md = false /\
    merged_metadata w a tm md.
Proof.
  unfold fallback_record.
  destruct (py_or (content a) (title a)) as [fc|]; [|discriminate].
  destruct (fc =? "") eqn:Hfc; [discriminate|].
  apply String.eqb_neq in Hfc.
  intro E. apply finish_record_returns in E.
  destruct E as [md [Ho [Hs [Hcs [Hsucc Hm]]]]].
  inversion Ho; subst r. exists md. simpl. auto 10.
Qed.

Lemma try_trafilatura_parsed (u d : string) (tc : pytext)
  (tm : option trafilatura_document) (s : state) :
  fetch_with_strategy w u = Some d -> d <> "" ->
  trafilatura_extract w d = Returns tc ->
  extract_metadata w d = Returns tm ->
  try_trafilatura w u s = (Returns (tc, tm), s).
Proof.
  intros Hd Hne Htc Htm. unfold try_trafilatura, bind, call, ret.
  now rewrite Hd, (string_eqb_false _ _ Hne), Htc, Htm.
Qed.

(** The record produced once the extractions have returned: the extracted
    text when it is not empty, else the snippet or the title. *)
Lemma extract_computed (a : article) (s : state) (tc : pytext)
  (tm : option trafilatura_document) (desc fc : string) :
  url a <> "" ->
  try_trafilatura w (url a) s = (Returns (tc, tm), s) ->
  py_or (meta_get tm doc_description None) (content a) = Some desc ->
  (if truthy tc then tc else py_or (content a) (title a)) = Some fc ->
  fc <> "" ->
  exists md,
    extract_and_format_enhanced w a s =
    (Returns (Some {| rec_id := url a; page_content := fc;
                      rec_metadata := md |}),
     set_db (mark_as_processed (update_fault w (url a)) (url a) (truthy tc)
               (if truthy tc then Some fc else None) (Some md) (db s)) s) /\
    md_content_source md =
      (if truthy tc then "trafilatura" else "searxng_fallback") /\
    md_trafilatura_success md = truthy tc /\
    merged_metadata w a tm md.
Proof.
  intros Hu Htry Hdesc Hfinal Hfc.
  assert (Hfin : forall cs b,
            exists md,
              finish_record w a tm cs fc b s =
              (Returns (Some {| rec_id := url a; page_content := fc;
                                rec_metadata := md |}),
               set_db (mark_as_processed (update_fault w (url a)) (url a) b
                         (if b then Some fc else None) (Some md) (db s)) s) /\
              md_content_source md = cs /\ md_trafilatura_success md = b /\
              merged_metadata w a tm md).
  { intros cs b.
    destruct (finish_record w a tm cs fc b s) as [o s'] eqn:E.
    destruct o as [o|].
    - destruct (finish_record_returns a tm cs fc b s s' o E)
        as [md [-> [-> H]]]. exists md. auto.
    - exfalso. revert E. unfold finish_record, bind, build_metadata.
      rewrite Hdesc. discriminate. }
  unfold extract_and_format_enhanced.
  rewrite (string_eqb_false _ _ Hu).
  unfold try_except, extract_body, bind. rewrite Htry.
  destruct tc as [text|]; simpl in Hfinal |- *.
  - destruct (text =? "") eqn:Ht; simpl in Hfinal |- *.
    + unfold fallback_record. rewrite Hfinal, (string_eqb_false _ _ Hfc).
      destruct (Hfin "searxng_fallback" false) as [md [E H]].
      rewrite E. exists md. auto.
    + injection Hfinal as ->.
      destruct (Hfin "trafilatura" true) as [md [E H]].
      rewrite E. exists md. auto.
  - unfold fallback_record. rewrite Hfinal, (string_eqb_false _ _ Hfc).
    destruct (Hfin "searxng_fallback" false) as [md [E H]].
    rewrite E. exists md. auto.
Qed.

Lemma record_shape (a : article) (s : state) (r : extracted_record) :
  fst (extract_and_format_enhanced w a s) = Returns (Some r) ->
  url a <> "" /\
  rec_id r = url a /\
  md_url (rec_metadata r) = url a /\
  page_content r <> "" /\
  (String.length (md_description (rec_metadata r)) <= 500)%nat /\
  ((md_content_source (rec_metadata r) = "trafilatura" /\
    md_trafilatura_success (rec_metadata r) = true /\
    exists d, fetch_with_strategy w (url a) = Some d /\
              trafilatura_extract w d = Returns (Some (page_content r))) \/
   (md_content_source (rec_metadata r) = "searxng_fallback" /\
    md_trafilatura_success (rec_metadata r) = false /\
    py_or (content a) (title a) = Some (page_content r))).
Proof.
  unfold extract_and_format_enhanced.
  destruct (url a =? "") eqn:Hu; [discriminate|].
  apply String.eqb_neq in Hu.
  unfold try_except, extract_body, bind.
  destruct (try_trafilatura w (url a) s) as [[[tc tm]|] s0] eqn:Htry.
  2:{ discriminate. }
  destruct (try_trafilatura_returns _ _ _ _ _ Htry) as [-> Hcases].
  assert (Hfb : fst (match fallback_record w a tm s with
                     | (Returns x, s') => (Returns x, s')
                     | (Raises, s') =>
                         (db_mark_as_processed w (url a) false None None ;;;
                          ret None) s'
                     end) = Returns (Some r) ->
                fallback_record w a tm s = (Returns (Some r), snd (fallback_record w a tm s))).
  { destruct (fallback_record w a tm s) as [[o|] s']; simpl; [congruence|].
    discriminate. }
  assert (Hfallback : fallback_record w a tm s =
                      (Returns (Some r), snd (fallback_record w a tm s)) ->
            url a <> "" /\ rec_id r = url a /\
            md_url (rec_metadata r) = url a /\ page_content r <> "" /\
            (String.length (md_description (rec_metadata r)) <= 500)%nat /\
            ((md_content_source (rec_metadata r) = "trafilatura" /\
              md_trafilatura_success (rec_metadata r) = true /\
              exists d, fetch_with_strategy w (url a) = Some d /\
                        trafilatura_extract w d =
                        Returns (Some (page_content r))) \/
             (md_content_source (rec_metadata r) = "searxng_fallback" /\
              md_trafilatura_success (rec_metadata r) = false /\
              py_or (content a) (title a) = Some (page_content r)))).
  { intro E. apply fallback_record_returns in E.
    destruct E as [md [Hr [Hpy [Hne [_ [Hcs [Hsucc Hm]]]]]]].
    rewrite Hr in *. simpl in *. destruct Hm as [Hm1 [_ [_ [_ [_ [_ [_ Hm8]]]]]]].
    repeat split; auto. }
  destruct tc as [text|]; [|intro H; apply Hfallback, Hfb, H].
  destruct (text =? "") eqn:Ht; [intro H; apply Hfallback, Hfb, H|].
  apply String.eqb_neq in Ht.
  destruct (finish_record w a tm "trafilatura" text true s) as [[o|] s'] eqn:E;
    [|discriminate].
  simpl. intro Ho. injection Ho as ->.
  apply finish_record_returns in E.
  destruct E as [md [Hr [_ [Hcs [Hsucc Hm]]]]].
  injection Hr as ->. simpl.
  destruct Hm as [Hm1 [_ [_ [_ [_ [_ [_ Hm8]]]]]]].
  repeat split; auto. left. repeat split; auto.
  destruct Hcases as [[_ [Hnone _]]|[d [Hd [_ [Htc _]]]]]; [discriminate|].
  exists d. auto.
Qed.

(** X11. Every record that [extract_and_format_enhanced] returns has the
    article's non-empty url as its id and as the url of its metadata, a
    non-empty content and a description of at most 500 characters; and
    either it is marked as a trafilatura success and its content is the
    text extracted from the downloaded page, or it is marked as a SearXNG
    fallback and its content is the stored snippet, or the title when the
    snippet is empty. *)
Theorem returned_record_shape (a : article) (s : state) (r : extracted_record) :
  fst (extract_and_format_enhanced w a s) = Returns (Some r) ->
  url a <> "" /\
  rec_id r = url a /\
  md_url (rec_metadata r) = url a /\
  page_content r <> "" /\
  (String.length (md_description (rec_metadata r)) <= 500)%nat /\
  ((md_content_source (rec_metadata r) = "trafilatura" /\
    md_trafilatura_success (rec_metadata r) = true /\
    exists d, fetch_with_strategy w (url a) = Some d /\
              trafilatura_extract w d = Returns (Some (page_content r))) \/
   (md_content_source (rec_metadata r) = "searxng_fallback" /\
    md_trafilatura_success (rec_metadata r) = false /\
    py_or (content a) (title a) = Some (page_content r))).
Proof. exact (record_shape a s r). Qed.

(** X12. When the page is downloaded, the text extraction returns a
    non-empty text, the metadata extraction returns, and a description
    (extracted, or the stored snippet) is a string: the record of a stored
    article carries the extracted text, is marked as a trafilatura success,
    has metadata merged from the extracted document and the stored article
    (for each key the first non-empty value wins), and, when the UPDATE does
    not fail, the article's row becomes processed with success, the text as
    [extracted_content] and the metadata as [extracted_metadata]. *)
Theorem extraction_success_record (a : article) (s : state) (d text : string)
  (tm : option trafilatura_document) (desc : string) :
  url a <> "" ->
  In a (db s) ->
  update_fault w (url a) = NoFault ->
  fetch_with_strategy w (url a) = Some d -> d <> "" ->
  trafilatura_extract w d = Returns (Some text) -> text <> "" ->
  extract_metadata w d = Returns tm ->
  py_or (meta_get tm doc_description None) (content a) = Some desc ->
  exists r a',
    fst (extract_and_format_enhanced w a s) = Returns (Some r) /\
    rec_id r = url a /\
    page_content r = text /\
    md_content_source (rec_metadata r) = "trafilatura" /\
    md_trafilatura_success (rec_metadata r) = true /\
    merged_metadata w a tm (rec_metadata r) /\
    In a' (db (snd (extract_and_format_enhanced w a s))) /\
    marked_row (url a) true (Some text) (Some (rec_metadata r)) a a'.
Proof.
  intros Hu Hin Hfault Hd Hne Htc Htext Htm Hdesc.
  pose proof (try_trafilatura_parsed _ _ _ _ s Hd Hne Htc Htm) as Htry.
  assert (Htruthy : truthy (Some text) = true).
  { simpl. now rewrite (string_eqb_false _ _ Htext). }
  destruct (extract_computed a s (Some text) tm desc text Hu Htry Hdesc)
    as [md [E [Hcs [Hsucc Hm]]]]; auto.
  { now rewrite Htruthy. }
  rewrite Htruthy in *. rewrite E, Hfault. simpl.
  eexists. exists (update_row (url a) true (Some text) (Some md) a).
  simpl. do 3 (split; [reflexivity|]).
  split; [exact Hcs|]. split; [exact Hsucc|]. split; [exact Hm|].
  split; [now apply in_map|apply update_row_marked].
Qed.


Lemma update_row_same_discovery u success ec em (b : article) :
  same_discovery b (update_row u success ec em b).
Proof.
  unfold update_row, same_discovery.
  destruct (url b =? u); simpl; repeat split; auto.
Qed.

Lemma Forall2_same {A : Type} (R : A -> A -> Prop) (l : list A) :
  (forall x, R x x) -> Forall2 R l l.
Proof. intro H. induction l; constructor; auto. Qed.

(** X14. [extract_and_format_enhanced] never raises and changes nothing
    but the article table; there it keeps the rows in number and order,
    never changes a discovery column, and leaves every row of another url
    exactly as it was. *)
Theorem extraction_touches_one_url (a : article) (s : state) :
  exists o d',
    extract_and_format_enhanced w a s = (Returns o, set_db d' s) /\
    Forall2 (fun b b' => same_discovery b b' /\ (url b <> url a -> b' = b))
      (db s) d'.
Proof.
  assert (Hmark : forall success ec em,
            Forall2 (fun b b' => same_discovery b b' /\ (url b <> url a -> b' = b))
              (db s)
              (mark_as_processed (update_fault w (url a)) (url a) success ec em
                 (db s))).
  { intros success ec em. destruct (update_fault w (url a)); simpl.
    - apply Forall2_map_self. intro b. split.
      + apply update_row_same_discovery.
      + apply update_row_marked.
    - apply Forall2_same. intro b. unfold same_discovery. tauto.
    - apply Forall2_same. intro b. unfold same_discovery. tauto. }
  destruct (extract_cases w a s) as [| |success fc md Hmd].
  - exists None, (db s). rewrite set_db_same. split; auto.
    apply Forall2_same. intro b. unfold same_discovery. tauto.
  - eexists _, _. split; [reflexivity|apply Hmark].
  - eexists _, _. split; [reflexivity|apply Hmark].
Qed.

End Records.

Lemma returned_record_shape_witness :
  let a := stored_example in
  let r := {| rec_id := "https://a.test/1"; page_content := "snippet text";
              rec_metadata := fallback_metadata |} in
  url a <> "" /\
  rec_id r = url a /\
  md_url (rec_metadata r) = url a /\
  page_content r <> "" /\
  (String.length (md_description (rec_metadata r)) <= 500)%nat /\
  ((md_content_source (rec_metadata r) = "trafilatura" /\
    md_trafilatura_success (rec_metadata r) = true /\
    exists d, fetch_with_strategy scenario_world (url a) = Some d /\
              trafilatura_extract scenario_world d =
              Returns (Some (page_content r))) \/
   (md_content_source (rec_metadata r) = "searxng_fallback" /\
    md_trafilatura_success (rec_metadata r) = false /\
    py_or (content a) (title a) = Some (page_content r))).
Proof.
  apply (returned_record_shape scenario_world stored_example
           stored_example_state).
  reflexivity.
Defined.

Lemma extraction_success_record_witness :
  exists r a',
    fst (extract_and_format_enhanced page_extracted_world stored_example
           stored_example_state) = Returns (Some r) /\
    rec_id r = url stored_example /\
    page_content r = "the full text of the article" /\
    md_content_source (rec_metadata r) = "trafilatura" /\
    md_trafilatura_success (rec_metadata r) = true /\
    merged_metadata page_extracted_world stored_example None (rec_metadata r) /\
    In a' (db (snd (extract_and_format_enhanced page_extracted_world
                      stored_example stored_example_state))) /\
    marked_row (url stored_example) true
      (Some "the full text of the article") (Some (rec_metadata r))
      stored_example a'.
Proof.
  apply (extraction_success_record page_extracted_world stored_example
           stored_example_state "<html>page</html>"
           "the full text of the article" None "snippet text").
  - discriminate.
  - simpl. left. reflexivity.
  - reflexivity.
  - reflexivity.
  - discriminate.
  - reflexivity.
  - discriminate.
  - reflexivity.
  - reflexivity.
Defined.


(** ** The processing phase *)

Section Processing.

Import NewsDatabase.

Variable w : world.

Lemma process_articles_raises (articles : list article) :
  forall (recs : list extracted_record) (s : state),
    fst (process_articles w articles recs s) = Raises <->
    exists a, In a articles /\ title a = None.
Proof.
  induction articles as [|a rest IH]; intros recs s; simpl.
  - split; [discriminate|intros [a [[] _]]].
  - destruct (title a) as [t|] eqn:Ht.
    + unfold bind. destruct (extract_returns w a s) as [o Ho].
      destruct (extract_and_format_enhanced w a s) as [o' s1].
      simpl in Ho. subst o'. rewrite IH. split.
      * intros [b [Hb Hn]]. exists b. auto.
      * intros [b [[->|Hb] Hn]]; [congruence|]. exists b. auto.
    + simpl. split; auto. intros _. exists a. auto.
Qed.

(** X15. [process_stored_articles] raises exactly when the SELECT of
    [get_unprocessed_articles] raises (its limit is not a 64-bit integer)
    or one of the articles it selected has a NULL title (the log line
    slices the title); when the SELECT raises, or the oldest selected
    article has a NULL title, it raises before any extraction and leaves
    the state as it was. *)
Theorem null_title_aborts_processing (limit : option Z) (s : state) :
  (fst (process_stored_articles w limit s) = Raises <->
   get_unprocessed_articles limit (db s) = Raises \/
   exists rows a,
     get_unprocessed_articles limit (db s) = Returns rows /\
     In a rows /\ title a = None) /\
  (get_unprocessed_articles limit (db s) = Raises ->
   process_stored_articles w limit s = (Raises, s)) /\
  (forall a rest,
     get_unprocessed_articles limit (db s) = Returns (a :: rest) ->
     title a = None ->
     process_stored_articles w limit s = (Raises, s)).
Proof.
  destruct (process_stored_cases w limit s) as [[El E]|[El E]];
    rewrite E, El.
  - split; [|split].
    + split; auto.
    + reflexivity.
    + discriminate.
  - split; [|split].
    + rewrite process_articles_raises. split.
      * intros [a Ha]. right. exists (unprocessed_rows limit (db s)), a.
        tauto.
      * intros [H|[rows [a [Hr Ha]]]]; [discriminate|].
        injection Hr as <-. exists a. exact Ha.
    + discriminate.
    + intros a rest Hr Ht. injection Hr as Hr. rewrite Hr. simpl.
      now rewrite Ht.
Qed.

Lemma process_articles_records (articles : list article) :
  forall (recs recs' : list extracted_record) (s : state),
    fst (process_articles w articles recs s) = Returns recs' ->
    exists new,
      recs' = recs ++ new /\
      (length new <= length articles)%nat /\
      forall r, In r new -> exists a, In a articles /\ rec_id r = url a.
Proof.
  induction articles as [|a rest IH]; intros recs recs' s; simpl.
  - intro E. injection E as <-. exists []. rewrite app_nil_r.
    repeat split; auto. intros r [].
  - destruct (title a); [|discriminate].
    unfold bind.
    destruct (extract_cases w a s) as [| |success fc md Hmd]; intro E;
      apply IH in E; destruct E as [new [-> [Hlen Hin]]].
    + exists new. repeat split; auto.
      intros r Hr. destruct (Hin r Hr) as [b [Hb E]]. exists b. auto.
    + exists new. repeat split; auto.
      intros r Hr. destruct (Hin r Hr) as [b [Hb E]]. exists b. auto.
    + exists ({| rec_id := url a; page_content := fc; rec_metadata := md |}
                :: new).
      rewrite <- app_assoc. simpl. repeat split; auto; [lia|].
      intros r [<-|Hr].
      * exists a. auto.
      * destruct (Hin r Hr) as [b [Hb E]]. exists b. auto.
Qed.

(** X16. The records that [process_stored_articles] returns come from the
    articles it selected: each record's id is the url of a stored,
    unprocessed article of the selection, there are no more records than
    selected articles, and with a positive limit [n] there are at most [n]. *)
Theorem records_come_from_selection (limit : option Z) (s : state)
  (recs : list extracted_record) :
  fst (process_stored_articles w limit s) = Returns recs ->
  (exists rows,
     get_unprocessed_articles limit (db s) = Returns rows /\
     (length recs <= length rows)%nat) /\
  (forall r, In r recs ->
     exists a, In a (db s) /\ processed a = false /\ rec_id r = url a) /\
  (forall n, limit = Some n -> (0 < n)%Z -> (Z.of_nat (length recs) <= n)%Z).
Proof.
  destruct (process_stored_cases w limit s) as [[El ->]|[El ->]];
    [discriminate|].
  intro E. apply process_articles_records in E.
  destruct E as [new [-> [Hlen Hin]]]. simpl.
  split; [exists (unprocessed_rows limit (db s)); split; [exact El|exact Hlen]|].
  split.
  - intros r Hr. destruct (Hin r Hr) as [a [Ha E]].
    apply unprocessed_in in Ha. exists a. tauto.
  - intros n -> Hn.
    assert (Hl : (length (unprocessed_rows (Some n) (db s))
                  <= Z.to_nat n)%nat).
    { unfold unprocessed_rows, sql_limit.
      replace (n =? 0)%Z with false by (symmetry; apply Z.eqb_neq; lia).
      replace (n <? 0)%Z with false by (symmetry; apply Z.ltb_ge; lia).
      apply firstn_le_length. }
    lia.
Qed.

Lemma row_of_record_marked (a a' : article) (fc : string) (md : metadata) :
  marked_row (url a) (md_trafilatura_success md)
    (if md_trafilatura_success md then Some fc else None) (Some md) a a' ->
  row_of_record {| rec_id := url a; page_content := fc; rec_metadata := md |} a'.
Proof.
  intros [_ H]. destruct (H eq_refl) as [H1 [H2 [H3 [H4 [H5 _]]]]].
  unfold row_of_record. simpl. auto.
Qed.

Lemma process_articles_rows (articles : list article) :
  (forall u, update_fault w u = NoFault) ->
  forall (recs recs' : list extracted_record) (s : state),
    wf_store (db s) ->
    NoDup (map url articles) ->
    (forall a, In a articles -> In a (db s) /\ processed a = false) ->
    (forall r, In r recs ->
       ~ In (rec_id r) (map url articles) /\
       exists a', In a' (db s) /\ row_of_record r a') ->
    fst (process_articles w articles recs s) = Returns recs' ->
    forall r, In r recs' ->
      exists a', In a' (db (snd (process_articles w articles recs s))) /\
                 row_of_record r a'.
Proof.
  intro Hnofault.
  induction articles as [|a rest IH];
    intros recs recs' s Hwf Hnd Hin Hrecs; simpl.
  - intro E. injection E as <-. intros r Hr. now apply Hrecs.
  - destruct (title a); [|discriminate].
    inversion Hnd as [|x l Hnot Hnd']; subst.
    destruct (Hin a (or_introl eq_refl)) as [Ha Hp].
    assert (Hkeep : forall f success ec em b,
              In b (db s) -> url b <> url a ->
              In b (mark_as_processed f (url a) success ec em (db s))).
    { intros. now apply mark_keeps_other. }
    assert (Hrest : forall f success ec em b,
              In b rest ->
              In b (mark_as_processed f (url a) success ec em (db s)) /\
              processed b = false).
    { intros f success ec em b Hb.
      destruct (Hin b (or_intror Hb)) as [Hd Hpb]. split; auto.
      apply Hkeep; auto. intro E. apply Hnot. rewrite <- E. now apply in_map. }
    assert (Hold : forall f success ec em r,
              In r recs ->
              ~ In (rec_id r) (map url rest) /\
              exists a', In a' (mark_as_processed f (url a) success ec em (db s))
                         /\ row_of_record r a').
    { intros f success ec em r Hr.
      destruct (Hrecs r Hr) as [Hno [a' [Ha' Hrow]]].
      split; [simpl in Hno; tauto|].
      exists a'. split; auto. apply Hkeep; auto.
      destruct Hrow as [Hu _]. rewrite Hu. simpl in Hno. intuition. }
    unfold bind.
    destruct (extract_cases w a s) as [| |success fc md Hmd]; cbn [fst snd].
    + apply IH; auto.
      * intros b Hb. apply Hin. now right.
      * intros r Hr. destruct (Hrecs r Hr) as [Hno H]. simpl in Hno. tauto.
    + apply IH; cbn [db set_db]; auto.
      * now apply mark_wf.
    + apply IH; cbn [db set_db]; auto.
      * now apply mark_wf.
      * intros r Hr. apply in_app_or in Hr. destruct Hr as [Hr|[<-|[]]]; auto.
        split; [exact Hnot|].
        rewrite Hnofault. simpl.
        exists (update_row (url a) success (if success then Some fc else None)
                  (Some md) a).
        split; [now apply in_map|].
        apply row_of_record_marked. rewrite Hmd. apply update_row_marked.
Qed.

(** X17. After [process_stored_articles] has returned (no UPDATE failing,
    the urls of the table being distinct), the table agrees with the
    records: for each returned record there is a row with the record's id as
    url that is processed, has the record's metadata as
    [extracted_metadata] and the record's success flag, and has the
    record's content as [extracted_content] exactly when that flag is set. *)
Theorem records_agree_with_table (limit : option Z) (s : state)
  (recs : list extracted_record) (r : extracted_record) :
  (forall u, update_fault w u = NoFault) ->
  wf_store (db s) ->
  fst (process_stored_articles w limit s) = Returns recs ->
  In r recs ->
  exists a', In a' (db (snd (process_stored_articles w limit s))) /\
             row_of_record r a'.
Proof.
  intros Hnofault Hwf E Hr.
  destruct (process_stored_cases w limit s) as [[_ Ep]|[_ Ep]];
    rewrite Ep in *; [discriminate|].
  apply (process_articles_rows _ Hnofault [] recs s); auto.
  - now apply unprocessed_NoDup.
  - intro a. apply unprocessed_in.
  - intros r0 [].
Qed.

End Processing.

Lemma null_title_aborts_processing_witness :
  let s := {| db := [null_title_article; stored_example]; documents := [];
              embed_calls := [] |} in
  let big := Some 9223372036854775808%Z in
  (NewsDatabase.get_unprocessed_articles None (db s) =
     Returns [null_title_article; stored_example] /\
   title null_title_article = None) /\
  fst (process_stored_articles scenario_world None s) = Raises /\
  process_stored_articles scenario_world None s = (Raises, s) /\
  NewsDatabase.get_unprocessed_articles big (db stored_example_state) =
    Raises /\
  process_stored_articles scenario_world big stored_example_state =
    (Raises, stored_example_state).
Proof.
  split; [split; reflexivity|]. split; [|split; [|split; [reflexivity|]]].
  - apply (proj1 (null_title_aborts_processing scenario_world None
                    {| db := [null_title_article; stored_example];
                       documents := []; embed_calls := [] |})).
    right. exists [null_title_article; stored_example], null_title_article.
    split; [reflexivity|]. split; [simpl; left|]; reflexivity.
  - apply (proj2 (proj2 (null_title_aborts_processing scenario_world None
                    {| db := [null_title_article; stored_example];
                       documents := []; embed_calls := [] |}))
             null_title_article [stored_example]); reflexivity.
  - apply (proj1 (proj2 (null_title_aborts_processing scenario_world
                    (Some 9223372036854775808%Z) stored_example_state))).
    reflexivity.
Defined.

Lemma records_come_from_selection_witness :
  let recs := [{| rec_id := "https://a.test/1"; page_content := "snippet text";
                  rec_metadata := fallback_metadata |}] in
  (exists rows,
     NewsDatabase.get_unprocessed_articles (Some 5%Z)
       (db stored_example_state) = Returns rows /\
     (length recs <= length rows)%nat) /\
  (forall r, In r recs ->
     exists a, In a (db stored_example_state) /\ processed a = false /\
               rec_id r = url a) /\
  (forall n, Some 5%Z = Some n -> (0 < n)%Z -> (Z.of_nat (length recs) <= n)%Z).
Proof.
  apply (records_come_from_selection scenario_world (Some 5%Z)
           stored_example_state).
  reflexivity.
Defined.

Lemma records_agree_with_table_witness :
  let r := {| rec_id := "https://a.test/1"; page_content := "snippet text";
              rec_metadata := fallback_metadata |} in
  exists a',
    In a' (db (snd (process_stored_articles scenario_world None
                      stored_example_state))) /\
    row_of_record r a'.
Proof.
  apply (records_agree_with_table scenario_world None stored_example_state
           [{| rec_id := "https://a.test/1"; page_content := "snippet text";
               rec_metadata := fallback_metadata |}]).
  - reflexivity.
  - repeat constructor. simpl. tauto.
  - reflexivity.
  - simpl. left. reflexivity.
Defined.

(** ** Embedding and upload *)

Section Upload.

Variable w : world.

Lemma embed_documents_all (texts : list string) :
  forall s, Forall (embeds w) texts ->
    embed_documents w texts s =
    (Returns (map (embedding_of w) texts), add_embed_calls texts s).
Proof.
  induction texts as [|t rest IH]; intros s Hall; simpl.
  - unfold ret, add_embed_calls. rewrite app_nil_r. now destruct s.
  - inversion Hall as [|x l Ht Hrest]; subst.
    unfold bind, embedding_of. unfold embeds in Ht.
    destruct (get_embedding w t) as [v|]; [|congruence].
    fold (add_embed_calls [t] s). rewrite (IH _ Hrest).
    unfold ret, add_embed_calls. simpl. now rewrite <- app_assoc.
Qed.

Lemma embed_documents_stops (pre : list string) (bad : string)
  (post : list string) :
  forall s, Forall (embeds w) pre -> get_embedding w bad = Raises ->
    embed_documents w (pre ++ bad :: post) s =
    (Raises, add_embed_calls (pre ++ [bad]) s).
Proof.
  induction pre as [|t rest IH]; intros s Hall Hbad; simpl.
  - unfold bind. now rewrite Hbad.
  - inversion Hall as [|x l Ht Hrest]; subst.
    unfold bind. unfold embeds in Ht.
    destruct (get_embedding w t) as [v|]; [|congruence].
    fold (add_embed_calls [t] s). rewrite (IH _ Hrest Hbad).
    unfold add_embed_calls. simpl. now rewrite <- app_assoc.
Qed.

(** X18. [embed_documents] asks the model for the texts one by one, in
    order: when the model answers for all of them it returns their vectors
    in the order of the texts; when it raises on a text it raises too,
    having asked for the texts up to and including that one and for none
    after it. *)
Theorem embed_documents_in_order (s : state) :
  (forall texts, Forall (embeds w) texts ->
     embed_documents w texts s =
     (Returns (map (embedding_of w) texts), add_embed_calls texts s)) /\
  (forall pre bad post,
     Forall (embeds w) pre -> get_embedding w bad = Raises ->
     embed_documents w (pre ++ bad :: post) s =
     (Raises, add_embed_calls (pre ++ [bad]) s)).
Proof.
  split.
  - intros texts. apply embed_documents_all.
  - intros pre bad post. apply embed_documents_stops.
Qed.

Lemma rows_of_expected (batch : list (string * chunk_metadata)) :
  rows_of batch (map (embedding_of w) (map fst batch)) = expected_rows w batch.
Proof.
  induction batch as [|[text meta] batch IH]; simpl; auto.
  now rewrite IH.
Qed.

Lemma embeds_or_fails (texts : list string) :
  Forall (embeds w) texts \/
  exists chunk, In chunk texts /\ get_embedding w chunk = Raises.
Proof.
  induction texts as [|t rest [IH|[chunk [Hin Hf]]]].
  - left. constructor.
  - destruct (get_embedding w t) as [v|] eqn:E.
    + left. constructor; auto. unfold embeds. congruence.
    + right. exists t. split; [now left|auto].
  - right. exists chunk. split; [now right|auto].
Qed.

(** X19. When the clients can be created, the model answers for every
    chunk of the batch and the insert request succeeds, the upload appends
    to the [documents] table exactly one row per chunk, in the order of the
    batch, each with the chunk as content, the metadata of its record with
    the record's id as [source_id], and the chunk's embedding. *)
Theorem upload_appends_batch (records : list extracted_record) (s : state) :
  create_clients w = Returns tt ->
  Forall (embeds w) (map fst (batch_of w records)) ->
  supabase_insert w (expected_rows w (batch_of w records)) = Returns tt ->
  process_and_upload_json_records w records s =
  (Returns tt,
   {| db := db s;
      documents := documents s ++ expected_rows w (batch_of w records);
      embed_calls := embed_calls s ++ map fst (batch_of w records) |}) /\
  map dr_content (expected_rows w (batch_of w records)) =
  map fst (batch_of w records).
Proof.
  intros Hc Hall Hins. split.
  - assert (Hnone : forall st : state,
              (Returns tt, st) =
              (Returns tt,
               {| db := db st; documents := documents st ++ [];
                  embed_calls := embed_calls st ++ [] |})).
    { intro st. rewrite !app_nil_r. now destruct st. }
    unfold process_and_upload_json_records.
    destruct records as [|r records]; [apply Hnone|].
    rewrite Hc.
    remember (batch_of w (r :: records)) as b eqn:Hb.
    destruct b as [|p batch]; [apply Hnone|].
    unfold try_except, bind.
    rewrite (embed_documents_all _ s Hall), rows_of_expected.
    unfold insert_documents. rewrite Hins. reflexivity.
  - unfold expected_rows. rewrite map_map. reflexivity.
Qed.

Lemma upload_result (records : list extracted_record) (s : state) :
  exists rows calls rest,
    process_and_upload_json_records w records s =
    (Returns tt,
     {| db := db s; documents := documents s ++ rows;
        embed_calls := embed_calls s ++ calls |}) /\
    map fst (batch_of w records) = calls ++ rest /\
    (rows = [] \/
     (rows = expected_rows w (batch_of w records) /\ rest = [] /\
      Forall (embeds w) calls)).
Proof.
  remember (batch_of w records) as b eqn:Hb.
  assert (Hnone : exists rows calls rest,
            (Returns tt, s) =
            (Returns tt,
             {| db := db s; documents := documents s ++ rows;
                embed_calls := embed_calls s ++ calls |}) /\
            map fst b = calls ++ rest /\
            (rows = [] \/
             (rows = expected_rows w b /\ rest = [] /\
              Forall (embeds w) calls))).
  { exists [], [], (map fst b).
    rewrite !app_nil_r. split; [now destruct s|]. split; auto. }
  unfold process_and_upload_json_records.
  destruct records as [|r records]; [exact Hnone|].
  destruct (create_clients w) as [[]|]; [|exact Hnone].
  rewrite <- Hb.
  destruct b as [|p batch]; [exact Hnone|].
  clear Hnone.
  unfold try_except, bind.
  destruct (embeds_or_fails (map fst (p :: batch)))
    as [Hall|[chunk [Hin Hf]]].
  - rewrite (embed_documents_all _ s Hall), rows_of_expected.
    unfold insert_documents.
    destruct (supabase_insert w (expected_rows w (p :: batch))).
    + exists (expected_rows w (p :: batch)), (map fst (p :: batch)), [].
      rewrite app_nil_r. split; [reflexivity|]. split; auto.
    + exists [], (map fst (p :: batch)), [].
      rewrite !app_nil_r. split; [reflexivity|]. split; auto.
  - destruct (embed_documents_failure w _ s chunk Hin Hf)
      as [calls [rest [E1 E2]]].
    rewrite E2. exists [], calls, rest.
    rewrite app_nil_r. split; [reflexivity|]. split; auto.
Qed.

(** X20. The upload never raises and never changes the article table or
    the rows already in the [documents] table. Either it inserts nothing,
    or it inserts the rows of the whole batch, the model having answered for
    every chunk; and the texts it sent to the model are an initial part of
    the batch. *)
Theorem upload_all_or_nothing (records : list extracted_record) (s : state) :
  exists rows calls rest,
    process_and_upload_json_records w records s =
    (Returns tt,
     {| db := db s; documents := documents s ++ rows;
        embed_calls := embed_calls s ++ calls |}) /\
    map fst (batch_of w records) = calls ++ rest /\
    (rows = [] \/
     (rows = expected_rows w (batch_of w records) /\ rest = [] /\
      Forall (embeds w) calls)).
Proof. exact (upload_result records s). Qed.

Lemma batch_members_iff (records : list extracted_record) (chunk : string)
  (meta : chunk_metadata) :
  (In (chunk, meta) (batch_of w records) <->
   exists record,
     In record records /\
     page_content record <> "" /\
     (50 <= String.length (strip (page_content record)))%nat /\
     In chunk (split_text w CHUNK_SIZE CHUNK_OVERLAP (page_content record)) /\
     (20 < String.length (strip chunk))%nat /\
     meta = {| cm_metadata := rec_metadata record;
               cm_source_id := rec_id record |}) /\
  (forall more, batch_of w (records ++ more) =
                batch_of w records ++ batch_of w more).
Proof.
  split.
  - unfold batch_of. rewrite in_flat_map. split.
    + intros [record [Hrec Hin]]. exists record. split; auto.
      unfold chunks_of_record, long_enough in Hin.
      destruct (page_content record =? "") eqn:He; [destruct Hin|].
      destruct (String.length (strip (page_content record)) <? 50)%nat eqn:Hl;
        [destruct Hin|].
      simpl in Hin. apply in_map_iff in Hin. destruct Hin as [c [E Hc]].
      injection E as -> <-. apply filter_In in Hc. destruct Hc as [Hc Hm].
      apply String.eqb_neq in He. apply Nat.ltb_ge in Hl.
      unfold meaningful in Hm. apply Nat.ltb_lt in Hm. auto 10.
    + intros [record [Hrec [Hne [Hlong [Hc [Hm ->]]]]]].
      exists record. split; auto.
      unfold chunks_of_record, long_enough.
      rewrite (string_eqb_false _ _ Hne).
      apply Nat.ltb_ge in Hlong. rewrite Hlong. simpl.
      apply in_map_iff. exists chunk. split; auto.
      apply filter_In. split; auto. unfold meaningful. now apply Nat.ltb_lt.
  - intro more. unfold batch_of. apply flat_map_app.
Qed.

(** X21. The batch holds, record after record and in the order of the
    splitter, exactly the chunks of more than 20 characters (once trimmed)
    of the records whose body is not empty and has at least 50 characters
    (once trimmed), each paired with its record's metadata and id. *)
Theorem batch_members (records : list extracted_record) (chunk : string)
  (meta : chunk_metadata) :
  (In (chunk, meta) (batch_of w records) <->
   exists record,
     In record records /\
     page_content record <> "" /\
     (50 <= String.length (strip (page_content record)))%nat /\
     In chunk (split_text w CHUNK_SIZE CHUNK_OVERLAP (page_content record)) /\
     (20 < String.length (strip chunk))%nat /\
     meta = {| cm_metadata := rec_metadata record;
               cm_source_id := rec_id record |}) /\
  (forall more, batch_of w (records ++ more) =
                batch_of w records ++ batch_of w more).
Proof. exact (batch_members_iff records chunk meta). Qed.

End Upload.

Lemma embed_documents_in_order_witness :
  embed_documents embedding_fails_world [string_repeat "A" 30] initial_state =
  (Returns (map (embedding_of embedding_fails_world) [string_repeat "A" 30]),
   add_embed_calls [string_repeat "A" 30] initial_state) /\
  embed_documents embedding_fails_world
    ([string_repeat "A" 30] ++ string_repeat "B" 30 :: [string_repeat "C" 30])
    initial_state =
  (Raises,
   add_embed_calls ([string_repeat "A" 30] ++ [string_repeat "B" 30])
     initial_state).
Proof.
  split.
  - apply (proj1 (embed_documents_in_order embedding_fails_world initial_state)).
    repeat constructor. unfold embeds. vm_compute. discriminate.
  - apply (proj2 (embed_documents_in_order embedding_fails_world initial_state)).
    + repeat constructor. unfold embeds. vm_compute. discriminate.
    + reflexivity.
Defined.

Lemma upload_appends_batch_witness :
  process_and_upload_json_records paragraph_world [two_paragraphs_record]
    initial_state =
  (Returns tt,
   {| db := db initial_state;
      documents :=
        documents initial_state ++
        expected_rows paragraph_world
          (batch_of paragraph_world [two_paragraphs_record]);
      embed_calls :=
        embed_calls initial_state ++
        map fst (batch_of paragraph_world [two_paragraphs_record]) |}) /\
  map dr_content
    (expected_rows paragraph_world
       (batch_of paragraph_world [two_paragraphs_record])) =
  map fst (batch_of paragraph_world [two_paragraphs_record]).
Proof.
  apply (upload_appends_batch paragraph_world [two_paragraphs_record]
           initial_state).
  - reflexivity.
  - vm_compute. repeat constructor. discriminate.
  - reflexivity.
Defined.

(** ** The orchestrator *)

Section Orchestrator.

Import NewsDatabase.

Lemma grows_refl (s : state) : grows s s.
Proof. repeat split; exists []; now rewrite app_nil_r. Qed.

Lemma grows_trans (s1 s2 s3 : state) : grows s1 s2 -> grows s2 s3 -> grows s1 s3.
Proof.
  intros [[u1 H1] [[r1 H2] [c1 H3]]] [[u2 H4] [[r2 H5] [c2 H6]]].
  repeat split.
  - exists (u1 ++ u2). now rewrite H4, H1, app_assoc.
  - exists (r1 ++ r2). now rewrite H5, H2, app_assoc.
  - exists (c1 ++ c2). now rewrite H6, H3, app_assoc.
Qed.

Lemma grows_set_db (s : state) (d' : store) (urls : list string) :
  map url d' = map url (db s) ++ urls -> grows s (set_db d' s).
Proof.
  intro H. repeat split; simpl.
  - now exists urls.
  - exists []. now rewrite app_nil_r.
  - exists []. now rewrite app_nil_r.
Qed.

Lemma process_articles_frame (w : world) (articles : list article) :
  forall (recs : list extracted_record) (s : state),
    exists d', snd (process_articles w articles recs s) = set_db d' s /\
               map url d' = map url (db s).
Proof.
  induction articles as [|a rest IH]; intros recs s; simpl.
  - exists (db s). now rewrite set_db_same.
  - destruct (title a); [|exists (db s); now rewrite set_db_same].
    unfold bind.
    destruct (extract_cases w a s) as [| |success fc md Hmd].
    + apply IH.
    + match goal with |- context [process_articles w rest ?r ?s1] =>
        destruct (IH r s1) as [d' [E Hu]] end.
      exists d'. rewrite E. split; [reflexivity|].
      simpl in Hu. now rewrite Hu, mark_urls.
    + match goal with |- context [process_articles w rest ?r ?s1] =>
        destruct (IH r s1) as [d' [E Hu]] end.
      exists d'. rewrite E. split; [reflexivity|].
      simpl in Hu. now rewrite Hu, mark_urls.
Qed.

Lemma process_articles_all (w : world) (P : extracted_record -> Prop)
  (articles : list article) :
  (forall a s r, In a articles ->
     fst (extract_and_format_enhanced w a s) = Returns (Some r) -> P r) ->
  forall (recs recs' : list extracted_record) (s : state),
    Forall P recs ->
    fst (process_articles w articles recs s) = Returns recs' ->
    Forall P recs'.
Proof.
  induction articles as [|a rest IH]; intros HP recs recs' s Hrecs; simpl.
  - intro E. now injection E as <-.
  - destruct (title a); [|discriminate].
    unfold bind.
    pose proof (HP a s) as Ha.
    destruct (extract_and_format_enhanced w a s) as [[o|] s1]; [|discriminate].
    apply IH.
    + intros b s' r Hb. apply HP. now right.
    + destruct o as [r|]; auto.
      apply Forall_app. split; auto. constructor; auto.
      apply Ha; [now left|reflexivity].
Qed.

Lemma process_stored_articles_frame (w : world) (limit : option Z)
  (s : state) :
  exists d', snd (process_stored_articles w limit s) = set_db d' s /\
             map url d' = map url (db s).
Proof.
  destruct (process_stored_cases w limit s) as [[_ E]|[_ E]]; rewrite E.
  - exists (db s). now rewrite set_db_same.
  - apply process_articles_frame.
Qed.

Lemma process_stored_articles_all (w : world) (limit : option Z) (s : state)
  (recs : list extracted_record) :
  fst (process_stored_articles w limit s) = Returns recs ->
  Forall (fun r => In (rec_id r) (map url (db s)) /\
                   md_url (rec_metadata r) = rec_id r) recs.
Proof.
  destruct (process_stored_cases w limit s) as [[_ E]|[_ E]]; rewrite E;
    [discriminate|].
  intro Er. eapply process_articles_all; [|constructor|exact Er].
  intros a s0 r Ha Hr.
  destruct (record_shape w a s0 r Hr) as [_ [Hid [Hmd _]]].
  apply unprocessed_in in Ha. split.
  - rewrite Hid. apply in_map. tauto.
  - congruence.
Qed.

Lemma run_complete_pipeline_grows (w : world) (topic searx_url : string)
  (max_pages : Z) (time_range : pytext) (process_limit : option Z) (s : state) :
  grows s (snd (run_complete_pipeline w topic searx_url max_pages time_range
                  process_limit s)).
Proof.
  unfold run_complete_pipeline, collect_searxng_articles, bind.
  destruct (collect_pages_extends w topic searx_url time_range
              (page_range max_pages) 0%Z s) as [added [E1 _]].
  rewrite E1.
  assert (G1 : grows s (set_db (db s ++ added) s)).
  { apply (grows_set_db s _ (map url added)). apply map_app. }
  match goal with |- context [process_stored_articles w ?l ?s1] =>
    destruct (process_stored_articles_frame w l s1) as [d2 [E2 Hu]];
    destruct (process_stored_articles w l s1) as [o2 s2] end.
  cbn [snd] in E2. cbn [db set_db] in Hu. rewrite set_db_set_db in E2. subst s2.
  assert (G2 : grows s (set_db d2 s)).
  { apply (grows_set_db s _ (map url added)). now rewrite Hu, map_app. }
  destruct o2 as [recs|]; [|exact G2].
  destruct recs as [|r recs]; [exact G2|].
  destruct (upload_result w (r :: recs) (set_db d2 s))
    as [rows [calls [rest [E3 _]]]].
  rewrite E3. eapply grows_trans; [exact G2|].
  repeat split; simpl.
  - exists []. now rewrite app_nil_r.
  - now exists rows.
  - now exists calls.
Qed.

Lemma run_topics_step (r : run) (rest : list run) (s : state) :
  run_topics (r :: rest) s =
  run_topics rest
    (snd (run_complete_pipeline (run_world r) (run_topic r) (run_searx_url r)
            (run_max_pages r) (run_time_range r) (run_process_limit r) s)).
Proof.
  simpl. unfold bind, try_except.
  destruct (run_complete_pipeline (run_world r) (run_topic r) (run_searx_url r)
              (run_max_pages r) (run_time_range r) (run_process_limit r) s)
    as [[[]|] s1]; reflexivity.
Qed.

Lemma run_topics_returns (runs : list run) :
  forall s, fst (run_topics runs s) = Returns tt.
Proof.
  induction runs as [|r rest IH]; intro s; [reflexivity|].
  rewrite run_topics_step. apply IH.
Qed.

Lemma run_topics_app (runs1 runs2 : list run) :
  forall s, run_topics (runs1 ++ runs2) s =
            run_topics runs2 (snd (run_topics runs1 s)).
Proof.
  induction runs1 as [|r rest IH]; intro s; [reflexivity|].
  rewrite <- app_comm_cons, !run_topics_step. apply IH.
Qed.

Lemma run_topics_grows (runs : list run) :
  forall s, grows s (snd (run_topics runs s)).
Proof.
  induction runs as [|r rest IH]; intro s; [apply grows_refl|].
  rewrite run_topics_step.
  eapply grows_trans; [apply run_complete_pipeline_grows|apply IH].
Qed.

(** X22. The topic loop never raises, and every topic is run from the state
    that the topic before it left, whether that one returned or raised:
    the state after a list of topics followed by another is the state after
    the second list, run from the state after the first. *)
Theorem topics_are_isolated (runs1 runs2 : list run) (r : run) (s : state) :
  fst (run_topics runs1 s) = Returns tt /\
  run_topics (runs1 ++ runs2) s = run_topics runs2 (snd (run_topics runs1 s)) /\
  run_topics [r] s =
  (Returns tt,
   snd (run_complete_pipeline (run_world r) (run_topic r) (run_searx_url r)
          (run_max_pages r) (run_time_range r) (run_process_limit r) s)).
Proof.
  split; [apply run_topics_returns|]. split; [apply run_topics_app|].
  apply run_topics_step.
Qed.

(** X23. Over any sequence of pipeline runs nothing is removed or
    reordered: the urls of the article table, the rows of the [documents]
    table and the texts sent to the embedding model are, after the runs,
    those from before followed by new ones. *)
Theorem runs_only_append (runs : list run) (s : state) :
  let s' := snd (run_topics runs s) in
  (exists urls, map url (db s') = map url (db s) ++ urls) /\
  (exists rows, documents s' = documents s ++ rows) /\
  (exists calls, embed_calls s' = embed_calls s ++ calls).
Proof. exact (run_topics_grows runs s). Qed.

Lemma document_of_store_mono (d d' : store) (row : document_row) :
  (forall u, In u (map url d) -> In u (map url d')) ->
  document_of_store d row -> document_of_store d' row.
Proof. intros Hsub [H1 H2]. split; auto. Qed.

Lemma run_complete_pipeline_documents (w : world) (topic searx_url : string)
  (max_pages : Z) (time_range : pytext) (process_limit : option Z) (s : state) :
  Forall (document_of_store (db s)) (documents s) ->
  let s' := snd (run_complete_pipeline w topic searx_url max_pages time_range
                   process_limit s) in
  Forall (document_of_store (db s')) (documents s').
Proof.
  intros Hdocs.
  unfold run_complete_pipeline, collect_searxng_articles, bind.
  destruct (collect_pages_extends w topic searx_url time_range
              (page_range max_pages) 0%Z s) as [added [E1 _]].
  rewrite E1.
  assert (Hrecs : forall recs,
            fst (process_stored_articles w process_limit
                   (set_db (db s ++ added) s)) = Returns recs ->
            Forall (fun r => In (rec_id r) (map url (db s ++ added)) /\
                             md_url (rec_metadata r) = rec_id r) recs).
  { intros recs E. exact (process_stored_articles_all w _ _ recs E). }
  match goal with |- context [process_stored_articles w ?l ?s1] =>
    destruct (process_stored_articles_frame w l s1) as [d2 [E2 Hu]];
    destruct (process_stored_articles w l s1) as [o2 s2] end.
  cbn [snd] in E2. cbn [db set_db] in Hu. rewrite set_db_set_db in E2. subst s2.
  assert (Hsub : forall u, In u (map url (db s)) -> In u (map url d2)).
  { intros u Hin. rewrite Hu, map_app. apply in_or_app. now left. }
  assert (Hkeep : Forall (document_of_store d2) (documents s)).
  { eapply Forall_impl; [|exact Hdocs].
    intro row. now apply document_of_store_mono. }
  destruct o2 as [recs|]; [|exact Hkeep].
  pose proof (Hrecs recs eq_refl) as Hall.
  destruct recs as [|r recs]; [exact Hkeep|].
  destruct (upload_result w (r :: recs) (set_db d2 s))
    as [rows [calls [rest [E3 [_ Hrows]]]]].
  rewrite E3. cbn [snd db documents set_db].
  apply Forall_app. split; [exact Hkeep|].
  destruct Hrows as [->|[-> _]]; [constructor|].
  unfold expected_rows. rewrite Forall_forall. intros row Hrow.
  apply in_map_iff in Hrow. destruct Hrow as [[chunk meta] [<- Hp]].
  apply (batch_members_iff w) in Hp.
  destruct Hp as [record [Hrec [_ [_ [_ [Hlen ->]]]]]].
  rewrite Forall_forall in Hall. destruct (Hall record Hrec) as [H1 H2].
  unfold document_of_store. simpl. rewrite Hu. auto.
Qed.

Lemma run_topics_documents (runs : list run) :
  forall s, Forall (document_of_store (db s)) (documents s) ->
    Forall (document_of_store (db (snd (run_topics runs s))))
      (documents (snd (run_topics runs s))).
Proof.
  induction runs as [|r rest IH]; intros s H; [exact H|].
  rewrite run_topics_step. apply IH.
  now apply run_complete_pipeline_documents.
Qed.

(** X24. After any sequence of pipeline runs from the empty state, every
    row of the [documents] table belongs to a stored article: its
    [source_id] is the url of a row of the article table and is the url
    held in its metadata, and its content has more than 20 characters once
    trimmed. *)
Theorem documents_belong_to_articles (runs : list run) (row : document_row) :
  let s := snd (run_topics runs initial_state) in
  In row (documents s) ->
  In (cm_source_id (dr_metadata row)) (map url (db s)) /\
  md_url (cm_metadata (dr_metadata row)) = cm_source_id (dr_metadata row) /\
  (20 < String.length (strip (dr_content row)))%nat.
Proof.
  intros s Hin.
  pose proof (run_topics_documents runs initial_state (Forall_nil _)) as H.
  rewrite Forall_forall in H. exact (H row Hin).
Qed.

End Orchestrator.

Lemma documents_belong_to_articles_witness :
  let s := snd (run_topics [long_text_run] initial_state) in
  let row := {| dr_content := string_repeat "t" 60;
                dr_metadata := {| cm_metadata := example_metadata;
                                  cm_source_id := "https://a.test/1" |};
                dr_embedding := [] |} in
  In (cm_source_id (dr_metadata row)) (map url (db s)) /\
  md_url (cm_metadata (dr_metadata row)) = cm_source_id (dr_metadata row) /\
  (20 < String.length (strip (dr_content row)))%nat.
Proof.
  apply (documents_belong_to_articles [long_text_run]
           {| dr_content := string_repeat "t" 60;
              dr_metadata := {| cm_metadata := example_metadata;
                                cm_source_id := "https://a.test/1" |};
              dr_embedding := [] |}).
  vm_compute. left. reflexivity.
Defined.

(** ** Runs that change nothing, and the domain of a url *)

Section Blocked.

Import NewsDatabase.

Lemma inserted_from_unprocessed (items : list searx_result) (a : article) :
  inserted_from items a -> processed a = false.
Proof. intros [item [_ [_ [_ ->]]]]. reflexivity. Qed.

Lemma listing_app (d added : store) :
  Forall (fun b => processed b = false) added ->
  unprocessed_rows None (d ++ added) =
  unprocessed_rows None d ++ added.
Proof.
  intro H. unfold unprocessed_rows. rewrite filter_app. f_equal.
  induction added as [|b added IH]; simpl; auto.
  inversion H as [|x l Hb Hrest]; subst. rewrite Hb. simpl. now rewrite IH.
Qed.

Lemma listing_head (d : store) (a : article) (rest : list article)
  (limit : option Z) :
  unprocessed_rows None d = a :: rest ->
  exists rest', unprocessed_rows limit d = a :: rest'.
Proof.
  unfold unprocessed_rows, sql_limit. intro E. rewrite E.
  destruct limit as [n|]; eauto.
  destruct (n =? 0)%Z eqn:Hz; eauto.
  destruct (n <? 0)%Z eqn:Hn; eauto.
  apply Z.eqb_neq in Hz. apply Z.ltb_ge in Hn.
  destruct (Z.to_nat n) as [|k] eqn:Hk; [lia|].
  simpl. eauto.
Qed.

Lemma run_blocked (w : world) (topic searx_url : string) (max_pages : Z)
  (time_range : pytext) (process_limit : option Z) (s : state) (a : article)
  (rest : list article) :
  unprocessed_rows None (db s) = a :: rest ->
  title a = None ->
  exists added,
    run_complete_pipeline w topic searx_url max_pages time_range
      process_limit s = (Raises, set_db (db s ++ added) s) /\
    Forall (fun b => processed b = false) added.
Proof.
  intros Hlist Htitle.
  unfold run_complete_pipeline, collect_searxng_articles, bind.
  destruct (collect_pages_extends w topic searx_url time_range
              (page_range max_pages) 0%Z s) as [added [E1 [_ Hfrom]]].
  rewrite E1.
  assert (Hun : Forall (fun b => processed b = false) added).
  { eapply Forall_impl; [|exact Hfrom]. apply inserted_from_unprocessed. }
  exists added. split; auto.
  destruct (process_stored_cases w process_limit (set_db (db s ++ added) s))
    as [[_ E]|[_ E]]; rewrite E; [reflexivity|].
  cbn [db set_db].
  destruct (listing_head (db s ++ added) a (rest ++ added) process_limit)
    as [rest' E'].
  { now rewrite (listing_app _ _ Hun), Hlist. }
  rewrite E'. simpl. rewrite Htitle. reflexivity.
Qed.

(** X25. An unprocessed article with a NULL title, once it is the oldest
    unprocessed one, blocks the pipeline for good: every later run, with
    whatever collaborators and limit, raises in the processing phase before
    any extraction, so that over any sequence of runs no row is ever marked,
    nothing is embedded or uploaded, and the table only receives new
    unprocessed rows. *)
Theorem null_title_blocks_all_runs (runs : list run) (s : state) (a : article)
  (rest : list article) :
  get_unprocessed_articles None (db s) = Returns (a :: rest) ->
  title a = None ->
  exists added,
    run_topics runs s = (Returns tt, set_db (db s ++ added) s) /\
    Forall (fun b => processed b = false) added /\
    get_unprocessed_articles None (db s ++ added) =
      Returns (a :: rest ++ added).
Proof.
  intros Hl Htitle.
  assert (Hlist : unprocessed_rows None (db s) = a :: rest)
    by (rewrite listing_unlimited in Hl; congruence).
  clear Hl.
  assert (Hgoal : exists added,
            run_topics runs s = (Returns tt, set_db (db s ++ added) s) /\
            Forall (fun b => processed b = false) added /\
            unprocessed_rows None (db s ++ added) = a :: rest ++ added);
    [|destruct Hgoal as [added [H1 [H2 H3]]]; exists added;
      rewrite listing_unlimited, H3; auto].
  revert s rest Hlist Htitle.
  induction runs as [|r runs IH]; intros s rest Hlist Htitle.
  - exists []. simpl. unfold ret. rewrite !app_nil_r, set_db_same.
    repeat split; auto.
  - rewrite run_topics_step.
    destruct (run_blocked (run_world r) (run_topic r) (run_searx_url r)
                (run_max_pages r) (run_time_range r) (run_process_limit r)
                s a rest Hlist Htitle) as [added1 [E1 Hun1]].
    rewrite E1. cbn [snd].
    destruct (IH (set_db (db s ++ added1) s) (rest ++ added1))
      as [added2 [E2 [Hun2 Hl2]]]; auto.
    { cbn [db set_db]. now rewrite (listing_app _ _ Hun1), Hlist. }
    cbn [db set_db] in E2, Hl2. rewrite set_db_set_db in E2.
    exists (added1 ++ added2). rewrite app_assoc.
    split; [exact E2|]. split.
    + apply Forall_app. auto.
    + rewrite Hl2. simpl. now rewrite app_assoc.
Qed.

(** X26. A run that finds no new article on a table without unprocessed
    rows changes nothing: when every search result of the pages it reads
    would be ignored by an insert and no row is unprocessed, the state
    after [run_complete_pipeline] is the state before it, nothing having
    been extracted, embedded or uploaded. The run returns when its process
    limit is absent or a 64-bit integer, and raises (from the SELECT of
    [get_unprocessed_articles]) when the limit is any other integer. *)
Theorem quiet_run_changes_nothing (w : world) (topic searx_url : string)
  (max_pages : Z) (time_range : pytext) (process_limit : option Z) (s : state) :
  settled w (visited_items w topic searx_url time_range (page_range max_pages))
    (db s) ->
  get_unprocessed_articles None (db s) = Returns [] ->
  ((forall n, process_limit = Some n -> sql_integer n = true) ->
   run_complete_pipeline w topic searx_url max_pages time_range
     process_limit s = (Returns tt, s)) /\
  (forall n, process_limit = Some n -> sql_integer n = false ->
   run_complete_pipeline w topic searx_url max_pages time_range
     process_limit s = (Raises, s)).
Proof.
  intros Hsettled Hl.
  assert (Hnone : unprocessed_rows None (db s) = [])
    by (rewrite listing_unlimited in Hl; congruence).
  clear Hl.
  unfold run_complete_pipeline, collect_searxng_articles, bind.
  rewrite (collect_pages_settled w topic searx_url time_range _ 0%Z s Hsettled).
  assert (E : unprocessed_rows process_limit (db s) = []).
  { revert Hnone. unfold unprocessed_rows, sql_limit. intros ->.
    destruct process_limit as [n|]; auto.
    destruct (n =? 0)%Z; auto. destruct (n <? 0)%Z; auto.
    apply firstn_nil. }
  unfold process_stored_articles, bind. split.
  - intro Hok.
    assert (El : get_unprocessed_articles process_limit (db s) = Returns []).
    { rewrite <- E. destruct process_limit as [n|]; [|reflexivity].
      apply listing_accepted. now apply Hok. }
    rewrite El. reflexivity.
  - intros n -> Hbad. rewrite (listing_rejected n (db s) Hbad). reflexivity.
Qed.

End Blocked.

Lemma null_title_blocks_all_runs_witness :
  let s := {| db := [null_title_article; stored_example]; documents := [];
              embed_calls := [] |} in
  exists added,
    run_topics [scenario_run; long_text_run] s =
    (Returns tt, set_db (db s ++ added) s) /\
    Forall (fun b => processed b = false) added /\
    NewsDatabase.get_unprocessed_articles None (db s ++ added) =
    Returns (null_title_article :: [stored_example] ++ added).
Proof.
  apply (null_title_blocks_all_runs [scenario_run; long_text_run]
           {| db := [null_title_article; stored_example]; documents := [];
              embed_calls := [] |} null_title_article [stored_example]).
  - reflexivity.
  - reflexivity.
Defined.

Lemma quiet_run_changes_nothing_witness :
  let s := {| db := [fallback_row]; documents := []; embed_calls := [] |} in
  run_complete_pipeline scenario_world "Gameloft official press release news"
    "http://searx.test:8080" 10 None (Some 5%Z) s = (Returns tt, s) /\
  run_complete_pipeline scenario_world "Gameloft official press release news"
    "http://searx.test:8080" 10 None (Some (-9223372036854775809)%Z) s =
    (Raises, s).
Proof.
  split.
  - apply (proj1 (quiet_run_changes_nothing scenario_world
             "Gameloft official press release news" "http://searx.test:8080"
             10 None (Some 5%Z)
             {| db := [fallback_row]; documents := []; embed_calls := [] |}
             ltac:(vm_compute; repeat constructor) eq_refl)).
    intros n E. injection E as <-. reflexivity.
  - apply (proj2 (quiet_run_changes_nothing scenario_world
             "Gameloft official press release news" "http://searx.test:8080"
             10 None (Some (-9223372036854775809)%Z)
             {| db := [fallback_row]; documents := []; embed_calls := [] |}
             ltac:(vm_compute; repeat constructor) eq_refl)
             (-9223372036854775809)%Z); reflexivity.
Defined.

Section Domain.

Variable w : world.

Lemma remove4_length (old : string) (s : string) :
  forall skip, (String.length (remove4 old skip s) <= String.length s)%nat.
Proof.
  induction s as [|c s IH]; intro skip; cbn [remove4 String.length]; [lia|].
  destruct skip as [|k].
  - destruct (prefix old (String c s)).
    + specialize (IH 3%nat). lia.
    + cbn [String.length]. specialize (IH 0%nat). lia.
  - specialize (IH k). lia.
Qed.

Lemma remove4_absent (old s : string) :
  occurs old s = false -> remove4 old 0 s = s.
Proof.
  induction s as [|c s IH]; cbn [remove4 occurs]; auto.
  intro H. apply orb_false_iff in H. destruct H as [H1 H2].
  rewrite H1. now rewrite IH.
Qed.

Lemma remove4_leading (rest : string) :
  remove4 "www." 0 ("www." ++ rest)%string = remove4 "www." 0 rest.
Proof. simpl. destruct rest; reflexivity. Qed.

Lemma string_app_assoc (a b c : string) :
  ((a ++ b) ++ c)%string = (a ++ b ++ c)%string.
Proof. induction a as [|x a IH]; simpl; congruence. Qed.

Lemma string_app_length (a b : string) :
  String.length (a ++ b) = (String.length a + String.length b)%nat.
Proof. induction a as [|x a IH]; simpl; congruence. Qed.

Lemma prefix_app (p x y : string) :
  (String.length p <= String.length x)%nat ->
  prefix p (x ++ y) = prefix p x.
Proof.
  revert x. induction p as [|c p IH]; intros x H.
  - destruct x, y; reflexivity.
  - destruct x as [|d x]; simpl in H; [lia|].
    simpl. destruct (ascii_dec c d); auto. apply IH. lia.
Qed.

Lemma prefix_www_app (c : ascii) (a b : string) :
  prefix "www." (String c a ++ "www." ++ b) =
  prefix "www." (String c a ++ "www").
Proof.
  change ("www." ++ b)%string with ("www" ++ ("." ++ b))%string.
  rewrite <- string_app_assoc.
  change (String c a ++ "www")%string with (String c (a ++ "www")).
  change (String c (a ++ "www") ++ "." ++ b)%string
    with ((String c (a ++ "www")) ++ ("." ++ b))%string.
  apply prefix_app. cbn [String.length]. rewrite string_app_length. simpl. lia.
Qed.

Lemma remove4_first (a b : string) :
  occurs "www." (a ++ "www") = false ->
  remove4 "www." 0 (a ++ "www." ++ b) = (a ++ remove4 "www." 0 b)%string.
Proof.
  induction a as [|c a IH]; intro H.
  - apply remove4_leading.
  - change (String c a ++ "www")%string with (String c (a ++ "www")) in H.
    cbn [occurs] in H. apply orb_false_iff in H. destruct H as [H1 H2].
    change (String c a ++ "www." ++ b)%string
      with (String c (a ++ "www." ++ b)).
    cbn [remove4].
    change (String c (a ++ "www." ++ b))
      with (String c a ++ "www." ++ b)%string.
    rewrite prefix_www_app.
    change (String c a ++ "www")%string with (String c (a ++ "www")).
    rewrite H1. rewrite (IH H2). reflexivity.
Qed.

Lemma remove4_join (pre : list string) (z : string) :
  leftmost pre z ->
  remove4 "www." 0 (join_www pre z) = join_plain pre z.
Proof.
  intros [Hpre Hz]. unfold join_www, join_plain.
  induction Hpre as [|a pre Ha Hpre IH]; cbn [fold_right].
  - now apply remove4_absent.
  - rewrite (remove4_first a _ Ha). now rewrite IH.
Qed.

Lemma prefix_www_split (s : string) :
  prefix "www." s = true -> exists b, s = ("www." ++ b)%string.
Proof.
  intro H. apply prefix_correct in H. simpl in H.
  destruct s as [|c1 [|c2 [|c3 [|c4 b]]]]; simpl in H; try discriminate.
  exists b. simpl. injection H as -> -> -> ->. reflexivity.
Qed.

Lemma first_occurrence (s : string) :
  occurs "www." s = true ->
  exists a b, s = (a ++ "www." ++ b)%string /\
              occurs "www." (a ++ "www") = false.
Proof.
  induction s as [|c s IH]; cbn [occurs]; [discriminate|].
  destruct (prefix "www." (String c s)) eqn:Hp.
  - intros _. destruct (prefix_www_split _ Hp) as [b ->].
    exists "", b. split; reflexivity.
  - intro H. simpl in H. destruct (IH H) as [a [b [-> Ha]]].
    exists (String c a), b. split; [reflexivity|].
    change (String c a ++ "www")%string with (String c (a ++ "www")).
    cbn [occurs]. rewrite Ha, orb_false_r.
    change (String c (a ++ "www")) with (String c a ++ "www")%string.
    rewrite <- (prefix_www_app c a b). exact Hp.
Qed.

Lemma leftmost_exists (n : nat) :
  forall s, (String.length s <= n)%nat ->
    exists pre z, s = join_www pre z /\ leftmost pre z.
Proof.
  induction n as [|n IH]; intros s Hlen.
  - destruct s; simpl in Hlen; [|lia].
    exists [], "". repeat split. constructor.
  - destruct (occurs "www." s) eqn:Ho.
    + destruct (first_occurrence s Ho) as [a [b [-> Ha]]].
      destruct (IH b) as [pre [z [-> [Hpre Hz]]]].
      { rewrite !string_app_length in Hlen. simpl in Hlen. lia. }
      exists (a :: pre), z. split; [reflexivity|].
      split; [constructor; auto|exact Hz].
    + exists [], s. repeat split; auto.
Qed.

(** X27. [get_domain] returns the empty string when the url cannot be
    parsed; otherwise it returns the host with every [www.] removed, the
    occurrences being taken from left to right without overlap: the host
    can be cut at these occurrences, in segments each followed by a [www.]
    and a last segment without one, and however it is cut so, the result
    is the segments joined without the [www.] between them, wherever in
    the host they stood. The result is never longer than the host, is the
    host itself when it holds no [www.], and is the rest of the host when
    the host starts with [www.] and that rest holds none. *)
Theorem get_domain_removes_www (u : string) :
  (urlparse_netloc w u = Raises -> get_domain w u = "") /\
  (forall host, urlparse_netloc w u = Returns host ->
     (String.length (get_domain w u) <= String.length host)%nat /\
     (occurs "www." host = false -> get_domain w u = host) /\
     (exists pre z, host = join_www pre z /\ leftmost pre z) /\
     (forall pre z, host = join_www pre z -> leftmost pre z ->
        get_domain w u = join_plain pre z)) /\
  (forall rest, urlparse_netloc w u = Returns ("www." ++ rest)%string ->
     occurs "www." rest = false -> get_domain w u = rest).
Proof.
  unfold get_domain. split; [|split].
  - now intros ->.
  - intros host ->. split; [apply remove4_length|].
    split; [apply remove4_absent|]. split.
    + apply (leftmost_exists (String.length host)). lia.
    + intros pre z -> H. now apply remove4_join.
  - intros rest -> H. rewrite remove4_leading. now apply remove4_absent.
Qed.

End Domain.

Lemma get_domain_removes_www_witness :
  (String.length (get_domain nothing_fetched_world "https://a.test/1")
   <= String.length "a.test")%nat /\
  get_domain nothing_fetched_world "https://a.test/1" = "a.test" /\
  get_domain www_world "https://www.a.test/1" = "a.test" /\
  get_domain inner_www_world "https://news.www.a.test/1" = "news.a.test".
Proof.
  split; [|split; [|split]].
  - apply (proj1 (proj2 (get_domain_removes_www nothing_fetched_world
                           "https://a.test/1")) "a.test").
    reflexivity.
  - apply (proj1 (proj2 (get_domain_removes_www nothing_fetched_world
                           "https://a.test/1")) "a.test"); reflexivity.
  - apply (proj2 (proj2 (get_domain_removes_www www_world
                           "https://www.a.test/1")) "a.test"); reflexivity.
  - apply (proj2 (proj2 (proj2 (proj1 (proj2
             (get_domain_removes_www inner_www_world
                "https://news.www.a.test/1")) "news.www.a.test" eq_refl)))
             ["news."] "a.test").
    + reflexivity.
    + split; [repeat constructor|reflexivity].
Defined.
